(** * FantasyFootballStatTracker: the statistics engine of [runEspnStats.py]

    A shallow embedding of the aggregation transforms
    ([FantasyFootballLeague]), of the batched writer and the sheet
    housekeeping ([GoogleSheetsManager]), of the report functions
    ([get_and_write_*]) and of the run that calls them ([run_analysis])
    of [runEspnStats.py], with the properties the specification states
    about them.

    Conventions of the embedding.
    - A Python [float] is an IEEE 754 binary64 number ([double]): sign,
      53-bit mantissa and exponent, with the two zeros, the infinities and
      NaN.  [+], [-], [*] and [/] round to nearest, ties to even;
      [round(x, 2)] rounds the exact value of [x] to a whole number of
      hundredths, ties to even, and returns the double nearest to it.  A
      number the provider supplies as an [int] stands for the double of
      the same value, and the [int] 0 a loop starts from is the positive
      zero.
    - [sum(...)] adds from the left, starting from 0, one rounded
      addition per element, as CPython does up to version 3.11 (from 3.12
      on it compensates the rounding errors of a sum of floats).
    - A Python exception is a [Raise e] result; the report functions, which
      mutate the manager and print, live in a state monad over [World]
      whose state survives a raise.
    - A one-character string [chr(n)] is its code point; a cell reference
      [f"{chr(c)}{row}"] is the pair of the column's code point and the
      row. *)

From Stdlib Require Import QArith Qround Qabs ZArith Lia Lqa Ascii.
From Stdlib Require Import Floats.SpecFloat.
From stdpp Require Import base option list strings gmap sorting pretty.

Local Open Scope string_scope.
Local Open Scope list_scope.

(** ** Exceptions and results *)

(** The exceptions the modelled code can raise; [ConnectionError] stands
    for whatever the sheet client raises besides the [HttpError] that
    [write_batch] catches. *)
Inductive exn : Type :=
  | ValueError
  | TypeError
  | IndexError
  | UnboundLocalError
  | ZeroDivisionError
  | ConnectionError.

Inductive result (A : Type) : Type :=
  | Ok (a : A)
  | Raise (e : exn).
Arguments Ok {A} a.
Arguments Raise {A} e.

#[global] Instance result_ret : MRet result := fun A a => Ok a.
#[global] Instance result_bind : MBind result := fun A B f m =>
  match m with
  | Ok a => f a
  | Raise e => Raise e
  end.

(** A [for] loop whose body may raise. *)
Fixpoint foldM {A B} (f : A → B → result A) (a : A) (l : list B) : result A :=
  match l with
  | [] => Ok a
  | x :: l' => a' ← f a x; foldM f a' l'
  end.

(** ** Numbers *)

(** A binary64 number: [S754_finite s m e] is [(-1)^s * m * 2^e]. *)
Definition double : Type := spec_float.

Module Num.

Definition prec : Z := 53.
Definition emax : Z := 1024.

(** The [int] 0 and the literal [100], as doubles. *)
Definition zero : double := S754_zero false.
Definition of_Z (z : Z) : double := binary_normalize prec emax z 0 false.
Definition of_nat (n : nat) : double := of_Z (Z.of_nat n).
Definition hundred : double := of_Z 100.

Definition add (x y : double) : double := SFadd prec emax x y.
Definition sub (x y : double) : double := SFsub prec emax x y.
Definition mul (x y : double) : double := SFmul prec emax x y.

(** The quotient of two doubles, rounded. *)
Definition quot (x y : double) : double := SFdiv prec emax x y.

(** [x == 0]: true of both zeros, false of NaN. *)
Definition is_zero (x : double) : bool :=
  match x with
  | S754_zero _ => true
  | _ => false
  end.

(** [x != 0] *)
Definition nonzero (x : double) : bool := negb (is_zero x).

(** [x / y]: [ZeroDivisionError] on a zero divisor. *)
Definition div (x y : double) : result double :=
  if nonzero y then Ok (quot x y) else Raise ZeroDivisionError.

(** [x / n] for an [int] [n] ([len(...)], a count, a number of weeks):
    [ZeroDivisionError] when [n] is 0, else the quotient by the double of
    [n]. *)
Definition div_int (x : double) (n : nat) : result double :=
  match n with
  | O => Raise ZeroDivisionError
  | S _ => Ok (quot x (of_nat n))
  end.

(** The exact value of a finite double; 0 for the others. *)
Definition exact (x : double) : Q :=
  match x with
  | S754_finite s m e =>
      let q := match e with
               | Zneg p => Qmake (Zpos m) (2 ^ p)%positive
               | _ => inject_Z (Zpos m * 2 ^ e)
               end in
      if s then (- q)%Q else q
  | _ => 0%Q
  end.

(** The integer nearest to [x], ties to the even one. *)
Definition round_half_even (x : Q) : Z :=
  let f := Qfloor x in
  match (x - inject_Z f ?= 1 # 2)%Q with
  | Lt => f
  | Gt => (f + 1)%Z
  | Eq => if Z.even f then f else (f + 1)%Z
  end.

(** The double nearest to [k / 100], with sign [s]: what the decimal
    numeral of [k] hundredths denotes. *)
Definition hundredths (s : bool) (k : Z) : double :=
  match k with
  | Zpos p => SFdiv prec emax (S754_finite s p 0) (S754_finite false 100 0)
  | _ => S754_zero s
  end.

(** [round(x, 2)]: zeros, infinities and NaN round to themselves. *)
Definition round2 (x : double) : double :=
  match x with
  | S754_finite s m e =>
      hundredths s (round_half_even (exact (S754_finite false m e) * 100))
  | _ => x
  end.

(** [sum(xs)]: starts from 0 and adds from the left, rounding every
    addition. *)
Definition sum (xs : list double) : double := foldl add zero xs.

End Num.

(** ** Data model *)

(** A team of the provider; [==] on teams is equality of the records. *)
Record Team : Type := { team_id : nat; team_name : string }.

#[global] Instance Team_eq_dec : EqDecision Team.
Proof. solve_decision. Defined.

(** One lineup entry: [player.stats] maps a week to a record of named
    statistics, among which [points] may or may not be present. *)
Record Player : Type := {
  position : string;
  slot_position : string;
  stats : gmap nat (gmap string double)
}.

(** A box score of the provider; the two sides are read with
    [getattr(matchup, f"{team_type}_team")] and the like. *)
Record Matchup : Type := {
  home_team : Team;
  home_lineup : list Player;
  home_projected : double;
  home_score : double;
  away_team : Team;
  away_lineup : list Player;
  away_projected : double;
  away_score : double
}.

Inductive team_type : Type := home | away.

Definition side_team (tt : team_type) (m : Matchup) : Team :=
  match tt with home => home_team m | away => away_team m end.
Definition side_lineup (tt : team_type) (m : Matchup) : list Player :=
  match tt with home => home_lineup m | away => away_lineup m end.
Definition side_projected (tt : team_type) (m : Matchup) : double :=
  match tt with home => home_projected m | away => away_projected m end.
Definition side_score (tt : team_type) (m : Matchup) : double :=
  match tt with home => home_score m | away => away_score m end.

(** The provider's league object: [league.teams], [league.box_scores(week)]
    and [league.power_rankings(week)]. *)
Record League : Type := {
  teams : list Team;
  box_scores : nat → list Matchup;
  power_rankings : nat → list (double * Team)
}.

(** A metric table: [(position, value)] pairs in the order appended. *)
Abbreviation MetricTable := (list (string * double)).

(** [TeamData.additional_data]: a dict with the three keys below, each
    absent until first written. *)
Record AdditionalData : Type := {
  average_per_overall : option MetricTable;
  power_ranking : option double;
  percentage_per_position : option MetricTable
}.

Definition no_additional_data : AdditionalData :=
  {| average_per_overall := None;
     power_ranking := None;
     percentage_per_position := None |}.

Record TeamData : Type := {
  team : Team;
  lineup : list Player;
  index_column : nat;
  projected : double;
  score : double;
  additional_data : AdditionalData
}.

Definition with_additional_data (d : AdditionalData) (t : TeamData) : TeamData :=
  {| team := team t; lineup := lineup t; index_column := index_column t;
     projected := projected t; score := score t; additional_data := d |}.

(** [TeamData.__init__] *)
Definition new_TeamData (tm : Team) (lu : list Player) (ic : nat) (pr sc : double)
  : TeamData :=
  {| team := tm; lineup := lu; index_column := ic; projected := pr;
     score := sc; additional_data := no_additional_data |}.

(** [TeamData.add_average_score_per_player] *)
Definition add_average_score_per_player (pos : string) (sc : double) (t : TeamData)
  : TeamData :=
  let d := additional_data t in
  let tbl := match average_per_overall d with
             | None => []
             | Some l => l
             end in
  with_additional_data
    {| average_per_overall := Some (tbl ++ [(pos, sc)]);
       power_ranking := power_ranking d;
       percentage_per_position := percentage_per_position d |} t.

(** [TeamData.get_average_score_per_player] *)
Definition get_average_score_per_player (t : TeamData) : option MetricTable :=
  average_per_overall (additional_data t).

(** [TeamData.add_power_ranking] *)
Definition add_power_ranking (ranking : double) (t : TeamData) : TeamData :=
  let d := additional_data t in
  with_additional_data
    {| average_per_overall := average_per_overall d;
       power_ranking := Some ranking;
       percentage_per_position := percentage_per_position d |} t.

(** [TeamData.get_power_ranking] *)
Definition get_power_ranking (t : TeamData) : option double :=
  power_ranking (additional_data t).

(** [TeamData.add_percentage_per_position] *)
Definition add_percentage_per_position (pos : string) (sc : double) (t : TeamData)
  : TeamData :=
  let d := additional_data t in
  let tbl := match percentage_per_position d with
             | None => []
             | Some l => l
             end in
  with_additional_data
    {| average_per_overall := average_per_overall d;
       power_ranking := power_ranking d;
       percentage_per_position := Some (tbl ++ [(pos, sc)]) |} t.

(** [TeamData.get_percentage_per_position] *)
Definition get_percentage_per_position (t : TeamData) : option MetricTable :=
  percentage_per_position (additional_data t).

(** ** FantasyFootballLeague *)

Record FantasyFootballLeague : Type := {
  league : League;
  week : nat
}.

(** [if week:] on an optional week number: [None] and [0] are false. *)
Definition truthy (w : option nat) : option nat :=
  match w with
  | Some (S n) => Some (S n)
  | _ => None
  end.

(** [l.index(x)]: the first position holding a value equal to [x],
    [ValueError] when there is none. *)
Fixpoint index_from {A} `{EqDecision A} (x : A) (l : list A) (i : nat)
  : result nat :=
  match l with
  | [] => Raise ValueError
  | y :: l' => if decide (y = x) then Ok i else index_from x l' (S i)
  end.

Definition list_index {A} `{EqDecision A} (x : A) (l : list A) : result nat :=
  index_from x l 0.

(** The body of the loop over [["home", "away"]] in [get_teams_data]. *)
Definition extract_side (fl : FantasyFootballLeague) (matchup : Matchup)
    (teams_data : list TeamData) (tt : team_type) : result (list TeamData) :=
  let tm := side_team tt matchup in
  let lu := side_lineup tt matchup in
  let pr := side_projected tt matchup in
  let sc := side_score tt matchup in
  i ← list_index tm (teams (league fl));
  let index_column := (i + 1)%nat in
  Ok (teams_data ++ [new_TeamData tm lu index_column pr sc]).

Definition extract_matchup (fl : FantasyFootballLeague)
    (teams_data : list TeamData) (matchup : Matchup) : result (list TeamData) :=
  foldM (extract_side fl matchup) teams_data [home; away].

(** [FantasyFootballLeague.get_teams_data] *)
Definition get_teams_data (fl : FantasyFootballLeague) (week_option : option nat)
  : result (list TeamData) :=
  let bs := match truthy week_option with
            | Some w => box_scores (league fl) w
            | None => box_scores (league fl) (week fl)
            end in
  foldM (extract_matchup fl) [] bs.

(** A [for] loop that updates every element of a list in place. *)
Fixpoint forM {A B} (f : A → result B) (l : list A) : result (list B) :=
  match l with
  | [] => Ok []
  | x :: l' => y ← f x; ys ← forM f l'; Ok (y :: ys)
  end.

(** [player.stats[week]["points"]], when
    [week in player.stats and "points" in player.stats[week]]. *)
Definition player_points (wk : nat) (player : Player) : option double :=
  rec ← stats player !! wk; rec !! "points".

(** [player.position == position and
     player.slot_position not in slot_conditions] *)
Definition qualifies (pos : string) (slot_conditions : list string)
    (player : Player) : bool :=
  bool_decide (position player = pos)
  && negb (bool_decide (slot_position player ∈ slot_conditions)).

(** The body of [for player in lineup] in [average_points_per_player],
    on the pair [(team_player_count, team_player_stats)]. *)
Definition count_player (pos : string) (slot_conditions : list string)
    (wk : nat) (acc : nat * double) (player : Player) : nat * double :=
  let '(team_player_count, team_player_stats) := acc in
  if qualifies pos slot_conditions player then
    let team_player_count := S team_player_count in
    match player_points wk player with
    | Some p => (team_player_count, Num.add team_player_stats p)
    | None => (team_player_count, team_player_stats)
    end
  else (team_player_count, team_player_stats).

(** The body of [for position in positions] in
    [average_points_per_player]. *)
Definition average_for_position (slot_conditions : list string) (wk : nat)
    (t : TeamData) (pos : string) : result TeamData :=
  let '(team_player_count, team_player_stats) :=
    foldl (count_player pos slot_conditions wk) (0%nat, Num.zero) (lineup t) in
  if (0 <? team_player_count)%nat then
    q ← Num.div_int team_player_stats team_player_count;
    let average_player_points := Num.round2 q in
    Ok (add_average_score_per_player pos average_player_points t)
  else Ok t.

(** [FantasyFootballLeague.average_points_per_player] *)
Definition average_points_per_player (fl : FantasyFootballLeague)
    (positions slot_conditions : list string) (week_arg : option nat)
  : result (list TeamData) :=
  teams_data ← get_teams_data fl (truthy week_arg);
  let wk := default (week fl) (truthy week_arg) in
  forM (λ t, foldM (average_for_position slot_conditions wk) t positions)
       teams_data.

(** The body of [for ranking in power_rankings]: the ranking is attached
    to every snapshot of its team. *)
Definition attach_ranking (teams_data : list TeamData) (ranking : double * Team)
  : list TeamData :=
  (λ t, if decide (ranking.2 = team t) then add_power_ranking ranking.1 t else t)
    <$> teams_data.

(** [FantasyFootballLeague.power_ranking_per_player] *)
Definition power_ranking_per_player (fl : FantasyFootballLeague)
    (week_arg : option nat) : result (list TeamData) :=
  let wk := default (week fl) (truthy week_arg) in
  let rankings := power_rankings (league fl) wk in
  teams_data ← get_teams_data fl (Some wk);
  Ok (foldl attach_ranking teams_data rankings).

(** The two generator sums of [percentage_of_points_by_position]. *)
Definition total_points_for_position (pos : string)
    (slot_conditions : list string) (wk : nat) (lu : list Player) : double :=
  Num.sum (omap (λ player,
    p ← player_points wk player;
    if qualifies pos slot_conditions player then Some p else None) lu).

Definition total_team_points (slot_conditions : list string) (wk : nat)
    (lu : list Player) : double :=
  Num.sum (omap (λ player,
    p ← player_points wk player;
    if negb (bool_decide (slot_position player ∈ slot_conditions))
    then Some p else None) lu).

(** The body of [for position in positions] in
    [percentage_of_points_by_position]. *)
Definition percentage_for_position (slot_conditions : list string) (wk : nat)
    (t : TeamData) (pos : string) : result TeamData :=
  let tp := total_points_for_position pos slot_conditions wk (lineup t) in
  let tt := total_team_points slot_conditions wk (lineup t) in
  percentage_points_per_position ←
    (if Num.nonzero tt
     then q ← Num.div tp tt; Ok (Num.mul q Num.hundred)
     else Ok Num.zero);
  let percentage_points_per_position_rounded :=
    Num.round2 percentage_points_per_position in
  Ok (add_percentage_per_position pos percentage_points_per_position_rounded t).

(** [FantasyFootballLeague.percentage_of_points_by_position] *)
Definition percentage_of_points_by_position (fl : FantasyFootballLeague)
    (positions slot_conditions : list string) (week_arg : option nat)
  : result (list TeamData) :=
  teams_data ← get_teams_data fl (truthy week_arg);
  let wk := default (week fl) (truthy week_arg) in
  forM (λ t, foldM (percentage_for_position slot_conditions wk) t positions)
       teams_data.

(** ** GoogleSheetsManager *)

Inductive cell_value : Type :=
  | VStr (s : string)
  | VNum (q : double).

(** [f"{chr(c)}{row}"] *)
Record CellRef : Type := { cell_col : nat; cell_row : nat }.

(** An entry of [batch_data[function_name]]. *)
Record PendingWrite : Type := {
  sheet_name : string;
  cell_range : CellRef;
  value : cell_value
}.

(** An entry of the bulk request: [range] is
    [f"{sheet_name}!{cell_range}"] and [values] is [[[value]]]. *)
Record BatchValue : Type := {
  range_sheet : string;
  range_cell : CellRef;
  values : cell_value
}.

(** What [batchUpdate(...).execute()] does: it returns, raises the
    [HttpError] that [write_batch] catches, or raises something else. *)
Inductive sink_outcome : Type :=
  | SinkOk
  | SinkHttpError
  | SinkRaises (e : exn).

(** The mutable world of a report run: the manager's [service] (its answer
    to a bulk request, given the requests made before), the manager's
    [batch_data] (a dict, in insertion order), the bulk requests made so
    far, and what was printed. *)
Record World : Type := {
  service : list (list BatchValue) → list BatchValue → sink_outcome;
  batch_data : list (string * list PendingWrite);
  requests : list (list BatchValue);
  stdout : list string
}.

Definition M (A : Type) : Type := World → result A * World.

#[global] Instance M_ret : MRet M := λ A a w, (Ok a, w).
#[global] Instance M_bind : MBind M := λ A B f m w,
  match m w with
  | (Ok a, w') => f a w'
  | (Raise e, w') => (Raise e, w')
  end.

Definition lift {A} (r : result A) : M A := λ w, (r, w).

Definition print (s : string) : M () := λ w,
  (Ok (), {| service := service w; batch_data := batch_data w;
             requests := requests w; stdout := stdout w ++ [s] |}).

(** A [for] loop with an accumulator, in the world. *)
Fixpoint foldW {A B} (f : A → B → M A) (a : A) (l : list B) : M A :=
  match l with
  | [] => mret a
  | x :: l' => a' ← f a x; foldW f a' l'
  end.

(** [batch_data[function_name].append(e)], after the key is created with
    an empty list when it is new. *)
Fixpoint batch_append (function_name : string) (e : PendingWrite)
    (bd : list (string * list PendingWrite)) : list (string * list PendingWrite) :=
  match bd with
  | [] => [(function_name, [e])]
  | (k, data_list) :: bd' =>
      if decide (k = function_name) then (k, data_list ++ [e]) :: bd'
      else (k, data_list) :: batch_append function_name e bd'
  end.

(** [GoogleSheetsManager.add_data_to_batch] *)
Definition add_data_to_batch (sh : string) (cell : CellRef) (v : cell_value)
    (function_name : string) : M () := λ w,
  (Ok (), {| service := service w;
             batch_data := batch_append function_name
               {| sheet_name := sh; cell_range := cell; value := v |}
               (batch_data w);
             requests := requests w; stdout := stdout w |}).

(** [GoogleSheetsManager.write_to_sheet] *)
Definition write_to_sheet (sh : string) (cell : CellRef) (v : cell_value)
    (function_name : string) : M () :=
  add_data_to_batch sh cell v function_name.

Definition to_batch_value (data : PendingWrite) : BatchValue :=
  {| range_sheet := sheet_name data; range_cell := cell_range data;
     values := value data |}.

(** The [batch_values] that [write_batch] builds from [batch_data]. *)
Definition batch_values_of (bd : list (string * list PendingWrite))
  : list BatchValue :=
  flat_map (λ item, to_batch_value <$> item.2) bd.

(** [GoogleSheetsManager.write_batch] *)
Definition write_batch : M () := λ w,
  let batch_values := batch_values_of (batch_data w) in
  let sent := {| service := service w; batch_data := [];
                 requests := requests w ++ [batch_values];
                 stdout := stdout w |} in
  match service w (requests w) batch_values with
  | SinkOk => print "Batch data written successfully." sent
  | SinkHttpError => print "Error writing batch to spreadsheet: HttpError" sent
  | SinkRaises e => (Raise e, sent)
  end.

(** ** Cell addressing *)

Definition ord_A : nat := 65.

(** [chr(n)]: the character of code point [n], [ValueError] beyond
    [0x10FFFF]. *)
Definition chr (n : nat) : result nat :=
  if (N.of_nat n <=? 1114111)%N then Ok n else Raise ValueError.

(** [f"{chr(ord('A') + k)}{index_row}"] *)
Definition cell_at (k index_row : nat) : result CellRef :=
  c ← chr (ord_A + k); Ok {| cell_col := c; cell_row := index_row |}.

(** The characters ["A"] to ["Z"]. *)
Definition is_column_letter (c : nat) : bool :=
  (65 <=? c)%nat && (c <=? 90)%nat.

(** ** Report functions *)

(** [l[i]] on a list. *)
Definition getitem {A} (l : list A) (i : nat) : result A :=
  match l !! i with
  | Some x => Ok x
  | None => Raise IndexError
  end.

(** Using an optional table where a list is needed ([len], indexing,
    iteration): [TypeError] on [None]. *)
Definition as_list {A} (o : option (list A)) : result (list A) :=
  match o with
  | Some l => Ok l
  | None => Raise TypeError
  end.

(** Reading a local variable that may not have been assigned yet. *)
Definition local {A} (o : option A) : result A :=
  match o with
  | Some x => Ok x
  | None => Raise UnboundLocalError
  end.

(** [get_and_write_team_names] *)
Definition get_and_write_team_names (fl : FantasyFootballLeague)
    (sh : string) : M () :=
  teams_data ← lift (get_teams_data fl None);
  let index_row := 1%nat in
  _ ← foldW (λ _ t,
        cell ← lift (cell_at (index_column t) index_row);
        write_to_sheet sh cell (VStr (team_name (team t)))
          "print_team_names_to_sheet") () teams_data;
  cell ← lift (cell_at (length teams_data + 1) index_row);
  _ ← write_to_sheet sh cell (VStr "League average")
        "print_team_names_to_sheet";
  write_batch.

(** The body of [for team in teams_data] in
    [get_and_write_average_points_per_player]. *)
Definition write_team_average (sh : string) (index_row position_index : nat)
    (league_average : double) (t : TeamData) : M double :=
  tbl ← lift (as_list (get_average_score_per_player t));
  e ← lift (getitem tbl position_index);
  let league_average := Num.add league_average e.2 in
  cell ← lift (cell_at (index_column t) index_row);
  _ ← add_data_to_batch sh cell (VNum e.2) "average_points_per_player";
  mret league_average.

(** The loop [for index_row, position in enumerate(positions_to_check,
    start=start_position)] of [get_and_write_average_points_per_player];
    [position_index] advances with it. *)
Fixpoint write_average_rows (sh : string) (started_or_not : string)
    (teams_data : list TeamData) (index_row position_index : nat)
    (positions : list string) : M () :=
  match positions with
  | [] => mret ()
  | pos :: rest =>
      _ ← write_to_sheet sh {| cell_col := ord_A; cell_row := index_row |}
            (VStr ("Pts/" +:+ pos +:+ " " +:+ started_or_not))
            "average_points_per_player";
      league_average ←
        foldW (write_team_average sh index_row position_index) Num.zero
              teams_data;
      cell ← lift (cell_at (length teams_data + 1) index_row);
      mean ← lift (Num.div_int league_average (length teams_data));
      _ ← add_data_to_batch sh cell (VNum (Num.round2 mean))
            "average_points_per_player";
      write_average_rows sh started_or_not teams_data (S index_row)
                         (S position_index) rest
  end.

(** [get_and_write_average_points_per_player] *)
Definition get_and_write_average_points_per_player (fl : FantasyFootballLeague)
    (sh : string) (start_position : nat)
    (positions_to_check positions_to_omit : list string)
    (started_or_not : string) : M () :=
  teams_data ← lift (average_points_per_player fl positions_to_check
                       positions_to_omit None);
  _ ← write_average_rows sh started_or_not teams_data start_position 0
        positions_to_check;
  write_batch.

(** [float(x)] on an optional ranking: [TypeError] on [None]. *)
Definition float (o : option double) : result double :=
  match o with
  | Some q => Ok q
  | None => Raise TypeError
  end.

(** The body of [for team in teams_data] in [get_and_write_power_ranking]. *)
Definition write_team_ranking (sh : string) (index_row : nat)
    (league_average : double) (t : TeamData) : M double :=
  cell ← lift (cell_at (index_column t) index_row);
  r ← lift (float (get_power_ranking t));
  let league_average := Num.add league_average r in
  _ ← add_data_to_batch sh cell (VNum r) "power_ranking";
  mret league_average.

(** [get_and_write_power_ranking] *)
Definition get_and_write_power_ranking (fl : FantasyFootballLeague)
    (sh : string) (index_row : nat) : M () :=
  teams_data ← lift (power_ranking_per_player fl None);
  _ ← write_to_sheet sh {| cell_col := ord_A; cell_row := index_row |}
        (VStr "Power Ranking") "power_ranking";
  league_average ← foldW (write_team_ranking sh index_row) Num.zero teams_data;
  cell ← lift (cell_at (length teams_data + 1) index_row);
  mean ← lift (Num.div_int league_average (length teams_data));
  _ ← add_data_to_batch sh cell (VNum mean) "power_ranking";
  write_batch.

(** *** Multi-week aggregation *)

(** [sorted(teams_data, key=lambda team_data: team_data.index_column)]:
    a stable sort by column. *)
Fixpoint insert_by_column (t : TeamData) (l : list TeamData) : list TeamData :=
  match l with
  | [] => [t]
  | u :: l' =>
      if (index_column u <? index_column t)%nat
      then u :: insert_by_column t l'
      else t :: u :: l'
  end.

Definition sorted_by_column (l : list TeamData) : list TeamData :=
  foldr insert_by_column [] l.

(** [enumerate(l, start)] *)
Fixpoint enumerate {A} (start : nat) (l : list A) : list (nat * A) :=
  match l with
  | [] => []
  | x :: l' => (start, x) :: enumerate (S start) l'
  end.

(** [(pos, val1 + val2) for (pos, val1), (_, val2) in zip(acc, tbl)] *)
Definition sum_tables (acc tbl : MetricTable) : MetricTable :=
  zip_with (λ e1 e2, (e1.1, Num.add e1.2 e2.2)) acc tbl.

(** The recomputation of [average_overall_team_data] from
    [overall_teams_data]: every value divided by [weeks].  (In the
    average-points function the new entries are triples
    [(position, value / weeks, 2)]; only their component [1] is ever
    read, so the constant third component is left out.) *)
Definition average_tables (weeks : nat) (overall : list (option MetricTable))
  : result (list MetricTable) :=
  forM (λ sub_list,
          l ← as_list sub_list;
          forM (λ e : string * double,
                  q ← Num.div_int e.2 weeks; Ok (e.1, q)) l)
       overall.

(** The local variables of the week loop: [overall_teams_data],
    [average_overall_team_data] (unbound until first assigned) and
    [teams_data] (unbound until the first week). *)
Record Totals : Type := {
  overall_teams_data : list (option MetricTable);
  average_overall_team_data : option (list MetricTable);
  last_teams_data : option (list TeamData)
}.

Definition initial_totals : Totals :=
  {| overall_teams_data := [];
     average_overall_team_data := None;
     last_teams_data := None |}.

Definition warning (t : TeamData) : string :=
  "Warning: Varying tuple lengths for team " +:+ team_name (team t).

Section Accumulate.

(** The two multi-week functions run the same loop over the weeks; they
    differ in the single-week transform they call and in the table they
    read from each snapshot. *)
Variable transform :
  FantasyFootballLeague → list string → list string → option nat →
  result (list TeamData).
Variable get_table : TeamData → option MetricTable.

(** The body of [for i, team in enumerate(sorted_teams_data)]. *)
Definition accumulate_team (weeks : nat) (st : Totals) (it : nat * TeamData)
  : M Totals :=
  let '(i, t) := it in
  cur ← lift (getitem (overall_teams_data st) i);
  acc ← lift (as_list cur);
  tbl ← lift (as_list (get_table t));
  if negb (length acc =? length tbl)%nat then
    _ ← print (warning t);
    mret st
  else
    let overall := <[i := Some (sum_tables acc tbl)]> (overall_teams_data st) in
    avg ← lift (average_tables weeks overall);
    mret {| overall_teams_data := overall;
            average_overall_team_data := Some avg;
            last_teams_data := last_teams_data st |}.

(** The body of [for week in range(1, weeks + 1)]. *)
Definition accumulate_week (fl : FantasyFootballLeague) (weeks : nat)
    (positions_to_check positions_to_omit : list string)
    (st : Totals) (wk : nat) : M Totals :=
  teams_data ← lift (transform fl positions_to_check positions_to_omit
                       (Some wk));
  let sorted_teams_data := sorted_by_column teams_data in
  let st := {| overall_teams_data := overall_teams_data st;
               average_overall_team_data := average_overall_team_data st;
               last_teams_data := Some teams_data |} in
  match overall_teams_data st with
  | [] =>
      mret {| overall_teams_data := get_table <$> sorted_teams_data;
              average_overall_team_data := average_overall_team_data st;
              last_teams_data := last_teams_data st |}
  | _ :: _ =>
      foldW (accumulate_team weeks) st (enumerate 0 sorted_teams_data)
  end.

Definition accumulate_weeks (fl : FantasyFootballLeague) (weeks : nat)
    (positions_to_check positions_to_omit : list string) : M Totals :=
  foldW (accumulate_week fl weeks positions_to_check positions_to_omit)
        initial_totals (seq 1 weeks).

End Accumulate.

(** [average_overall_team_data[team][position_index][1]] *)
Definition averaged_value (st : Totals) (i position_index : nat) : result double :=
  avg ← local (average_overall_team_data st);
  row ← getitem avg i;
  e ← getitem row position_index;
  Ok e.2.

(** The body of [for team in range(len(teams_data))] in
    [get_and_write_average_points_per_player_all_weeks]. *)
Definition write_team_average_all_weeks (sh : string) (st : Totals)
    (index_row position_index : nat) (league_average : double) (i : nat) : M double :=
  cell ← lift (cell_at (i + 1) index_row);
  v ← lift (averaged_value st i position_index);
  let league_average := Num.add league_average (Num.round2 v) in
  _ ← add_data_to_batch sh cell (VNum (Num.round2 v))
        "average_points_per_player_all_weeks";
  mret league_average.

Fixpoint write_average_rows_all_weeks (sh : string) (started_or_not : string)
    (st : Totals) (index_row position_index : nat) (positions : list string)
  : M () :=
  match positions with
  | [] => mret ()
  | pos :: rest =>
      _ ← write_to_sheet sh {| cell_col := ord_A; cell_row := index_row |}
            (VStr ("Pts/" +:+ pos +:+ " " +:+ started_or_not))
            "average_points_per_player_all_weeks";
      teams_data ← lift (local (last_teams_data st));
      league_average ←
        foldW (write_team_average_all_weeks sh st index_row position_index)
              Num.zero (seq 0 (length teams_data));
      cell ← lift (cell_at (length teams_data + 1) index_row);
      mean ← lift (Num.div_int league_average (length teams_data));
      _ ← add_data_to_batch sh cell (VNum (Num.round2 mean))
            "average_points_per_player_all_weeks";
      write_average_rows_all_weeks sh started_or_not st (S index_row)
                                   (S position_index) rest
  end.

(** [get_and_write_average_points_per_player_all_weeks] *)
Definition get_and_write_average_points_per_player_all_weeks
    (fl : FantasyFootballLeague) (weeks : nat) (sh : string)
    (start_position : nat) (positions_to_check positions_to_omit : list string)
    (started_or_not : string) : M () :=
  st ← accumulate_weeks average_points_per_player get_average_score_per_player
         fl weeks positions_to_check positions_to_omit;
  _ ← write_average_rows_all_weeks sh started_or_not st start_position 0
        positions_to_check;
  write_batch.

(** The body of [for team in range(len(teams_data))] in
    [get_and_write_percentage_of_points_per_position_all_weeks]: the
    league average adds the value as it is, the cell gets it rounded. *)
Definition write_team_percentage_all_weeks (sh : string) (st : Totals)
    (index_row position_index : nat) (league_average : double) (i : nat) : M double :=
  v ← lift (averaged_value st i position_index);
  let league_average := Num.add league_average v in
  cell ← lift (cell_at (i + 1) index_row);
  _ ← add_data_to_batch sh cell (VNum (Num.round2 v))
        "percentage_of_points_per_position";
  mret league_average.

Fixpoint write_percentage_rows_all_weeks (sh : string) (started_or_not : string)
    (st : Totals) (index_row position_index : nat) (positions : list string)
  : M () :=
  match positions with
  | [] => mret ()
  | pos :: rest =>
      _ ← write_to_sheet sh {| cell_col := ord_A; cell_row := index_row |}
            (VStr ("% points/" +:+ pos +:+ " " +:+ started_or_not))
            "percentage_of_points_per_position";
      teams_data ← lift (local (last_teams_data st));
      league_average ←
        foldW (write_team_percentage_all_weeks sh st index_row position_index)
              Num.zero (seq 0 (length teams_data));
      cell ← lift (cell_at (length teams_data + 1) index_row);
      mean ← lift (Num.div_int league_average (length teams_data));
      _ ← add_data_to_batch sh cell (VNum (Num.round2 mean))
            "percentage_of_points_per_position";
      write_percentage_rows_all_weeks sh started_or_not st (S index_row)
                                      (S position_index) rest
  end.

(** [get_and_write_percentage_of_points_per_position_all_weeks] *)
Definition get_and_write_percentage_of_points_per_position_all_weeks
    (fl : FantasyFootballLeague) (weeks : nat) (sh : string)
    (start_position : nat) (positions_to_check positions_to_omit : list string)
    (started_or_not : string) : M () :=
  st ← accumulate_weeks percentage_of_points_by_position
         get_percentage_per_position
         fl weeks positions_to_check positions_to_omit;
  _ ← write_percentage_rows_all_weeks sh started_or_not st start_position 0
        positions_to_check;
  write_batch.

(** *** The other single-week rows *)

(** The body of [for team in teams_data] in
    [get_and_write_over_under_projection]. *)
Definition write_team_projection (sh : string) (index_row : nat)
    (league_average : double) (t : TeamData) : M double :=
  let score_diff := Num.round2 (Num.sub (score t) (projected t)) in
  cell ← lift (cell_at (index_column t) index_row);
  let league_average := Num.add league_average score_diff in
  _ ← add_data_to_batch sh cell (VNum score_diff) "power_ranking";
  mret league_average.

(** [get_and_write_over_under_projection] *)
Definition get_and_write_over_under_projection (fl : FantasyFootballLeague)
    (sh : string) (index_row : nat) : M () :=
  teams_data ← lift (get_teams_data fl None);
  _ ← write_to_sheet sh {| cell_col := ord_A; cell_row := index_row |}
        (VStr "Over/Under Projection") "projection_diff";
  league_average ←
    foldW (write_team_projection sh index_row) Num.zero teams_data;
  cell ← lift (cell_at (length teams_data + 1) index_row);
  mean ← lift (Num.div_int league_average (length teams_data));
  _ ← add_data_to_batch sh cell (VNum (Num.round2 mean)) "power_ranking";
  write_batch.

(** The body of [for team in teams_data] in
    [get_and_write_percentage_of_points_per_position]. *)
Definition write_team_percentage (sh : string) (index_row position_index : nat)
    (league_average : double) (t : TeamData) : M double :=
  tbl ← lift (as_list (get_percentage_per_position t));
  e ← lift (getitem tbl position_index);
  let league_average := Num.add league_average (Num.round2 e.2) in
  cell ← lift (cell_at (index_column t) index_row);
  _ ← add_data_to_batch sh cell (VNum (Num.round2 e.2))
        "percentage_of_points_per_position";
  mret league_average.

(** The loop over the positions of
    [get_and_write_percentage_of_points_per_position]. *)
Fixpoint write_percentage_rows (sh : string) (started_or_not : string)
    (teams_data : list TeamData) (index_row position_index : nat)
    (positions : list string) : M () :=
  match positions with
  | [] => mret ()
  | pos :: rest =>
      _ ← write_to_sheet sh {| cell_col := ord_A; cell_row := index_row |}
            (VStr ("% points/" +:+ pos +:+ " " +:+ started_or_not))
            "percentage_of_points_per_position";
      league_average ←
        foldW (write_team_percentage sh index_row position_index) Num.zero
              teams_data;
      cell ← lift (cell_at (length teams_data + 1) index_row);
      mean ← lift (Num.div_int league_average (length teams_data));
      _ ← add_data_to_batch sh cell (VNum (Num.round2 mean))
            "percentage_of_points_per_position";
      write_percentage_rows sh started_or_not teams_data (S index_row)
                            (S position_index) rest
  end.

(** [get_and_write_percentage_of_points_per_position] *)
Definition get_and_write_percentage_of_points_per_position
    (fl : FantasyFootballLeague) (sh : string) (start_position : nat)
    (positions_to_check positions_to_omit : list string)
    (started_or_not : string) : M () :=
  teams_data ← lift (percentage_of_points_by_position fl positions_to_check
                       positions_to_omit None);
  _ ← write_percentage_rows sh started_or_not teams_data start_position 0
        positions_to_check;
  write_batch.

(** *** Multi-week power ranking and projection delta *)

(** The local variables of the week loop of the two scalar multi-week
    functions: [overall_teams_data] and [teams_data] (unbound until the
    first week). *)
Record ScalarTotals : Type := {
  overall_scalars : list double;
  scalar_teams_data : option (list TeamData)
}.

Definition initial_scalar_totals : ScalarTotals :=
  {| overall_scalars := []; scalar_teams_data := None |}.

(** [float(team.get_power_ranking())] *)
Definition ranking_value (t : TeamData) : result double :=
  float (get_power_ranking t).

(** [round(team.score - team.projected, 2)] *)
Definition projection_value (t : TeamData) : result double :=
  Ok (Num.round2 (Num.sub (score t) (projected t))).

Section ScalarAccumulate.

(** [get_and_write_power_ranking_all_weeks] and
    [get_and_write_over_under_projection_all_weeks] run the same loop over
    the weeks, both on the snapshots of [power_ranking_per_player(week)];
    they differ in the number they take from a snapshot. *)
Variable value_of : TeamData → result double.

(** The body of [for i, team_data in enumerate(sorted_teams_data)]:
    [overall_teams_data[i] += value]. *)
Definition accumulate_scalar (st : ScalarTotals) (it : nat * TeamData)
  : M ScalarTotals :=
  let '(i, t) := it in
  cur ← lift (getitem (overall_scalars st) i);
  v ← lift (value_of t);
  mret {| overall_scalars := <[i := Num.add cur v]> (overall_scalars st);
          scalar_teams_data := scalar_teams_data st |}.

(** The body of [for week in range(1, weeks + 1)]. *)
Definition accumulate_scalar_week (fl : FantasyFootballLeague)
    (st : ScalarTotals) (wk : nat) : M ScalarTotals :=
  teams_data ← lift (power_ranking_per_player fl (Some wk));
  let sorted_teams_data := sorted_by_column teams_data in
  let st := {| overall_scalars := overall_scalars st;
               scalar_teams_data := Some teams_data |} in
  match overall_scalars st with
  | [] =>
      vs ← lift (forM value_of sorted_teams_data);
      mret {| overall_scalars := vs;
              scalar_teams_data := scalar_teams_data st |}
  | _ :: _ => foldW accumulate_scalar st (enumerate 0 sorted_teams_data)
  end.

(** The body of [for position_index, value in enumerate(rounded_values,
    start=1)]. *)
Definition write_rounded_value (sh : string) (index_row : nat)
    (league_average : double) (iv : nat * double) : M double :=
  let '(position_index, v) := iv in
  let league_average := Num.add league_average v in
  cell ← lift (cell_at position_index index_row);
  _ ← add_data_to_batch sh cell (VNum v) "power_ranking";
  mret league_average.

(** The two functions, up to the row label and the operation name it is
    staged under. *)
Definition write_scalar_all_weeks (label label_tag : string)
    (fl : FantasyFootballLeague) (weeks : nat) (sh : string) (index_row : nat)
  : M () :=
  st ← foldW (accumulate_scalar_week fl) initial_scalar_totals (seq 1 weeks);
  rounded_values ←
    lift (forM (λ v, q ← Num.div_int v weeks; Ok (Num.round2 q))
               (overall_scalars st));
  _ ← write_to_sheet sh {| cell_col := ord_A; cell_row := index_row |}
        (VStr label) label_tag;
  league_average ←
    foldW (write_rounded_value sh index_row) Num.zero
          (enumerate 1 rounded_values);
  teams_data ← lift (local (scalar_teams_data st));
  cell ← lift (cell_at (length teams_data + 1) index_row);
  mean ← lift (Num.div_int league_average (length teams_data));
  _ ← add_data_to_batch sh cell (VNum (Num.round2 mean)) "power_ranking";
  write_batch.

End ScalarAccumulate.

(** [get_and_write_power_ranking_all_weeks] *)
Definition get_and_write_power_ranking_all_weeks (fl : FantasyFootballLeague)
    (weeks : nat) (sh : string) (index_row : nat) : M () :=
  write_scalar_all_weeks ranking_value "Power Ranking" "power_ranking"
                         fl weeks sh index_row.

(** [get_and_write_over_under_projection_all_weeks] *)
Definition get_and_write_over_under_projection_all_weeks
    (fl : FantasyFootballLeague) (weeks : nat) (sh : string) (index_row : nat)
  : M () :=
  write_scalar_all_weeks projection_value "Over/Under Projection"
                         "projection_diff" fl weeks sh index_row.

(** ** Sheet housekeeping

    [open_spreadsheet], [check_sheet_exists], [delete_other_sheets] and
    [create_new_sheet] read and change the structure of the spreadsheet
    through two more calls of the sheet client:
    [spreadsheets().get(...).execute()], and
    [spreadsheets().batchUpdate(...).execute()] with one [addSheet] or
    [deleteSheet] request. *)

(** What the code reads of a sheet of the metadata:
    [sheet.get("properties", {}).get("title")] and
    [sheet.get("properties", {}).get("sheetId")], each [None] when
    ["properties"] or the key is missing. *)
Record Sheet : Type := {
  sheet_title : option string;
  sheet_id : option nat
}.

(** The metadata dict, as far as the code looks at it: whether it is empty
    (an empty dict is falsy), and its ["sheets"] entry when it has one. *)
Inductive Spreadsheet : Type :=
  | EmptyDict
  | Dict (sheets_entry : option (list Sheet)).

(** [bool(spreadsheet)] *)
Definition dict_truthy (spreadsheet : Spreadsheet) : bool :=
  match spreadsheet with
  | EmptyDict => false
  | Dict _ => true
  end.

(** [spreadsheet.get("sheets", [])] *)
Definition get_sheets (spreadsheet : Spreadsheet) : list Sheet :=
  match spreadsheet with
  | EmptyDict => []
  | Dict entry => default [] entry
  end.

(** The single request of a structural [batchUpdate]. *)
Inductive StructureRequest : Type :=
  | AddSheet (title : string)
  | DeleteSheet (sheetId : option nat).

Inductive ApiCall : Type :=
  | GetSpreadsheet
  | BatchUpdate (request : StructureRequest).

(** What such a call does: it returns, raises [HttpError], or raises
    something else. *)
Inductive api_outcome (A : Type) : Type :=
  | ApiOk (a : A)
  | ApiHttpError
  | ApiRaises (e : exn).
Arguments ApiOk {A} a.
Arguments ApiHttpError {A}.
Arguments ApiRaises {A} e.

(** The exceptions of the housekeeping methods: [AttributeError], an
    [HttpError] that nothing caught, or one of the exceptions above. *)
Inductive sheet_exn : Type :=
  | AttributeError
  | HttpError
  | Propagated (e : exn).

Inductive outcome (A : Type) : Type :=
  | Done (a : A)
  | Failed (e : sheet_exn).
Arguments Done {A} a.
Arguments Failed {A} e.

(** The manager with the structure of its spreadsheet: the client's answer
    to a metadata request and to a structural request, given the calls
    made before, and these calls. *)
Record Book : Type := {
  manager : World;
  on_get : list ApiCall → api_outcome Spreadsheet;
  on_update : list ApiCall → StructureRequest → api_outcome ();
  api_calls : list ApiCall
}.

Definition BookM (A : Type) : Type := Book → outcome A * Book.

#[global] Instance BookM_ret : MRet BookM := λ A a b, (Done a, b).
#[global] Instance BookM_bind : MBind BookM := λ A C f m b,
  match m b with
  | (Done a, b') => f a b'
  | (Failed e, b') => (Failed e, b')
  end.

Definition with_manager (w : World) (b : Book) : Book :=
  {| manager := w; on_get := on_get b; on_update := on_update b;
     api_calls := api_calls b |}.

Definition called (c : ApiCall) (b : Book) : Book :=
  {| manager := manager b; on_get := on_get b; on_update := on_update b;
     api_calls := api_calls b ++ [c] |}.

Definition raise_in_book {A} (e : sheet_exn) : BookM A := λ b, (Failed e, b).

(** A method or function of the cell writer, run on the book's manager. *)
Definition in_manager {A} (m : M A) : BookM A := λ b,
  match m (manager b) with
  | (Ok a, w) => (Done a, with_manager w b)
  | (Raise e, w) => (Failed (Propagated e), with_manager w b)
  end.

(** [try: body
     except HttpError as e: handler] *)
Definition try_http {A} (body handler : BookM A) : BookM A := λ b,
  match body b with
  | (Failed HttpError, b') => handler b'
  | r => r
  end.

(** [self.service.spreadsheets().get(spreadsheetId=...).execute()] *)
Definition spreadsheets_get : BookM Spreadsheet := λ b,
  let b' := called GetSpreadsheet b in
  match on_get b (api_calls b) with
  | ApiOk spreadsheet => (Done spreadsheet, b')
  | ApiHttpError => (Failed HttpError, b')
  | ApiRaises e => (Failed (Propagated e), b')
  end.

(** [self.service.spreadsheets().batchUpdate(spreadsheetId=...,
    body={"requests": [request]}).execute()] *)
Definition spreadsheets_batchUpdate (request : StructureRequest) : BookM () :=
  λ b,
  let b' := called (BatchUpdate request) b in
  match on_update b (api_calls b) request with
  | ApiOk _ => (Done (), b')
  | ApiHttpError => (Failed HttpError, b')
  | ApiRaises e => (Failed (Propagated e), b')
  end.

(** [GoogleSheetsManager.open_spreadsheet] *)
Definition open_spreadsheet : BookM (option Spreadsheet) :=
  try_http
    (spreadsheet ← spreadsheets_get; mret (Some spreadsheet))
    (_ ← in_manager (print "Error opening spreadsheet: HttpError");
     mret None).

(** The loop of [check_sheet_exists], which returns [True] from inside,
    and the [return False] after it. *)
Fixpoint any_title (sheet_name : string) (sheets : list Sheet) : bool :=
  match sheets with
  | [] => false
  | sheet :: rest =>
      let title := sheet_title sheet in
      if decide (title = Some sheet_name) then true
      else any_title sheet_name rest
  end.

(** [GoogleSheetsManager.check_sheet_exists] *)
Definition check_sheet_exists (sheet_name : string) : BookM bool :=
  try_http
    (spreadsheet ← open_spreadsheet;
     match spreadsheet with
     | Some spreadsheet =>
         if dict_truthy spreadsheet
         then mret (any_title sheet_name (get_sheets spreadsheet))
         else mret false
     | None => mret false
     end)
    (_ ← in_manager (print "Error checking if sheet exists: HttpError");
     mret false).

(** A [for] loop in the book. *)
Fixpoint forB {A} (f : A → BookM ()) (l : list A) : BookM () :=
  match l with
  | [] => mret ()
  | x :: l' => _ ← f x; forB f l'
  end.

(** The body of [for sheet in sheet_list] in [delete_other_sheets]. *)
Definition delete_unless_kept (sheet_to_keep_name : string) (sheet : Sheet)
  : BookM () :=
  let title := sheet_title sheet in
  if decide (title ≠ Some sheet_to_keep_name)
  then spreadsheets_batchUpdate (DeleteSheet (sheet_id sheet))
  else in_manager (print ("Keeping sheet '" +:+ sheet_to_keep_name +:+ "'.")).

(** [GoogleSheetsManager.delete_other_sheets]; its [manager] argument is
    the manager itself at the only call.  [open_spreadsheet] returns
    [None] after an [HttpError], and [None.get] raises. *)
Definition delete_other_sheets (sheet_to_keep_name : string) : BookM () :=
  spreadsheet ← open_spreadsheet;
  sheet_list ← match spreadsheet with
               | Some spreadsheet => mret (get_sheets spreadsheet)
               | None => raise_in_book AttributeError
               end;
  forB (delete_unless_kept sheet_to_keep_name) sheet_list.

(** [GoogleSheetsManager.create_new_sheet] *)
Definition create_new_sheet (sheet_name : string) : BookM () :=
  _ ← try_http
        (_ ← spreadsheets_batchUpdate (AddSheet sheet_name);
         in_manager (print ("Created a new sheet '" +:+ sheet_name +:+ "'.")))
        (in_manager (print "Error creating a new sheet: HttpError"));
  _ ← in_manager write_batch;
  in_manager (print ("Added team names to sheet '" +:+ sheet_name +:+ "'.")).

(** ** The run *)

(** The positions every report of [run_analysis] asks for. *)
Definition checked_positions : list string :=
  ["QB"; "WR"; "RB"; "TE"; "K"; "D/ST"].

(** The body of [for week in range(1, week + 1)] in [run_analysis]. *)
Definition write_week_sheet (lg : League) (week : nat) : BookM () :=
  let fantasy_league := {| league := lg; week := week |} in
  let sheet_name := "Week " +:+ pretty week in
  sheet_exists ← check_sheet_exists sheet_name;
  if negb sheet_exists then
    _ ← create_new_sheet sheet_name;
    _ ← in_manager (get_and_write_team_names fantasy_league sheet_name);
    _ ← in_manager (get_and_write_average_points_per_player fantasy_league
                      sheet_name 2 checked_positions ["BE"] "started");
    _ ← in_manager (get_and_write_average_points_per_player fantasy_league
                      sheet_name 9 checked_positions [] "overall");
    _ ← in_manager (get_and_write_power_ranking fantasy_league sheet_name 16);
    _ ← in_manager (get_and_write_over_under_projection fantasy_league
                      sheet_name 18);
    _ ← in_manager (get_and_write_percentage_of_points_per_position
                      fantasy_league sheet_name 20 checked_positions ["BE"]
                      "Started");
    in_manager (get_and_write_percentage_of_points_per_position
                  fantasy_league sheet_name 27 checked_positions []
                  "Overall")
  else mret ().

(** [run_analysis], from the point where the league ([lg], what
    [create_league] returned) and the manager exist: reading the
    credentials file and building the two clients is what comes before. *)
Definition run_analysis (lg : League) (week : nat) : BookM () :=
  let overall_sheet_name := "Summary" in
  let fantasy_league := {| league := lg; week := week |} in
  _ ← in_manager (print "we here");
  sheet_exists ← check_sheet_exists overall_sheet_name;
  _ ← (if negb sheet_exists then
         _ ← in_manager (print "YO");
         _ ← create_new_sheet overall_sheet_name;
         delete_other_sheets overall_sheet_name
       else mret ());
  _ ← in_manager (get_and_write_team_names fantasy_league overall_sheet_name);
  _ ← in_manager (get_and_write_average_points_per_player_all_weeks
                    fantasy_league week overall_sheet_name 2 checked_positions
                    ["BE"] "started");
  _ ← in_manager (get_and_write_average_points_per_player_all_weeks
                    fantasy_league week overall_sheet_name 9 checked_positions
                    [] "overall");
  _ ← in_manager (get_and_write_power_ranking_all_weeks fantasy_league week
                    overall_sheet_name 16);
  _ ← in_manager (get_and_write_over_under_projection_all_weeks fantasy_league
                    week overall_sheet_name 18);
  _ ← in_manager (get_and_write_percentage_of_points_per_position_all_weeks
                    fantasy_league week overall_sheet_name 20 checked_positions
                    ["BE"] "Started");
  _ ← in_manager (get_and_write_percentage_of_points_per_position_all_weeks
                    fantasy_league week overall_sheet_name 27 checked_positions
                    [] "Overall");
  forB (write_week_sheet lg) (seq 1 week).

(** * Specification-side definitions

    What the properties below compare the embedded code with. *)

(** The sides of a week's box scores, in the order the two loops of
    [get_teams_data] visit them. *)
Definition sides (bs : list Matchup) : list (team_type * Matchup) :=
  flat_map (λ m, [(home, m); (away, m)]) bs.

(** The snapshot made for one side. *)
Definition snapshot (fl : FantasyFootballLeague) (s : team_type * Matchup)
  : result TeamData :=
  i ← list_index (side_team s.1 s.2) (teams (league fl));
  Ok (new_TeamData (side_team s.1 s.2) (side_lineup s.1 s.2) (i + 1)
                   (side_projected s.1 s.2) (side_score s.1 s.2)).

(** The box scores [get_teams_data] reads. *)
Definition week_box_scores (fl : FantasyFootballLeague)
    (week_option : option nat) : list Matchup :=
  box_scores (league fl) (default (week fl) (truthy week_option)).

(** [v] is [x] rounded to 2 decimal places: the double of the whole
    number of hundredths nearest to [x], the even one of two that are as
    near; what is not finite, and a zero, stays as it is. *)
Definition rounded_to_hundredths (x v : double) : Prop :=
  match x with
  | S754_finite s _ _ =>
      ∃ k : Z,
        (0 ≤ k)%Z
        ∧ (Qabs (Qabs (Num.exact x) * 100 - inject_Z k) <= 1 # 2)%Q
        ∧ ((Qabs (Qabs (Num.exact x) * 100 - inject_Z k) == 1 # 2)%Q →
           Z.even k = true)
        ∧ v = Num.hundredths s k
  | _ => v = x
  end.

(** The sum of the numbers of a loop that starts from its first one. *)
Definition sum_from_first (l : list double) : double :=
  match l with
  | [] => Num.zero
  | v :: vs => foldl Num.add v vs
  end.

(** The lineup entries of position [pos] whose slot is not excluded. *)
Definition matching (pos : string) (slot_conditions : list string)
    (lu : list Player) : list Player :=
  filter (λ p, position p = pos ∧ slot_position p ∉ slot_conditions) lu.

(** The points on record for week [wk] among some entries; an entry
    whose stats lack the week, or lack [points], has none. *)
Definition available_points (wk : nat) (lu : list Player) : list double :=
  omap (player_points wk) lu.

(** The value the transform reports for a position: absent without a
    matching entry, else the available points over the number of matching
    entries, rounded. *)
Definition average_value (slot_conditions : list string) (wk : nat)
    (lu : list Player) (pos : string) : option double :=
  let m := matching pos slot_conditions lu in
  if (0 <? length m)%nat
  then Some (Num.round2 (Num.quot (Num.sum (available_points wk m))
                                  (Num.of_nat (length m))))
  else None.

Definition average_entries (slot_conditions : list string) (wk : nat)
    (lu : list Player) (positions : list string) : MetricTable :=
  omap (λ pos, pair pos <$> average_value slot_conditions wk lu pos) positions.

(** The entries of an optional table. *)
Definition table_entries (o : option MetricTable) : MetricTable := default [] o.

(** Appending entries to the averages table, one call of
    [add_average_score_per_player] each. *)
Definition add_averages (es : MetricTable) (t : TeamData) : TeamData :=
  foldl (λ t e, add_average_score_per_player e.1 e.2 t) t es.

(** The transform on one snapshot. *)
Definition with_averages (positions slot_conditions : list string) (wk : nat)
    (t : TeamData) : TeamData :=
  add_averages (average_entries slot_conditions wk (lineup t) positions) t.

(** The lineup entries whose slot is not excluded, and among some
    entries those of a position. *)
Definition included (slot_conditions : list string) (lu : list Player)
  : list Player :=
  filter (λ p, slot_position p ∉ slot_conditions) lu.

Definition of_position (pos : string) (lu : list Player) : list Player :=
  filter (λ p, position p = pos) lu.

(** The specification's formula: the points of the non-excluded entries of
    the position over the points of all non-excluded entries, times 100,
    rounded; 0 when the denominator is zero. *)
Definition percentage_value (slot_conditions : list string) (wk : nat)
    (lu : list Player) (pos : string) : double :=
  let num := Num.sum (available_points wk
                        (of_position pos (included slot_conditions lu))) in
  let den := Num.sum (available_points wk (included slot_conditions lu)) in
  if Num.is_zero den then Num.zero
  else Num.round2 (Num.mul (Num.quot num den) Num.hundred).

Definition percentage_entries (slot_conditions : list string) (wk : nat)
    (lu : list Player) (positions : list string) : MetricTable :=
  (λ pos, (pos, percentage_value slot_conditions wk lu pos)) <$> positions.

(** Appending entries to the percentage table, one call of
    [add_percentage_per_position] each. *)
Definition add_percentages (es : MetricTable) (t : TeamData) : TeamData :=
  foldl (λ t e, add_percentage_per_position e.1 e.2 t) t es.

(** The transform on one snapshot. *)
Definition with_percentages (positions slot_conditions : list string)
    (wk : nat) (t : TeamData) : TeamData :=
  add_percentages (percentage_entries slot_conditions wk (lineup t) positions) t.

(** The world with [batch_data] replaced. *)
Definition set_batch_data (bd : list (string * list PendingWrite)) (w : World)
  : World :=
  {| service := service w; batch_data := bd; requests := requests w;
     stdout := stdout w |}.

(** A [batch_data] whose only operation name is [function_name]. *)
Definition staged (function_name : string) (l : list PendingWrite)
  : list (string * list PendingWrite) :=
  match l with
  | [] => []
  | _ :: _ => [(function_name, l)]
  end.

(** The write [get_and_write_team_names] stages for a snapshot. *)
Definition team_name_write (sh : string) (t : TeamData) : PendingWrite :=
  {| sheet_name := sh;
     cell_range := {| cell_col := ord_A + index_column t; cell_row := 1 |};
     value := VStr (team_name (team t)) |}.

(** The entry of a bulk request for one cell. *)
Definition cell_write (sh : string) (col row : nat) (v : cell_value)
  : BatchValue :=
  {| range_sheet := sh; range_cell := {| cell_col := col; cell_row := row |};
     values := v |}.

(** [m], run in [w], returns [a] after staging the writes [ws] and doing
    nothing else: the next bulk request holds what it would have held
    before, and [ws]. *)
Definition stages {A} (m : M A) (w : World) (a : A) (ws : list BatchValue)
  : Prop :=
  ∃ w', m w = (Ok a, w')
        ∧ service w' = service w ∧ requests w' = requests w
        ∧ stdout w' = stdout w
        ∧ batch_values_of (batch_data w')
          ≡ₚ batch_values_of (batch_data w) ++ ws.

(** [m], run in [w], raises [e] without having sent anything. *)
Definition fails {A} (m : M A) (w : World) (e : exn) : Prop :=
  ∃ w', m w = (Raise e, w')
        ∧ service w' = service w ∧ requests w' = requests w.

(** The pending writes of one operation name. *)
Definition pending_of (function_name : string)
    (bd : list (string * list PendingWrite)) : list PendingWrite :=
  flat_map (λ item, if decide (item.1 = function_name) then item.2 else []) bd.

(** A write to stage: sheet, cell, value and operation name. *)
Record Staging : Type := {
  st_sheet : string;
  st_cell : CellRef;
  st_value : cell_value;
  st_tag : string
}.

Definition stage (x : Staging) : M () :=
  add_data_to_batch (st_sheet x) (st_cell x) (st_value x) (st_tag x).

Definition staged_write (x : Staging) : BatchValue :=
  {| range_sheet := st_sheet x; range_cell := st_cell x;
     values := st_value x |}.

(** The ranking the provider's list gives a team: that of the last entry
    naming it, none when no entry does. *)
Definition ranking_of (rankings : list (double * Team)) (tm : Team)
  : option double :=
  last (omap (λ r : double * Team, if decide (r.2 = tm) then Some r.1 else None)
             rankings).

Definition set_ranking (o : option double) (t : TeamData) : TeamData :=
  match o with
  | Some r => add_power_ranking r t
  | None => t
  end.

(** The league average of a row: the mean of its values, rounded. *)
Definition league_mean (vs : list double) : double :=
  Num.round2 (Num.quot (Num.sum vs) (Num.of_nat (length vs))).

(** The cells of a row: the values [vs] in the columns [cols] after ["A"]. *)
Definition team_cells (sh : string) (row : nat) (cols : list nat)
    (vs : list double)
  : list BatchValue :=
  zip_with (λ c v, cell_write sh (ord_A + c) row (VNum v)) cols vs.

(** A full row: its label in column A, the teams' cells, and [avg] in the
    column after as many columns as there are teams. *)
Definition metric_row (sh : string) (row : nat) (label : string)
    (cols : list nat) (vs : list double) (avg : double) : list BatchValue :=
  cell_write sh ord_A row (VStr label)
  :: team_cells sh row cols vs
  ++ [cell_write sh (ord_A + (length cols + 1)) row (VNum avg)].

(** The difference between a snapshot's score and its projection,
    rounded. *)
Definition projection_delta (t : TeamData) : double :=
  Num.round2 (Num.sub (score t) (projected t)).

(** All columns of a week can be addressed by [chr]. *)
Definition addressable (teams_data : list TeamData) : Prop :=
  (N.of_nat (length teams_data) < 1114046)%N
  ∧ Forall (λ t, (N.of_nat (index_column t) <= 1114046)%N) teams_data.

(** [m], run in [w], ends with one bulk request that holds what was
    pending in [w] and the writes [ws]; the manager is left empty, and
    the result is the sink's answer. *)
Definition sends (m : M ()) (w : World) (ws : list BatchValue) : Prop :=
  batch_data (m w).2 = []
  ∧ ∃ bulk, requests (m w).2 = requests w ++ [bulk]
      ∧ bulk ≡ₚ batch_values_of (batch_data w) ++ ws
      ∧ match service w (requests w) bulk with
        | SinkOk | SinkHttpError => (m w).1 = Ok ()
        | SinkRaises e => (m w).1 = Raise e
        end.

(** The value a row reads from a snapshot's table: component [1] of the
    entry at the row's [position_index], passed through [post]. *)
Definition entry_value (get : TeamData → option MetricTable)
    (post : double → double) (position_index : nat) (t : TeamData)
  : result double :=
  tbl ← as_list (get t); e ← getitem tbl position_index; Ok (post e.2).

(** The values of every row, read by index from every snapshot's table. *)
Definition table_rows (get : TeamData → option MetricTable)
    (post : double → double) (teams_data : list TeamData)
    (position_index : nat) (positions : list string)
  : result (list (string * list double)) :=
  forM (λ kp : nat * string,
          vs ← forM (entry_value get post kp.1) teams_data; Ok (kp.2, vs))
       (enumerate position_index positions).

(** Consecutive rows, one per position, from row [row] on. *)
Fixpoint metric_rows (sh : string) (label : string → string)
    (cols : list nat) (row : nat) (rows : list (string * list double))
  : list BatchValue :=
  match rows with
  | [] => []
  | (pos, vs) :: rest =>
      metric_row sh row (label pos) cols vs (league_mean vs)
      ++ metric_rows sh label cols (S row) rest
  end.

(** The average of a position for a lineup: the points on record of its
    matching entries over their number, rounded. *)
Definition lineup_average (slot_conditions : list string) (wk : nat)
    (lu : list Player) (pos : string) : double :=
  Num.round2
    (Num.quot (Num.sum (available_points wk (matching pos slot_conditions lu)))
              (Num.of_nat (length (matching pos slot_conditions lu)))).

Definition average_label (started_or_not pos : string) : string :=
  "Pts/" +:+ pos +:+ " " +:+ started_or_not.

Definition percentage_label (started_or_not pos : string) : string :=
  "% points/" +:+ pos +:+ " " +:+ started_or_not.

(** The header row [get_and_write_team_names] sends. *)
Definition team_names_row (sh : string) (teams_data : list TeamData)
  : list BatchValue :=
  ((λ t, cell_write sh (ord_A + index_column t) 1 (VStr (team_name (team t))))
     <$> teams_data)
  ++ [cell_write sh (ord_A + (length teams_data + 1)) 1 (VStr "League average")].

(** [average_overall_team_data], once assigned, is [overall_teams_data]
    divided by [weeks]. *)
Definition totals_in_sync (weeks : nat) (st : Totals) : Prop :=
  match average_overall_team_data st with
  | None => True
  | Some avg =>
      overall_teams_data st ≠ []
      ∧ average_tables weeks (overall_teams_data st) = Ok avg
  end.

(** A table, when present, has [n] entries. *)
Definition table_of_length (n : nat) (o : option MetricTable) : Prop :=
  match o with
  | None => True
  | Some tbl => length tbl = n
  end.

(** [m] prints nothing. *)
Definition silent {A} (m : M A) : Prop := ∀ w, stdout (m w).2 = stdout w.

(** The running totals of the scalar week loop after the weeks [wks],
    given each week's values in column order. *)
Definition scalar_totals (vals : nat → list double) (wks : list nat)
    (init : list double) : list double :=
  foldl (λ acc wk, match acc with
                   | [] => vals wk
                   | _ :: _ => zip_with Num.add acc (vals wk)
                   end) init wks.

(** The values of the [i]-th column over the weeks [1..weeks]. *)
Definition week_column (vals : nat → list double) (weeks i : nat)
  : list double :=
  (λ wk, default Num.zero (vals wk !! i)) <$> seq 1 weeks.

(** Their mean over the weeks, rounded: the first week's value, the
    others added to it week by week, over the number of weeks. *)
Definition multi_week_mean (vals : nat → list double) (weeks i : nat)
  : double :=
  Num.round2 (Num.quot (sum_from_first (week_column vals weeks i))
                       (Num.of_nat weeks)).

(** [m], run in [w], raises [e] without having sent anything, and leaves
    the writes [ws] staged besides what was pending. *)
Definition aborts {A} (m : M A) (w : World) (e : exn) (ws : list BatchValue)
  : Prop :=
  ∃ w', m w = (Raise e, w')
        ∧ requests w' = requests w
        ∧ batch_values_of (batch_data w')
          ≡ₚ batch_values_of (batch_data w) ++ ws.

(** The running tables of the table week loop after the weeks [wks],
    given each week's tables in column order. *)
Definition table_totals (tabs : nat → list MetricTable) (wks : list nat)
    (init : list MetricTable) : list MetricTable :=
  foldl (λ acc wk, match acc with
                   | [] => tabs wk
                   | _ :: _ => zip_with sum_tables acc (tabs wk)
                   end) init wks.

(** Component [1] of entry [k] of table [i]; 0 where there is none. *)
Definition entry_of (tbls : list MetricTable) (i k : nat) : double :=
  default Num.zero (tbl ← tbls !! i; e ← tbl !! k; Some e.2).

(** Every value of every table divided by [weeks]. *)
Definition scaled (weeks : nat) (tbls : list MetricTable) : list MetricTable :=
  (λ tbl : MetricTable,
     (λ e : string * double, (e.1, Num.quot e.2 (Num.of_nat weeks))) <$> tbl)
    <$> tbls.

(** [n] tables of [p] entries each. *)
Definition tables_of_shape (n p : nat) (tbls : list MetricTable) : Prop :=
  length tbls = n ∧ Forall (λ tbl : MetricTable, length tbl = p) tbls.

(** The number [f] gives in week [wk] to the [i]-th snapshot of the week
    in column order; 0 when the week has no such snapshot. *)
Definition weekly (f : nat → TeamData → double) (tds : nat → list TeamData)
    (i wk : nat) : double :=
  default Num.zero (f wk <$> sorted_by_column (tds wk) !! i).

(** Its mean over the weeks [1..weeks], not rounded: the first week's
    number, the others added to it week by week, over the number of
    weeks. *)
Definition mean_over_weeks (f : nat → TeamData → double)
    (tds : nat → list TeamData) (weeks i : nat) : double :=
  Num.quot (sum_from_first (weekly f tds i <$> seq 1 weeks))
           (Num.of_nat weeks).

(** Consecutive rows, one per position, each with its cells and its
    league average given. *)
Fixpoint averaged_rows (sh : string) (label : string → string)
    (cols : list nat) (row : nat)
    (rows : list (string * (list double * double)))
  : list BatchValue :=
  match rows with
  | [] => []
  | (pos, (vs, avg)) :: rest =>
      metric_row sh row (label pos) cols vs avg
      ++ averaged_rows sh label cols (S row) rest
  end.

(** [m] changes the structure of the spreadsheet only by calls that
    satisfy [P]. *)
Definition calls_only {A} (P : ApiCall → Prop) (m : BookM A) : Prop :=
  ∀ b c, c ∈ api_calls (m b).2 → c ∈ api_calls b ∨ P c.

(** [m] never returns: it raises whatever the state. *)
Definition never_done {A} (m : BookM A) : Prop :=
  ∀ b, ∃ e, (m b).1 = Failed e.

(** The structural calls of a run on the summary sheet only. *)
Definition summary_call (c : ApiCall) : Prop :=
  c = GetSpreadsheet ∨ c = BatchUpdate (AddSheet "Summary")
  ∨ ∃ sheetId, c = BatchUpdate (DeleteSheet sheetId).

(** The pending writes of a manager, across the operation names: those
    of the first name in the order they were staged, then those of the
    second, and so on. *)
Definition pending_writes (bd : list (string * list PendingWrite))
  : list PendingWrite :=
  mjoin (bd.*2).

(** An entry of a bulk request carries a pending write: it is addressed
    to the write's cell of the write's sheet and holds its value. *)
Definition carries (e : PendingWrite) (b : BatchValue) : Prop :=
  range_sheet b = sheet_name e
  ∧ range_cell b = cell_range e
  ∧ values b = value e.

(** ** Sample leagues *)

Module Examples.

(** The double of an integer numeral, and of a decimal numeral of [k]
    hundredths. *)
Definition whole (z : Z) : double := Num.of_Z z.
Definition cents (k : Z) : double := Num.quot (Num.of_Z k) Num.hundred.

Definition scoring_player (pos slot : string) (wk : nat) (pts : double)
  : Player :=
  {| position := pos; slot_position := slot;
     stats := {[ wk := {[ "points" := pts ]} ]} |}.

(** A player with no statistics on record. *)
Definition idle_player (pos slot : string) : Player :=
  {| position := pos; slot_position := slot; stats := ∅ |}.

Definition team_A : Team := {| team_id := 1; team_name := "A" |}.
Definition team_B : Team := {| team_id := 2; team_name := "B" |}.
Definition team_C : Team := {| team_id := 3; team_name := "C" |}.
Definition team_D : Team := {| team_id := 4; team_name := "D" |}.

(** Team A fields a receiver in week 1 only. *)
Definition lineup_A (wk : nat) : list Player :=
  if (wk =? 1)%nat
  then [scoring_player "QB" "QB" wk (whole 20);
        scoring_player "WR" "WR" wk (whole 8)]
  else [scoring_player "QB" "QB" wk (whole 30)].

(** Team B keeps a second quarterback on the bench, who never plays. *)
Definition lineup_B (wk : nat) : list Player :=
  [scoring_player "QB" "QB" wk (whole 10);
   scoring_player "WR" "WR" wk (whole 6);
   idle_player "QB" "BE"].

Definition matchup_AB (wk : nat) : Matchup :=
  {| home_team := team_A; home_lineup := lineup_A wk;
     home_projected := whole 25; home_score := whole 28;
     away_team := team_B; away_lineup := lineup_B wk;
     away_projected := whole 18; away_score := whole 16 |}.

Definition league_AB : League :=
  {| teams := [team_A; team_B];
     box_scores := λ wk, [matchup_AB wk];
     power_rankings := λ _, [(whole 10, team_A); (whole 12, team_B)] |}.

Definition fl_AB : FantasyFootballLeague := {| league := league_AB; week := 1 |}.

(** A league whose box scores name a team missing from [league.teams]. *)
Definition league_A_only : League :=
  {| teams := [team_A];
     box_scores := λ wk, [matchup_AB wk];
     power_rankings := λ _, [] |}.

Definition fl_A_only : FantasyFootballLeague :=
  {| league := league_A_only; week := 1 |}.

Definition bare_matchup (h a : Team) : Matchup :=
  {| home_team := h; home_lineup := [];
     home_projected := whole 0; home_score := whole 0;
     away_team := a; away_lineup := [];
     away_projected := whole 0; away_score := whole 0 |}.

(** Four teams ranked 10.00, 10.00, 10.00 and 10.01. *)
Definition league_ABCD : League :=
  {| teams := [team_A; team_B; team_C; team_D];
     box_scores := λ _, [bare_matchup team_A team_B; bare_matchup team_C team_D];
     power_rankings := λ _,
       [(whole 10, team_A); (whole 10, team_B); (whole 10, team_C);
        (cents 1001, team_D)] |}.

Definition fl_ABCD : FantasyFootballLeague :=
  {| league := league_ABCD; week := 1 |}.

(** The two-team league seen from week 2, when team A has no receiver. *)
Definition fl_AB_week2 : FantasyFootballLeague :=
  {| league := league_AB; week := 2 |}.

(** The four-team league in weeks when only teams C and D play: their
    quarterbacks score 20 and 10 points, and they score 13 and 8 against
    projections of 10.  The provider has no rankings. *)
Definition lineup_C (wk : nat) : list Player :=
  [scoring_player "QB" "QB" wk (whole 20)].

Definition lineup_D (wk : nat) : list Player :=
  [scoring_player "QB" "QB" wk (whole 10)].

Definition matchup_CD (wk : nat) : Matchup :=
  {| home_team := team_C; home_lineup := lineup_C wk;
     home_projected := whole 10; home_score := whole 13;
     away_team := team_D; away_lineup := lineup_D wk;
     away_projected := whole 10; away_score := whole 8 |}.

Definition league_CD : League :=
  {| teams := [team_A; team_B; team_C; team_D];
     box_scores := λ wk, [matchup_CD wk];
     power_rankings := λ _, [] |}.

Definition fl_CD : FantasyFootballLeague := {| league := league_CD; week := 1 |}.

(** A league of two teams with decimal numbers.  Team E scores 1.74 and
    1.46 points at quarterback and receiver and, at kicker, 7.51 points in
    week 1 and 7.52 from week 2 on; it is ranked 25.35 in week 1 and 30.10
    from week 2 on.  Team F fields two quarterbacks (19.1 and 22.81
    points) and two receivers (5.0 and 5.05).  Against projections of
    10.0, team E scores 10.01 in week 1 and 10.02 from week 2 on, team F
    10.02. *)
Definition team_E : Team := {| team_id := 5; team_name := "E" |}.
Definition team_F : Team := {| team_id := 6; team_name := "F" |}.

Definition lineup_E (wk : nat) : list Player :=
  [scoring_player "QB" "QB" wk (cents 174);
   scoring_player "WR" "WR" wk (cents 146);
   scoring_player "K" "K" wk (if (wk =? 1)%nat then cents 751 else cents 752)].

Definition lineup_F (wk : nat) : list Player :=
  [scoring_player "QB" "QB" wk (cents 1910);
   scoring_player "QB" "OP" wk (cents 2281);
   scoring_player "WR" "WR" wk (cents 500);
   scoring_player "WR" "WR" wk (cents 505);
   scoring_player "K" "K" wk (cents 300)].

Definition matchup_EF (wk : nat) : Matchup :=
  {| home_team := team_E; home_lineup := lineup_E wk;
     home_projected := cents 1000;
     home_score := if (wk =? 1)%nat then cents 1001 else cents 1002;
     away_team := team_F; away_lineup := lineup_F wk;
     away_projected := cents 1000; away_score := cents 1002 |}.

Definition league_EF : League :=
  {| teams := [team_E; team_F];
     box_scores := λ wk, [matchup_EF wk];
     power_rankings := λ wk,
       [(if (wk =? 1)%nat then cents 2535 else cents 3010, team_E);
        (cents 1100, team_F)] |}.

Definition fl_EF : FantasyFootballLeague := {| league := league_EF; week := 1 |}.

(** A manager with nothing staged, whose sink accepts every request. *)
Definition fresh_world : World :=
  {| service := λ _ _, SinkOk; batch_data := []; requests := [];
     stdout := [] |}.

(** The same with a sink that answers every request with an
    [HttpError]. *)
Definition failing_world : World :=
  {| service := λ _ _, SinkHttpError; batch_data := []; requests := [];
     stdout := [] |}.

End Examples.

(** * Properties *)

(** ** Loops *)

Lemma bind_ok {A B} (m : result A) (f : A → result B) (b : B) :
  m ≫= f = Ok b ↔ ∃ a, m = Ok a ∧ f a = Ok b.
Proof.
  destruct m as [a|e]; simpl.
  - split; [eauto | intros (a' & [= <-] & H); exact H].
  - split; [discriminate | intros (a' & [=] & _)].
Qed.

Lemma bind_raise {A B} (m : result A) (f : A → result B) (e : exn) :
  m ≫= f = Raise e ↔ m = Raise e ∨ ∃ a, m = Ok a ∧ f a = Raise e.
Proof.
  destruct m as [a|e']; simpl.
  - split; [eauto | intros [[=] | (a' & [= <-] & H)]; exact H].
  - split; [intros [= ->]; by left | intros [[= ->] | (a' & [=] & _)]; reflexivity].
Qed.

Lemma forM_ok {A B} (f : A → result B) (l : list A) (r : list B) :
  forM f l = Ok r ↔ Forall2 (λ x y, f x = Ok y) l r.
Proof.
  revert r. induction l as [|x l IH]; intros r; simpl.
  - split; [intros [= <-]; constructor | inversion 1; reflexivity].
  - rewrite bind_ok. split.
    + intros (y & Hy & H). apply bind_ok in H as (ys & Hys & [= <-]).
      constructor; [exact Hy | by apply IH].
    + inversion 1 as [|? y ? ys Hy Hys]; subst. exists y. split; [exact Hy|].
      apply bind_ok. exists ys. split; [by apply IH | reflexivity].
Qed.

Lemma forM_raise {A B} (f : A → result B) (l : list A) (e : exn) :
  forM f l = Raise e → ∃ x, x ∈ l ∧ f x = Raise e.
Proof.
  induction l as [|x l IH]; simpl; [discriminate|].
  intros H. apply bind_raise in H as [H | (y & Hy & H)].
  - exists x. split; [left | exact H].
  - apply bind_raise in H as [H | (ys & _ & [=])].
    destruct (IH H) as (x' & Hin & Hx'). exists x'. split; [by right | exact Hx'].
Qed.

Lemma forM_total {A B} (f : A → result B) (l : list A) :
  (∀ x, x ∈ l → ∃ y, f x = Ok y) → ∃ r, forM f l = Ok r.
Proof.
  induction l as [|x l IH]; intros H; simpl; [eauto|].
  destruct (H x) as [y Hy]; [left|]. rewrite Hy. simpl.
  destruct IH as [r Hr]; [intros x' Hx'; apply H; by right|].
  rewrite Hr. simpl. eauto.
Qed.

Lemma forM_lookup {A B} (f : A → result B) (l : list A) (r : list B) i x :
  forM f l = Ok r → l !! i = Some x → ∃ y, r !! i = Some y ∧ f x = Ok y.
Proof.
  rewrite forM_ok. intros H Hx.
  destruct (Forall2_lookup_l _ _ _ _ _ H Hx) as (y & Hy & Hf). eauto.
Qed.

Lemma forM_length {A B} (f : A → result B) (l : list A) (r : list B) :
  forM f l = Ok r → length r = length l.
Proof. rewrite forM_ok. intros H. symmetry. by eapply Forall2_length. Qed.

(** ** Numbers *)

Lemma div_int_pos (x : double) (n : nat) :
  (0 < n)%nat → Num.div_int x n = Ok (Num.quot x (Num.of_nat n)).
Proof. intros H. destruct n; [lia | reflexivity]. Qed.

Lemma div_int_ok (x q : double) (n : nat) :
  Num.div_int x n = Ok q → (0 < n)%nat ∧ q = Num.quot x (Num.of_nat n).
Proof.
  destruct n; [discriminate|]. intros [= <-]. split; [lia | reflexivity].
Qed.

Lemma round2_zero : Num.round2 Num.zero = Num.zero.
Proof. reflexivity. Qed.

(** The doubles of some decimal numerals and the results of some
    operations, mantissa and exponent as [float.hex] shows them in
    Python: [0.1 + 0.2] is [0.30000000000000004], [sum([0.1, 0.2, -0.3])]
    is [2 ** -54], [(19.1 + 22.81) / 2] is just below 20.955 and rounds
    to 20.95, [round(2.675, 2)] is 2.67 and [round(0.125, 2)] is 0.12. *)
Lemma decimal_numerals :
  Examples.cents 5437 = S754_finite false 7651897241879183 (-47)
  ∧ Examples.cents 2095 = S754_finite false 5896900762088243 (-48)
  ∧ Examples.cents 1 = S754_finite false 5764607523034235 (-59)
  ∧ Examples.whole 5 = S754_finite false 5629499534213120 (-50)
  ∧ Num.add (Examples.cents 10) (Examples.cents 20)
    = S754_finite false 5404319552844596 (-54)
  ∧ Num.sum [Examples.cents 10; Examples.cents 20; Examples.cents (-30)]
    = S754_finite false 4503599627370496 (-106)
  ∧ Num.quot (Num.add (Examples.cents 1910) (Examples.cents 2281))
             (Num.of_nat 2)
    = S754_finite false 5898308136971796 (-48)
  ∧ Num.round2 (Num.quot (Num.add (Examples.cents 1910) (Examples.cents 2281))
                         (Num.of_nat 2))
    = Examples.cents 2095
  ∧ Num.round2 (Num.quot (Num.of_Z 2675) (Num.of_Z 1000)) = Examples.cents 267
  ∧ Num.round2 (Num.quot (Num.of_Z 125) (Num.of_Z 1000)) = Examples.cents 12.
Proof. repeat split; vm_compute; reflexivity. Qed.

(** ** ScoreRecord extraction *)

Lemma index_from_ok {A} `{EqDecision A} (x : A) (l : list A) (k i : nat) :
  index_from x l k = Ok i →
  (k ≤ i)%nat ∧ l !! (i - k)%nat = Some x
  ∧ ∀ j, (j < i - k)%nat → l !! j ≠ Some x.
Proof.
  revert k. induction l as [|y l IH]; intros k; simpl; [discriminate|].
  destruct (decide (y = x)) as [->|Hne].
  - intros [= <-]. rewrite Nat.sub_diag. split; [lia|]. split; [done|]. lia.
  - intros H. apply IH in H as (Hle & Hi & Hmin).
    split; [lia|].
    replace (i - k)%nat with (S (i - S k)) by lia. split; [exact Hi|].
    intros [|j] Hj; simpl; [congruence | apply Hmin; lia].
Qed.

Lemma index_from_raise {A} `{EqDecision A} (x : A) (l : list A) (k : nat) e :
  index_from x l k = Raise e → e = ValueError ∧ x ∉ l.
Proof.
  revert k. induction l as [|y l IH]; intros k; simpl.
  - intros [= <-]. split; [done | apply not_elem_of_nil].
  - destruct (decide (y = x)) as [->|Hne]; [discriminate|].
    intros H. apply IH in H as [-> Hnin]. split; [done|].
    rewrite elem_of_cons. intros [->|Hin]; [done | by apply Hnin].
Qed.

(** [l.index(x)] returns the first position of [x] and raises
    [ValueError] exactly when [x] is not in [l]. *)
Lemma list_index_ok {A} `{EqDecision A} (x : A) (l : list A) (i : nat) :
  list_index x l = Ok i → l !! i = Some x ∧ ∀ j, (j < i)%nat → l !! j ≠ Some x.
Proof.
  intros H. apply index_from_ok in H as (_ & Hi & Hmin).
  rewrite Nat.sub_0_r in Hi, Hmin. done.
Qed.

Lemma list_index_elem {A} `{EqDecision A} (x : A) (l : list A) :
  x ∈ l → ∃ i, list_index x l = Ok i.
Proof.
  intros Hin. destruct (list_index x l) as [i|e] eqn:E; [eauto|].
  apply index_from_raise in E as [_ Hnin]. done.
Qed.

Lemma extract_matchup_snapshots fl (acc : list TeamData) (m : Matchup) :
  extract_matchup fl acc m
  = (y1 ← snapshot fl (home, m); y2 ← snapshot fl (away, m);
     Ok (acc ++ [y1; y2])).
Proof.
  unfold extract_matchup, extract_side, snapshot. simpl.
  destruct (list_index (home_team m) _) as [i|e]; simpl; [|done].
  destruct (list_index (away_team m) _) as [j|e]; simpl; [|done].
  by rewrite <- app_assoc.
Qed.

Lemma extract_matchups_forM fl (acc : list TeamData) (bs : list Matchup) :
  foldM (extract_matchup fl) acc bs
  = (rest ← forM (snapshot fl) (sides bs); Ok (acc ++ rest)).
Proof.
  revert acc. induction bs as [|m bs IH]; intros acc.
  - simpl. by rewrite app_nil_r.
  - cbn [foldM]. rewrite extract_matchup_snapshots.
    change (sides (m :: bs)) with ((home, m) :: (away, m) :: sides bs).
    cbn [forM].
    destruct (snapshot fl (home, m)) as [y1|e]; [|done].
    destruct (snapshot fl (away, m)) as [y2|e]; [|done].
    cbn [mbind result_bind]. rewrite IH.
    destruct (forM (snapshot fl) (sides bs)) as [rest|e]; [|done].
    cbn [mbind result_bind]. by rewrite <- app_assoc.
Qed.

(** [get_teams_data] makes one snapshot per side, in order. *)
Lemma get_teams_data_forM fl week_option :
  get_teams_data fl week_option
  = forM (snapshot fl) (sides (week_box_scores fl week_option)).
Proof.
  unfold get_teams_data, week_box_scores.
  replace (match truthy week_option with
           | Some w => box_scores (league fl) w
           | None => box_scores (league fl) (week fl)
           end)
    with (box_scores (league fl) (default (week fl) (truthy week_option)))
    by (by destruct (truthy week_option)).
  rewrite extract_matchups_forM.
  by destruct (forM _ _).
Qed.

Lemma snapshot_ok fl s t :
  snapshot fl s = Ok t →
  ∃ i, list_index (side_team s.1 s.2) (teams (league fl)) = Ok i
       ∧ t = new_TeamData (side_team s.1 s.2) (side_lineup s.1 s.2) (i + 1)
                          (side_projected s.1 s.2) (side_score s.1 s.2).
Proof.
  unfold snapshot. intros H. apply bind_ok in H as (i & Hi & [= <-]). eauto.
Qed.

Lemma snapshot_raise fl s e :
  snapshot fl s = Raise e →
  e = ValueError ∧ side_team s.1 s.2 ∉ teams (league fl).
Proof.
  unfold snapshot. intros H. apply bind_raise in H as [H | (i & _ & [=])].
  by apply index_from_raise in H.
Qed.

(** A fresh snapshot carries no derived metric. *)
Lemma get_teams_data_fresh fl week_option teams_data t :
  get_teams_data fl week_option = Ok teams_data → t ∈ teams_data →
  additional_data t = no_additional_data.
Proof.
  rewrite get_teams_data_forM, forM_ok. intros H Hin.
  apply list_elem_of_lookup in Hin as [i Hi].
  destruct (Forall2_lookup_r _ _ _ _ _ H Hi) as (s & _ & Hs).
  apply snapshot_ok in Hs as (j & _ & ->). reflexivity.
Qed.

(** C8.  For every matchup side extracted by [get_teams_data], the
    snapshot's [index_column] is [league.teams.index(team) + 1], one more
    than the first position of the side's team in the league's team list
    (so it is 1-based); snapshots come one per side, in order.  The
    extraction succeeds when every side's team is in the list, and raises
    [ValueError], assigning no column, as soon as one is not. *)
Theorem get_teams_data_column_index fl week_option :
  let sds := sides (week_box_scores fl week_option) in
  (∀ teams_data, get_teams_data fl week_option = Ok teams_data →
     length teams_data = length sds
     ∧ ∀ k s t, sds !! k = Some s → teams_data !! k = Some t →
         team t = side_team s.1 s.2
         ∧ ∃ i, list_index (team t) (teams (league fl)) = Ok i
                ∧ index_column t = (i + 1)%nat
                ∧ teams (league fl) !! i = Some (team t)
                ∧ ∀ j, (j < i)%nat → teams (league fl) !! j ≠ Some (team t))
  ∧ ((∀ s, s ∈ sds → side_team s.1 s.2 ∈ teams (league fl)) →
     ∃ teams_data, get_teams_data fl week_option = Ok teams_data)
  ∧ ((∃ s, s ∈ sds ∧ side_team s.1 s.2 ∉ teams (league fl)) →
     get_teams_data fl week_option = Raise ValueError).
Proof.
  intros sds. rewrite get_teams_data_forM. fold sds. split; [|split].
  - intros teams_data H. split; [by eapply forM_length|].
    intros k s t Hs Ht.
    destruct (forM_lookup _ _ _ _ _ H Hs) as (t' & Ht' & Hsnap).
    rewrite Ht in Ht'. injection Ht' as <-.
    apply snapshot_ok in Hsnap as (i & Hi & ->). simpl.
    split; [done|]. exists i. split; [done|]. split; [done|].
    by apply list_index_ok.
  - intros Hall. apply forM_total. intros s Hs.
    destruct (list_index_elem _ _ (Hall s Hs)) as [i Hi].
    unfold snapshot. rewrite Hi. simpl. eauto.
  - intros (s & Hs & Hnin).
    destruct (forM (snapshot fl) sds) as [teams_data|e] eqn:E.
    + apply list_elem_of_lookup in Hs as [k Hk].
      destruct (forM_lookup _ _ _ _ _ E Hk) as (t & _ & Hsnap).
      apply snapshot_ok in Hsnap as (i & Hi & _).
      apply list_index_ok in Hi as [Hi _].
      exfalso. apply Hnin. apply list_elem_of_lookup. eauto.
    + apply forM_raise in E as (s' & _ & Hs').
      apply snapshot_raise in Hs' as [-> _]. reflexivity.
Qed.

(** ** Rounding to hundredths *)

(** The nearest integer is within a half. *)
Lemma round_half_even_near (x : Q) :
  (Qabs (inject_Z (Num.round_half_even x) - x) <= 1 # 2)%Q.
Proof.
  unfold Num.round_half_even.
  pose proof (Qfloor_le x) as Hlo. pose proof (Qlt_floor x) as Hhi.
  set (f := Qfloor x) in *.
  assert (Hf1 : (inject_Z (f + 1) == inject_Z f + 1)%Q)
    by (rewrite inject_Z_plus; reflexivity).
  rewrite Hf1 in Hhi.
  apply Qabs_Qle_condition.
  destruct (x - inject_Z f ?= 1 # 2)%Q eqn:E.
  - apply Qeq_alt in E.
    destruct (Z.even f); [|rewrite Hf1]; split; lra.
  - apply Qlt_alt in E. split; lra.
  - apply Qgt_alt in E. rewrite Hf1. split; lra.
Qed.

Lemma round_half_even_nonneg (x : Q) :
  (0 <= x)%Q → (0 ≤ Num.round_half_even x)%Z.
Proof.
  intros Hx. unfold Num.round_half_even.
  assert (Hf : (0 ≤ Qfloor x)%Z).
  { change 0%Z with (Qfloor 0). by apply Qfloor_resp_le. }
  destruct (x - inject_Z (Qfloor x) ?= 1 # 2)%Q; [|lia..].
  destruct (Z.even (Qfloor x)); lia.
Qed.

(** Of two integers that are as near, the even one is taken. *)
Lemma round_half_even_tie (x : Q) :
  (Qabs (x - inject_Z (Num.round_half_even x)) == 1 # 2)%Q →
  Z.even (Num.round_half_even x) = true.
Proof.
  unfold Num.round_half_even.
  pose proof (Qfloor_le x) as Hlo. pose proof (Qlt_floor x) as Hhi.
  set (f := Qfloor x) in *.
  assert (Hf1 : (inject_Z (f + 1) == inject_Z f + 1)%Q)
    by (rewrite inject_Z_plus; reflexivity).
  rewrite Hf1 in Hhi.
  destruct (x - inject_Z f ?= 1 # 2)%Q eqn:E.
  - intros _. destruct (Z.even f) eqn:Ef; [done|].
    rewrite Z.even_add, Ef. reflexivity.
  - apply Qlt_alt in E. intros H. exfalso.
    rewrite Qabs_pos in H by lra. lra.
  - apply Qgt_alt in E. intros H. exfalso.
    rewrite Hf1, Qabs_neg in H by lra. lra.
Qed.

Lemma exact_abs (s : bool) (m : positive) (e : Z) :
  (0 <= Num.exact (S754_finite false m e))%Q
  ∧ (Qabs (Num.exact (S754_finite s m e))
     == Num.exact (S754_finite false m e))%Q.
Proof.
  unfold Num.exact.
  set (q := match e with
            | Zneg p => Qmake (Zpos m) (2 ^ p)%positive
            | _ => inject_Z (Z.pos m * 2 ^ e)
            end).
  assert (Hq : (0 <= q)%Q).
  { subst q. destruct e as [|p|p].
    - unfold Qle. simpl. lia.
    - change 0%Q with (inject_Z 0). rewrite <- Zle_Qle.
      apply Z.mul_nonneg_nonneg; [lia|]. apply Z.pow_nonneg. lia.
    - unfold Qle. simpl. lia. }
  split; [exact Hq|].
  destruct s; [|by apply Qabs_pos].
  rewrite Qabs_opp. by apply Qabs_pos.
Qed.

(** [round(x, 2)] rounds to 2 decimal places. *)
Lemma round2_rounded (x : double) : rounded_to_hundredths x (Num.round2 x).
Proof.
  destruct x as [s|s| |s m e]; try reflexivity.
  cbn [rounded_to_hundredths Num.round2].
  destruct (exact_abs s m e) as [Hpos Habs].
  set (a := Num.exact (S754_finite false m e)) in *.
  exists (Num.round_half_even (a * 100)).
  split; [apply round_half_even_nonneg; lra|].
  split; [|split; [|reflexivity]].
  - rewrite Habs, Qabs_Qminus. apply round_half_even_near.
  - rewrite Habs. apply round_half_even_tie.
Qed.

(** ** Average points per position *)

Lemma qualifies_spec pos sc p :
  qualifies pos sc p = true ↔ position p = pos ∧ slot_position p ∉ sc.
Proof.
  unfold qualifies. rewrite andb_true_iff, negb_true_iff.
  rewrite bool_decide_eq_true, bool_decide_eq_false. reflexivity.
Qed.

Lemma count_player_fold pos sc wk (lu : list Player) (c : nat) (s : double) :
  foldl (count_player pos sc wk) (c, s) lu
  = ((c + length (matching pos sc lu))%nat,
     foldl Num.add s (available_points wk (matching pos sc lu))).
Proof.
  revert c s. induction lu as [|p lu IH]; intros c s; simpl.
  - by rewrite Nat.add_0_r.
  - unfold matching. rewrite filter_cons. fold (matching pos sc lu).
    destruct (decide (position p = pos ∧ slot_position p ∉ sc)) as [Hq|Hq].
    + apply qualifies_spec in Hq. rewrite Hq. simpl.
      destruct (player_points wk p) as [x|]; rewrite IH; f_equal; lia.
    + assert (qualifies pos sc p = false) as ->.
      { apply not_true_is_false. by rewrite qualifies_spec. }
      apply IH.
Qed.

Lemma average_for_position_spec sc wk t pos :
  average_for_position sc wk t pos
  = Ok (match average_value sc wk (lineup t) pos with
        | Some v => add_average_score_per_player pos v t
        | None => t
        end).
Proof.
  unfold average_for_position, average_value.
  rewrite count_player_fold. simpl.
  destruct (0 <? length (matching pos sc (lineup t)))%nat eqn:E; [|done].
  apply Nat.ltb_lt in E. by rewrite div_int_pos.
Qed.

Lemma add_averages_fields es t :
  team (add_averages es t) = team t
  ∧ lineup (add_averages es t) = lineup t
  ∧ index_column (add_averages es t) = index_column t
  ∧ table_entries (get_average_score_per_player (add_averages es t))
    = table_entries (get_average_score_per_player t) ++ es
  ∧ (get_average_score_per_player (add_averages es t) = None
     ↔ get_average_score_per_player t = None ∧ es = []).
Proof.
  revert t. induction es as [|e es IH]; intros t; simpl.
  - rewrite app_nil_r. intuition.
  - destruct (IH (add_average_score_per_player e.1 e.2 t))
      as (-> & -> & -> & -> & Hnone).
    simpl. do 3 (split; [done|]). split; [|split].
    + unfold table_entries, get_average_score_per_player. simpl.
      destruct e, (average_per_overall (additional_data t)); simpl;
        [by rewrite <- app_assoc | done].
    + intros H. apply Hnone in H as [H' _]. discriminate H'.
    + intros [_ [=]].
Qed.

Lemma foldM_average_for_position sc wk (positions : list string) t :
  foldM (average_for_position sc wk) t positions
  = Ok (add_averages (average_entries sc wk (lineup t) positions) t).
Proof.
  revert t. induction positions as [|pos positions IH]; intros t; [done|].
  cbn [foldM]. rewrite average_for_position_spec. cbn [mbind result_bind].
  rewrite IH. unfold average_entries. cbn [omap list_omap].
  destruct (average_value sc wk (lineup t) pos) as [v|]; simpl; reflexivity.
Qed.

Lemma omap_cons {A B} (f : A → option B) (x : A) (l : list A) :
  omap f (x :: l)
  = match f x with Some y => y :: omap f l | None => omap f l end.
Proof. reflexivity. Qed.

Lemma forM_pure {A B} (g : A → B) (f : A → result B) (l : list A) :
  (∀ x, f x = Ok (g x)) → forM f l = Ok (g <$> l).
Proof.
  intros H. induction l as [|x l IH]; simpl; [done|].
  by rewrite H, IH.
Qed.

Lemma average_points_per_player_spec (fl : FantasyFootballLeague)
    (positions sc : list string) (week_arg : option nat) :
  average_points_per_player fl positions sc week_arg
  = get_teams_data fl (truthy week_arg) ≫= λ teams_data : list TeamData,
      Ok (with_averages positions sc (default (week fl) (truthy week_arg))
            <$> teams_data).
Proof.
  unfold average_points_per_player.
  destruct (get_teams_data fl (truthy week_arg)) as [teams_data|e]; [|done].
  cbn [mbind result_bind]. apply forM_pure. intros t.
  apply foldM_average_for_position.
Qed.

Lemma elem_of_average_entries sc wk lu positions pos v :
  (pos, v) ∈ average_entries sc wk lu positions
  ↔ pos ∈ positions ∧ average_value sc wk lu pos = Some v.
Proof.
  unfold average_entries. rewrite list_elem_of_omap. split.
  - intros (pos' & Hin & H).
    destruct (average_value sc wk lu pos') as [v'|] eqn:E; [|discriminate].
    simpl in H. injection H as <- <-. done.
  - intros [Hin H]. exists pos. by rewrite H.
Qed.

(** What a snapshot looks like after the transform, given that it came
    fresh from the extraction. *)
Lemma with_averages_fresh positions sc wk t :
  additional_data t = no_additional_data →
  team (with_averages positions sc wk t) = team t
  ∧ lineup (with_averages positions sc wk t) = lineup t
  ∧ index_column (with_averages positions sc wk t) = index_column t
  ∧ table_entries (get_average_score_per_player (with_averages positions sc wk t))
    = average_entries sc wk (lineup t) positions.
Proof.
  intros Hfresh. unfold with_averages.
  destruct (add_averages_fields (average_entries sc wk (lineup t) positions) t)
    as (-> & -> & -> & -> & _).
  unfold get_average_score_per_player. rewrite Hfresh. done.
Qed.

(** C6.  Whenever the week's snapshots can be extracted, the
    average-points transform returns one snapshot per extracted one, same
    team and lineup, and for every requested position: (a) if the lineup
    has at least one entry of that position with a non-excluded slot, the
    averages table has an entry for the position, and only one value
    there: the average (the sum of the points on record, as Python adds
    them, over the number of those entries) rounded to 2 decimal places;
    (b) if it has no such entry, the table has no entry for the position
    at all. *)
Theorem average_points_present_or_absent (fl : FantasyFootballLeague)
    (positions sc : list string) (week_arg : option nat)
    (teams_data : list TeamData) :
  get_teams_data fl (truthy week_arg) = Ok teams_data →
  ∃ out,
    average_points_per_player fl positions sc week_arg = Ok out
    ∧ length out = length teams_data
    ∧ ∀ i t, teams_data !! i = Some t →
        ∃ t', out !! i = Some t' ∧ team t' = team t ∧ lineup t' = lineup t
          ∧ ∀ pos, pos ∈ positions →
              let n := length (matching pos sc (lineup t)) in
              let table := table_entries (get_average_score_per_player t') in
              ((0 < n)%nat →
                 ∃ v, (pos, v) ∈ table
                      ∧ average_value sc (default (week fl) (truthy week_arg))
                          (lineup t) pos = Some v
                      ∧ rounded_to_hundredths
                          (Num.quot
                             (Num.sum
                                (available_points
                                   (default (week fl) (truthy week_arg))
                                   (matching pos sc (lineup t))))
                             (Num.of_nat n)) v
                      ∧ ∀ v', (pos, v') ∈ table → v' = v)
              ∧ (n = 0%nat → ∀ v, (pos, v) ∉ table).
Proof.
  intros Hget. rewrite average_points_per_player_spec, Hget.
  eexists. split; [reflexivity|].
  split; [by rewrite length_fmap|].
  intros i t Ht. eexists. split; [by rewrite list_lookup_fmap, Ht|].
  assert (Hfresh : additional_data t = no_additional_data).
  { eapply get_teams_data_fresh; [exact Hget|].
    apply list_elem_of_lookup. eauto. }
  destruct (with_averages_fresh positions sc
              (default (week fl) (truthy week_arg)) t Hfresh)
    as (Hteam & Hlu & _ & Htab).
  do 2 (split; [done|]). intros pos Hpos n table.
  subst table. rewrite Htab. split.
  - intros Hn.
    assert (∃ v, average_value sc (default (week fl) (truthy week_arg))
                   (lineup t) pos = Some v
                 ∧ rounded_to_hundredths
                     (Num.quot
                        (Num.sum
                           (available_points
                              (default (week fl) (truthy week_arg))
                              (matching pos sc (lineup t))))
                        (Num.of_nat n)) v)
      as (v & Hv & Hk).
    { unfold average_value. fold n.
      apply Nat.ltb_lt in Hn. rewrite Hn. eexists. split; [reflexivity|].
      apply round2_rounded. }
    exists v. split; [by apply elem_of_average_entries|].
    do 2 (split; [done|]).
    intros v' Hv'. apply elem_of_average_entries in Hv' as [_ Hv'].
    congruence.
  - intros Hn v Hv. apply elem_of_average_entries in Hv as [_ Hv].
    unfold average_value in Hv. fold n in Hv. rewrite Hn in Hv.
    discriminate Hv.
Qed.

(** C10.  In the average-points transform the divisor is the number of all
    lineup entries of the position with a non-excluded slot, those without
    points for the week included ([without] below), while the numerator
    adds the points of those that have some ([scoring] below): the value
    reported for a position with a matching entry is that quotient,
    rounded to 2 decimal places. *)
Theorem average_divides_by_all_matching (fl : FantasyFootballLeague)
    (positions sc : list string) (week_arg : option nat)
    (teams_data : list TeamData) :
  get_teams_data fl (truthy week_arg) = Ok teams_data →
  ∃ out,
    average_points_per_player fl positions sc week_arg = Ok out
    ∧ ∀ i t, teams_data !! i = Some t →
        ∃ t', out !! i = Some t'
          ∧ ∀ pos, pos ∈ positions →
              let wk := default (week fl) (truthy week_arg) in
              let m := matching pos sc (lineup t) in
              let scoring := filter (λ p, is_Some (player_points wk p)) m in
              let without := filter (λ p, player_points wk p = None) m in
              let q := Num.quot (Num.sum (available_points wk scoring))
                                (Num.of_nat (length scoring + length without)) in
              length m = (length scoring + length without)%nat
              ∧ available_points wk m = available_points wk scoring
              ∧ ((0 < length m)%nat →
                 ∃ v, (pos, v) ∈ table_entries (get_average_score_per_player t')
                      ∧ v = Num.round2 q
                      ∧ rounded_to_hundredths q v).
Proof.
  intros Hget. rewrite average_points_per_player_spec, Hget.
  eexists. split; [reflexivity|].
  intros i t Ht. eexists. split; [by rewrite list_lookup_fmap, Ht|].
  assert (Hfresh : additional_data t = no_additional_data).
  { eapply get_teams_data_fresh; [exact Hget|].
    apply list_elem_of_lookup. eauto. }
  destruct (with_averages_fresh positions sc
              (default (week fl) (truthy week_arg)) t Hfresh)
    as (_ & _ & _ & Htab).
  intros pos Hpos wk m scoring without q. rewrite Htab.
  assert (Hlen : length m = (length scoring + length without)%nat).
  { subst scoring without. clear. induction m as [|p m IH]; [done|].
    rewrite !filter_cons. destruct (player_points wk p) as [x|] eqn:E.
    - rewrite decide_True by eauto. rewrite decide_False by done.
      simpl. by rewrite IH.
    - rewrite decide_False by (by intros [? ?]). rewrite decide_True by done.
      simpl. rewrite IH. lia. }
  assert (Hpts : available_points wk m = available_points wk scoring).
  { subst scoring. clear. unfold available_points.
    induction m as [|p m IH]; [done|].
    rewrite filter_cons, omap_cons.
    destruct (player_points wk p) as [x|] eqn:E.
    - rewrite decide_True by eauto. by rewrite omap_cons, E, IH.
    - rewrite decide_False by (by intros [? ?]). exact IH. }
  do 2 (split; [done|]). intros Hm.
  exists (Num.round2 q). split; [|split; [done|apply round2_rounded]].
  apply elem_of_average_entries. split; [done|].
  unfold average_value. fold m. apply Nat.ltb_lt in Hm. rewrite Hm.
  subst q. by rewrite <- Hlen, <- Hpts.
Qed.

(** ** Percentage of points by position *)

Lemma total_points_for_position_spec pos sc wk (lu : list Player) :
  total_points_for_position pos sc wk lu
  = Num.sum (available_points wk (of_position pos (included sc lu))).
Proof.
  unfold total_points_for_position, available_points, of_position, included.
  f_equal. induction lu as [|p lu IH]; [done|].
  rewrite omap_cons, filter_cons, IH. unfold qualifies.
  destruct (decide (slot_position p ∉ sc)) as [Hs|Hs].
  - rewrite (bool_decide_eq_false_2 _ Hs), andb_true_r, filter_cons.
    destruct (decide (position p = pos)) as [Hp|Hp].
    + rewrite (bool_decide_eq_true_2 _ Hp), omap_cons.
      by destruct (player_points wk p).
    + rewrite (bool_decide_eq_false_2 _ Hp).
      by destruct (player_points wk p).
  - apply dec_stable in Hs. rewrite (bool_decide_eq_true_2 _ Hs), andb_false_r.
    by destruct (player_points wk p).
Qed.

Lemma total_team_points_spec sc wk (lu : list Player) :
  total_team_points sc wk lu = Num.sum (available_points wk (included sc lu)).
Proof.
  unfold total_team_points, available_points, included.
  f_equal. induction lu as [|p lu IH]; [done|].
  rewrite omap_cons, filter_cons, IH.
  destruct (decide (slot_position p ∉ sc)) as [Hs|Hs].
  - rewrite (bool_decide_eq_false_2 _ Hs), omap_cons.
    by destruct (player_points wk p).
  - apply dec_stable in Hs. rewrite (bool_decide_eq_true_2 _ Hs).
    by destruct (player_points wk p).
Qed.

Lemma percentage_for_position_spec sc wk t pos :
  percentage_for_position sc wk t pos
  = Ok (add_percentage_per_position pos
          (percentage_value sc wk (lineup t) pos) t).
Proof.
  unfold percentage_for_position, percentage_value.
  rewrite total_points_for_position_spec, total_team_points_spec.
  set (ps := available_points wk (of_position pos (included sc (lineup t)))).
  set (ts := available_points wk (included sc (lineup t))).
  unfold Num.div, Num.nonzero.
  by destruct (Num.is_zero (Num.sum ts)).
Qed.

Lemma add_percentages_fields es t :
  team (add_percentages es t) = team t
  ∧ lineup (add_percentages es t) = lineup t
  ∧ index_column (add_percentages es t) = index_column t
  ∧ table_entries (get_percentage_per_position (add_percentages es t))
    = table_entries (get_percentage_per_position t) ++ es
  ∧ (get_percentage_per_position (add_percentages es t) = None
     ↔ get_percentage_per_position t = None ∧ es = []).
Proof.
  revert t. induction es as [|e es IH]; intros t; simpl.
  - rewrite app_nil_r. intuition.
  - destruct (IH (add_percentage_per_position e.1 e.2 t))
      as (-> & -> & -> & -> & Hnone).
    simpl. do 3 (split; [done|]). split; [|split].
    + unfold table_entries, get_percentage_per_position. simpl.
      destruct e, (percentage_per_position (additional_data t)); simpl;
        [by rewrite <- app_assoc | done].
    + intros H. apply Hnone in H as [H' _]. discriminate H'.
    + intros [_ [=]].
Qed.

Lemma foldM_percentage_for_position sc wk (positions : list string) t :
  foldM (percentage_for_position sc wk) t positions
  = Ok (add_percentages (percentage_entries sc wk (lineup t) positions) t).
Proof.
  revert t. induction positions as [|pos positions IH]; intros t; [done|].
  cbn [foldM]. rewrite percentage_for_position_spec. cbn [mbind result_bind].
  by rewrite IH.
Qed.

Lemma percentage_of_points_by_position_spec (fl : FantasyFootballLeague)
    (positions sc : list string) (week_arg : option nat) :
  percentage_of_points_by_position fl positions sc week_arg
  = get_teams_data fl (truthy week_arg) ≫= λ teams_data : list TeamData,
      Ok (with_percentages positions sc (default (week fl) (truthy week_arg))
            <$> teams_data).
Proof.
  unfold percentage_of_points_by_position.
  destruct (get_teams_data fl (truthy week_arg)) as [teams_data|e]; [|done].
  cbn [mbind result_bind]. apply forM_pure. intros t.
  apply foldM_percentage_for_position.
Qed.

Lemma with_percentages_fresh positions sc wk t :
  additional_data t = no_additional_data →
  team (with_percentages positions sc wk t) = team t
  ∧ lineup (with_percentages positions sc wk t) = lineup t
  ∧ index_column (with_percentages positions sc wk t) = index_column t
  ∧ table_entries (get_percentage_per_position (with_percentages positions sc wk t))
    = percentage_entries sc wk (lineup t) positions
  ∧ (positions ≠ [] →
     get_percentage_per_position (with_percentages positions sc wk t)
     = Some (percentage_entries sc wk (lineup t) positions)).
Proof.
  intros Hfresh. unfold with_percentages.
  destruct (add_percentages_fields
              (percentage_entries sc wk (lineup t) positions) t)
    as (-> & -> & -> & Htab & Hnone).
  assert (Hempty : table_entries (get_percentage_per_position t) = []).
  { unfold get_percentage_per_position. by rewrite Hfresh. }
  rewrite Hempty in Htab. do 4 (split; [done|]).
  intros Hne. unfold table_entries in Htab.
  destruct (get_percentage_per_position (add_percentages _ t)) as [l|] eqn:E.
  - simpl in Htab. by rewrite Htab.
  - destruct (proj1 Hnone eq_refl) as [_ E'].
    destruct positions; [done | discriminate E'].
Qed.

(** C3.  Whenever the week's snapshots can be extracted, the percentage
    transform returns (no error), and for every team and every requested
    position the value in the team's percentage table is: the points of
    the team's non-excluded entries of that position, divided by the points
    of all its non-excluded entries, times 100 (each sum, the quotient and
    the product as Python computes them on floats), rounded to 2 decimal
    places; and exactly 0 when that denominator is zero. *)
Theorem percentage_of_points_formula (fl : FantasyFootballLeague)
    (positions sc : list string) (week_arg : option nat)
    (teams_data : list TeamData) :
  get_teams_data fl (truthy week_arg) = Ok teams_data →
  ∃ out,
    percentage_of_points_by_position fl positions sc week_arg = Ok out
    ∧ ∀ i t, teams_data !! i = Some t →
        ∃ t', out !! i = Some t' ∧ team t' = team t
          ∧ ∀ j pos, positions !! j = Some pos →
              let wk := default (week fl) (truthy week_arg) in
              let num := Num.sum (available_points wk
                                    (of_position pos (included sc (lineup t)))) in
              let den := Num.sum (available_points wk (included sc (lineup t))) in
              let p := Num.mul (Num.quot num den) Num.hundred in
              ∃ v, table_entries (get_percentage_per_position t') !! j
                   = Some (pos, v)
                   ∧ (Num.is_zero den = false →
                      v = Num.round2 p ∧ rounded_to_hundredths p v)
                   ∧ (Num.is_zero den = true → v = Num.zero).
Proof.
  intros Hget. rewrite percentage_of_points_by_position_spec, Hget.
  eexists. split; [reflexivity|].
  intros i t Ht. eexists. split; [by rewrite list_lookup_fmap, Ht|].
  assert (Hfresh : additional_data t = no_additional_data).
  { eapply get_teams_data_fresh; [exact Hget|].
    apply list_elem_of_lookup. eauto. }
  destruct (with_percentages_fresh positions sc
              (default (week fl) (truthy week_arg)) t Hfresh)
    as (Hteam & _ & _ & Htab & _).
  split; [done|]. intros j pos Hj wk num den p. rewrite Htab.
  exists (percentage_value sc wk (lineup t) pos). split.
  - unfold percentage_entries. by rewrite list_lookup_fmap, Hj.
  - unfold percentage_value. fold num den p.
    destruct (Num.is_zero den) eqn:E.
    + split; [discriminate | done].
    + split; [|discriminate]. intros _. split; [done|apply round2_rounded].
Qed.

(** C9.  Whenever the week's snapshots can be extracted, the percentage
    transform appends exactly one entry per requested position to every
    team's percentage table, whatever the lineup: the positions of the
    table's entries are the requested positions, in the order requested,
    so the table has [len(positions)] entries (and is present as soon as
    one position is requested).  The averages table is different: in the
    sample league the two teams end week 2 with tables of different
    lengths. *)
Theorem percentage_table_shape (fl : FantasyFootballLeague)
    (positions sc : list string) (week_arg : option nat)
    (teams_data : list TeamData) :
  get_teams_data fl (truthy week_arg) = Ok teams_data →
  (∃ out,
     percentage_of_points_by_position fl positions sc week_arg = Ok out
     ∧ length out = length teams_data
     ∧ ∀ t', t' ∈ out →
         let table := table_entries (get_percentage_per_position t') in
         table.*1 = positions
         ∧ length table = length positions
         ∧ (positions ≠ [] → get_percentage_per_position t' = Some table))
  ∧ (∃ out t1 t2,
       average_points_per_player Examples.fl_AB ["QB"; "WR"] ["BE"] (Some 2%nat)
       = Ok out
       ∧ t1 ∈ out ∧ t2 ∈ out
       ∧ length (table_entries (get_average_score_per_player t1))
         ≠ length (table_entries (get_average_score_per_player t2))).
Proof.
  intros Hget. split.
  - rewrite percentage_of_points_by_position_spec, Hget.
    eexists. split; [reflexivity|]. split; [by rewrite length_fmap|].
    intros t' Hin. apply list_elem_of_fmap in Hin as (t & -> & Hin).
    assert (Hfresh : additional_data t = no_additional_data)
      by (by eapply get_teams_data_fresh).
    destruct (with_percentages_fresh positions sc
                (default (week fl) (truthy week_arg)) t Hfresh)
      as (_ & _ & _ & Htab & Hsome).
    cbv zeta. rewrite Htab. split; [|split].
    + unfold percentage_entries. rewrite <- list_fmap_compose.
      apply list_fmap_id.
    + unfold percentage_entries. by rewrite length_fmap.
    + exact Hsome.
  - eexists _, _, _. split; [vm_compute; reflexivity|].
    split; [apply list_elem_of_here|].
    split; [apply list_elem_of_further, list_elem_of_here|].
    vm_compute. discriminate.
Qed.

(** ** Batch write coordinator *)

Lemma elem_of_batch_values_of (bd : list (string * list PendingWrite)) b :
  b ∈ batch_values_of bd
  ↔ ∃ function_name data_list e,
      (function_name, data_list) ∈ bd ∧ e ∈ data_list ∧ b = to_batch_value e.
Proof.
  unfold batch_values_of. rewrite list_elem_of_In, in_flat_map. split.
  - intros ([k l] & Hin & Hb). apply list_elem_of_In in Hin, Hb.
    apply list_elem_of_fmap in Hb as (e & -> & He). eauto 6.
  - intros (k & l & e & Hin & He & ->). exists (k, l).
    rewrite <- !list_elem_of_In. split; [done|].
    apply list_elem_of_fmap. eauto.
Qed.

Lemma length_batch_values_of (bd : list (string * list PendingWrite)) :
  length (batch_values_of bd) = sum_list ((λ item, length item.2) <$> bd).
Proof.
  unfold batch_values_of. induction bd as [|[k l] bd IH]; [done|].
  simpl. by rewrite length_app, length_fmap, IH.
Qed.

(** What [write_batch] does to the manager, whatever the sink answers. *)
Lemma write_batch_effect (w : World) :
  requests (write_batch w).2 = requests w ++ [batch_values_of (batch_data w)]
  ∧ batch_data (write_batch w).2 = []
  ∧ service (write_batch w).2 = service w.
Proof. unfold write_batch. by destruct (service w _ _). Qed.

Lemma batch_values_carry (bd : list (string * list PendingWrite)) :
  Forall2 carries (pending_writes bd) (batch_values_of bd).
Proof.
  unfold pending_writes, batch_values_of.
  induction bd as [|[k l] bd IH]; [constructor|].
  rewrite fmap_cons. cbn [mjoin list_join flat_map snd].
  apply Forall2_app; [|exact IH].
  apply Forall2_fmap_r, Forall_Forall2_diag, Forall_forall.
  intros e _. done.
Qed.

(** C5.  In every state of the manager and whatever the sink answers,
    [write_batch] makes exactly one bulk request, whose entries are the
    pending writes of all operation names, one entry for each, in order,
    with the write's sheet, cell and value, and leaves [batch_data] empty:
    also when the sink answers with the [HttpError] that is caught, and
    when it raises something that propagates.  A second [write_batch]
    right after therefore sends an empty request: nothing is carried over
    or sent twice. *)
Theorem write_batch_drains (w : World) :
  let r := write_batch w in
  ∃ bulk,
    batch_data r.2 = []
    ∧ requests r.2 = requests w ++ [bulk]
    ∧ Forall2 carries (pending_writes (batch_data w)) bulk
    ∧ (∀ function_name data_list e,
         (function_name, data_list) ∈ batch_data w → e ∈ data_list →
         ∃ b, b ∈ bulk ∧ carries e b)
    ∧ length bulk = sum_list ((λ item, length item.2) <$> batch_data w)
    ∧ match service w (requests w) bulk with
      | SinkOk | SinkHttpError => r.1 = Ok ()
      | SinkRaises e => r.1 = Raise e
      end
    ∧ requests (write_batch r.2).2 = requests w ++ [bulk; []].
Proof.
  intros r. subst r. exists (batch_values_of (batch_data w)).
  set (bulk := batch_values_of (batch_data w)).
  unfold write_batch. fold bulk.
  assert (Hnext : ∀ w', batch_data w' = [] →
            requests w' = requests w ++ [bulk] →
            requests (write_batch w').2 = requests w ++ [bulk; []]).
  { intros w' Hbd Hreq. unfold write_batch. rewrite Hbd, Hreq.
    change (batch_values_of []) with (@nil BatchValue).
    destruct (service w' _ _); simpl; by rewrite <- app_assoc. }
  split; [by destruct (service w (requests w) bulk)|].
  split; [by destruct (service w (requests w) bulk)|].
  split; [apply batch_values_carry|].
  split.
  { intros function_name data_list e Hin He.
    exists (to_batch_value e). split; [|done].
    apply elem_of_batch_values_of. by exists function_name, data_list, e. }
  split; [apply length_batch_values_of|].
  split; [by destruct (service w (requests w) bulk)|].
  apply Hnext; by destruct (service w (requests w) bulk).
Qed.

(** Staging a write adds it to what the next [write_batch] sends. *)
Lemma batch_values_of_append function_name e bd :
  batch_values_of (batch_append function_name e bd)
  ≡ₚ batch_values_of bd ++ [to_batch_value e].
Proof.
  unfold batch_values_of. induction bd as [|[k l] bd IH]; [done|].
  simpl. destruct (decide (k = function_name)) as [->|Hne]; simpl.
  - rewrite fmap_app. simpl. rewrite <- !app_assoc.
    apply Permutation_app_head, Permutation_app_comm.
  - rewrite IH. by rewrite app_assoc.
Qed.

(** ** Cell addressing *)

Lemma cell_at_ok (k index_row : nat) :
  (N.of_nat k <= 1114046)%N →
  cell_at k index_row = Ok {| cell_col := ord_A + k; cell_row := index_row |}.
Proof.
  intros H. unfold cell_at, chr.
  destruct (N.leb_spec (N.of_nat (ord_A + k)) 1114111) as [_|Hgt]; [done|].
  unfold ord_A in Hgt. lia.
Qed.

Lemma is_column_letter_spec (k : nat) :
  is_column_letter (ord_A + k) = true ↔ (k ≤ 25)%nat.
Proof.
  unfold is_column_letter, ord_A.
  rewrite andb_true_iff, !Nat.leb_le. lia.
Qed.

Lemma batch_append_staged function_name e l :
  batch_append function_name e (staged function_name l)
  = staged function_name (l ++ [e]).
Proof.
  destruct l as [|e' l]; simpl; [done|]. by rewrite decide_True.
Qed.

Lemma batch_values_of_staged function_name l :
  batch_values_of (staged function_name l) = to_batch_value <$> l.
Proof.
  destruct l as [|e l]; [done|]. unfold batch_values_of. simpl.
  by rewrite app_nil_r.
Qed.

Lemma stage_team_names sh (teams_data : list TeamData) l w :
  Forall (λ t, (N.of_nat (index_column t) <= 1114046)%N) teams_data →
  batch_data w = staged "print_team_names_to_sheet" l →
  foldW (λ _ t,
          cell ← lift (cell_at (index_column t) 1);
          write_to_sheet sh cell (VStr (team_name (team t)))
            "print_team_names_to_sheet") () teams_data w
  = (Ok (), set_batch_data
              (staged "print_team_names_to_sheet"
                 (l ++ (team_name_write sh <$> teams_data))) w).
Proof.
  intros Hall. revert l w.
  induction Hall as [|t teams_data Ht Hall IH]; intros l w Hbd.
  - simpl. rewrite app_nil_r, <- Hbd. by destruct w.
  - cbn [foldW]. unfold mbind at 1, M_bind at 1.
    unfold mbind at 1, M_bind at 1. unfold lift at 1.
    rewrite (cell_at_ok _ _ Ht).
    unfold write_to_sheet at 1, add_data_to_batch at 1.
    rewrite Hbd, batch_append_staged.
    erewrite IH; [|reflexivity]. simpl.
    unfold set_batch_data. simpl. by rewrite <- app_assoc.
Qed.

Lemma get_teams_data_index_bound fl week_option teams_data :
  get_teams_data fl week_option = Ok teams_data →
  Forall (λ t, (1 ≤ index_column t ≤ length (teams (league fl)))%nat)
         teams_data.
Proof.
  rewrite get_teams_data_forM, forM_ok. intros H.
  apply Forall_forall. intros t Hin.
  apply list_elem_of_lookup in Hin as [k Hk].
  destruct (Forall2_lookup_r _ _ _ _ _ H Hk) as (s & _ & Hs).
  apply snapshot_ok in Hs as (i & Hi & ->). simpl.
  apply list_index_ok in Hi as [Hi _]. apply lookup_lt_Some in Hi. lia.
Qed.

(** ** League-average column *)

(** C4.  On the four-team sample league, ranked 10.0, 10.0, 10.0 and
    10.01, [get_and_write_power_ranking] writes the four rankings in
    columns B to E of the row and their unrounded mean, the double next
    to 10.0025, in the league-average column F; the mean of the four
    written values rounded to 2 decimal places is 10.0. *)
Theorem power_ranking_league_average_unrounded :
  let r := get_and_write_power_ranking Examples.fl_ABCD "Week 1" 16
             Examples.fresh_world in
  let mean := Num.quot (Num.sum [Examples.whole 10; Examples.whole 10;
                                 Examples.whole 10; Examples.cents 1001])
                       (Num.of_nat 4) in
  r.1 = Ok ()
  ∧ (λ b, (cell_col (range_cell b), cell_row (range_cell b), values b))
      <$> concat (requests r.2)
    = [(65, 16, VStr "Power Ranking");
       (66, 16, VNum (Examples.whole 10)); (67, 16, VNum (Examples.whole 10));
       (68, 16, VNum (Examples.whole 10));
       (69, 16, VNum (Examples.cents 1001));
       (70, 16, VNum mean)]%nat
  ∧ (100024 # 10000 < Num.exact mean)%Q ∧ (Num.exact mean < 100026 # 10000)%Q
  ∧ Num.round2 mean = Examples.whole 10
  ∧ mean ≠ Examples.whole 10.
Proof.
  split; [vm_compute; reflexivity|].
  split; [vm_compute; reflexivity|].
  split; [vm_compute; reflexivity|].
  split; [vm_compute; reflexivity|].
  split; [vm_compute; reflexivity|].
  intros H. vm_compute in H. discriminate H.
Qed.

(** ** Multi-week aggregation over a single week *)

Lemma get_teams_data_raise fl week_option e :
  get_teams_data fl week_option = Raise e → e = ValueError.
Proof.
  rewrite get_teams_data_forM. intros H.
  apply forM_raise in H as (s & _ & Hs).
  by apply snapshot_raise in Hs as [-> _].
Qed.

Lemma average_points_per_player_raise (fl : FantasyFootballLeague)
    (positions sc : list string) (week_arg : option nat) e :
  average_points_per_player fl positions sc week_arg = Raise e →
  e = ValueError.
Proof.
  rewrite average_points_per_player_spec. intros H.
  apply bind_raise in H as [H | (td & _ & [=])].
  by apply get_teams_data_raise in H.
Qed.

(** With [weeks = 1] the loop over the weeks runs once, through its first
    branch: [average_overall_team_data] is never assigned. *)
Lemma accumulate_one_week transform get_table fl
    (positions_to_check positions_to_omit : list string) w :
  accumulate_weeks transform get_table fl 1 positions_to_check
                   positions_to_omit w
  = match transform fl positions_to_check positions_to_omit (Some 1%nat) with
    | Ok teams_data =>
        (Ok {| overall_teams_data := get_table <$> sorted_by_column teams_data;
               average_overall_team_data := None;
               last_teams_data := Some teams_data |}, w)
    | Raise e => (Raise e, w)
    end.
Proof.
  unfold accumulate_weeks, accumulate_week. simpl.
  unfold mbind, M_bind, lift.
  by destruct (transform fl positions_to_check positions_to_omit (Some 1%nat)).
Qed.

(** C2.  Over a range of exactly one week, and with at least one requested
    position, [get_and_write_average_points_per_player_all_weeks] always
    raises and sends nothing to the sheet: [UnboundLocalError] as soon as
    the week has a snapshot, because [average_overall_team_data] is only
    assigned from the second week on; [ZeroDivisionError] for a week
    without snapshots; the extraction's [ValueError] otherwise.  It
    produces no value to compare with the single-week transform. *)
Theorem one_week_average_raises (fl : FantasyFootballLeague) (sh : string)
    (start_position : nat) (positions_to_check positions_to_omit : list string)
    (started_or_not : string) (w : World) :
  positions_to_check ≠ [] →
  let r := get_and_write_average_points_per_player_all_weeks fl 1 sh
             start_position positions_to_check positions_to_omit
             started_or_not w in
  requests r.2 = requests w
  ∧ match average_points_per_player fl positions_to_check positions_to_omit
            (Some 1%nat) with
    | Ok (_ :: _) => r.1 = Raise UnboundLocalError
    | Ok [] => r.1 = Raise ZeroDivisionError
    | Raise e => r.1 = Raise ValueError
    end.
Proof.
  intros Hpos. cbv zeta.
  unfold get_and_write_average_points_per_player_all_weeks.
  unfold mbind, M_bind. rewrite accumulate_one_week.
  destruct (average_points_per_player fl positions_to_check positions_to_omit
              (Some 1%nat)) as [teams_data|e] eqn:E.
  - destruct positions_to_check as [|pos rest]; [done|].
    destruct teams_data as [|t teams_data]; simpl; done.
  - apply average_points_per_player_raise in E as ->. done.
Qed.

(** ** Shape mismatch in the multi-week aggregation *)

Section Mismatch.

Variable get_table : TeamData → option MetricTable.
Variable weeks : nat.

(** A team whose table for the week has another length than its running
    table is skipped: a warning is printed, nothing is raised and the
    totals are left as they are. *)
Lemma accumulate_team_skip st i t acc tbl w :
  overall_teams_data st !! i = Some (Some acc) →
  get_table t = Some tbl →
  length acc ≠ length tbl →
  accumulate_team get_table weeks st (i, t) w
  = (Ok st, (print (warning t) w).2).
Proof.
  intros Hacc Htbl Hlen. unfold accumulate_team, mbind, M_bind, lift, getitem.
  rewrite Hacc, Htbl. simpl.
  apply Nat.eqb_neq in Hlen. rewrite Hlen. reflexivity.
Qed.

(** A step for another index leaves the running table at [i] alone, and
    whatever was printed stays printed. *)
Lemma accumulate_team_other st j u w st' w' i :
  accumulate_team get_table weeks st (j, u) w = (Ok st', w') →
  (j ≠ i → overall_teams_data st' !! i = overall_teams_data st !! i)
  ∧ ∃ out, stdout w' = stdout w ++ out.
Proof.
  unfold accumulate_team, mbind, M_bind, lift, getitem, as_list.
  destruct (overall_teams_data st !! j) as [[a0|]|]; [|discriminate..].
  destruct (get_table u) as [a1|]; [|discriminate].
  destruct (negb (length a0 =? length a1)%nat).
  - unfold print, mret, M_ret. intros [= <- <-]. simpl.
    split; [done|]. eauto.
  - destruct (average_tables weeks _) as [avg|e]; [|discriminate].
    unfold mret, M_ret. intros [= <- <-]. simpl.
    split; [|exists []; by rewrite app_nil_r].
    intros Hne. by apply list_lookup_insert_ne.
Qed.

Lemma accumulate_later_teams (l : list TeamData) k st w st' w' i :
  foldW (accumulate_team get_table weeks) st (enumerate k l) w = (Ok st', w') →
  (i < k)%nat →
  overall_teams_data st' !! i = overall_teams_data st !! i
  ∧ ∃ out, stdout w' = stdout w ++ out.
Proof.
  revert k st w. induction l as [|u l IH]; intros k st w H Hik.
  - simpl in H. injection H as <- <-. split; [done|].
    exists []. by rewrite app_nil_r.
  - cbn [enumerate foldW] in H. unfold mbind at 1, M_bind at 1 in H.
    destruct (accumulate_team get_table weeks st (k, u) w)
      as [[st1|e] w1] eqn:E; [|discriminate H].
    destruct (accumulate_team_other _ _ _ _ _ _ i E) as [Hsame [out1 Hout1]].
    destruct (IH (S k) st1 w1 H ltac:(lia)) as [Hrest [out2 Hout2]].
    split; [rewrite Hrest; apply Hsame; lia|].
    exists (out1 ++ out2). by rewrite Hout2, Hout1, app_assoc.
Qed.

Lemma accumulate_teams_skip (l : list TeamData) k st w st' w' i t acc tbl :
  foldW (accumulate_team get_table weeks) st (enumerate k l) w = (Ok st', w') →
  (k ≤ i)%nat →
  l !! (i - k)%nat = Some t →
  overall_teams_data st !! i = Some (Some acc) →
  get_table t = Some tbl →
  length acc ≠ length tbl →
  overall_teams_data st' !! i = Some (Some acc) ∧ warning t ∈ stdout w'.
Proof.
  revert k st w. induction l as [|u l IH]; intros k st w H Hki Ht Hacc Htbl Hlen.
  - discriminate Ht.
  - cbn [enumerate foldW] in H. unfold mbind at 1, M_bind at 1 in H.
    destruct (decide (i = k)) as [->|Hne].
    + rewrite Nat.sub_diag in Ht. injection Ht as ->.
      rewrite (accumulate_team_skip _ _ _ _ _ _ Hacc Htbl Hlen) in H.
      destruct (accumulate_later_teams _ _ _ _ _ _ k H ltac:(lia))
        as [Hsame [out Hout]].
      split; [by rewrite Hsame|].
      rewrite Hout. simpl. rewrite !elem_of_app, list_elem_of_singleton.
      auto.
    + destruct (accumulate_team get_table weeks st (k, u) w)
        as [[st1|e] w1] eqn:E; [|discriminate H].
      destruct (accumulate_team_other _ _ _ _ _ _ i E) as [Hsame _].
      apply (IH (S k) st1 w1 H); [lia| |by rewrite Hsame|done|done].
      replace (i - k)%nat with (S (i - S k)) in Ht by lia. exact Ht.
Qed.

End Mismatch.

(** C1 (amended).  In both multi-week aggregations, when in some week after
    the first a team's table for the week has another length than the
    table accumulated for that team, no error is raised for it: the
    team's step prints a warning that names the team and returns with the
    totals unchanged, and when the week's loop completes the team's
    accumulated table is what it was before the week.  (The loop is the
    same for both aggregations; [transform] and [get_table] are what they
    differ in.) *)
Theorem shape_mismatch_is_skipped
    (transform : FantasyFootballLeague → list string → list string →
                 option nat → result (list TeamData))
    (get_table : TeamData → option MetricTable)
    (fl : FantasyFootballLeague) (weeks : nat)
    (positions_to_check positions_to_omit : list string)
    (st : Totals) (wk : nat) (w : World) (teams_data : list TeamData)
    (i : nat) (t : TeamData) (acc tbl : MetricTable) :
  transform fl positions_to_check positions_to_omit (Some wk) = Ok teams_data →
  sorted_by_column teams_data !! i = Some t →
  overall_teams_data st !! i = Some (Some acc) →
  get_table t = Some tbl →
  length acc ≠ length tbl →
  (∀ st0 w0, overall_teams_data st0 !! i = Some (Some acc) →
     accumulate_team get_table weeks st0 (i, t) w0
     = (Ok st0, (print (warning t) w0).2))
  ∧ ∀ st' w',
      accumulate_week transform get_table fl weeks positions_to_check
                      positions_to_omit st wk w = (Ok st', w') →
      overall_teams_data st' !! i = Some (Some acc)
      ∧ warning t ∈ stdout w'.
Proof.
  intros Htr Ht Hacc Htbl Hlen. split.
  - intros st0 w0 Hacc0. by eapply accumulate_team_skip.
  - intros st' w'. unfold accumulate_week, mbind, M_bind, lift.
    rewrite Htr. cbn [overall_teams_data].
    destruct (overall_teams_data st) as [|o os] eqn:Eo; [discriminate Hacc|].
    intros Hrun.
    eapply (accumulate_teams_skip get_table weeks _ 0); try eassumption.
    + lia.
    + by rewrite Nat.sub_0_r.
Qed.

(** C1 as stated fails on the sample league.  With positions QB and WR
    and the bench excluded, team A's table has two entries in week 1 and
    one in week 2; the two-week aggregation nevertheless returns without
    an error, prints a warning that names the team but not the week, and
    writes for team A its week-1 values divided by 2. *)
Lemma shape_mismatch_not_surfaced :
  let tables (r : result (list TeamData)) :=
    match r with
    | Ok l => (λ td, (team_name (team td),
                      table_entries (get_average_score_per_player td)))
                <$> sorted_by_column l
    | Raise _ => []
    end in
  let r := get_and_write_average_points_per_player_all_weeks Examples.fl_AB 2
             "Summary" 2 ["QB"; "WR"] ["BE"] "started" Examples.fresh_world in
  tables (average_points_per_player Examples.fl_AB ["QB"; "WR"] ["BE"]
            (Some 1%nat))
  = [("A", [("QB", Examples.whole 20); ("WR", Examples.whole 8)]);
     ("B", [("QB", Examples.whole 10); ("WR", Examples.whole 6)])]
  ∧ tables (average_points_per_player Examples.fl_AB ["QB"; "WR"] ["BE"]
              (Some 2%nat))
    = [("A", [("QB", Examples.whole 30)]);
       ("B", [("QB", Examples.whole 10); ("WR", Examples.whole 6)])]
  ∧ r.1 = Ok ()
  ∧ stdout r.2 = ["Warning: Varying tuple lengths for team A";
                  "Batch data written successfully."]
  ∧ (λ b, (cell_col (range_cell b), cell_row (range_cell b), values b))
      <$> concat (requests r.2)
    = [(65, 2, VStr "Pts/QB started");
       (66, 2, VNum (Examples.whole 10)); (67, 2, VNum (Examples.whole 10));
       (68, 2, VNum (Examples.whole 10));
       (65, 3, VStr "Pts/WR started");
       (66, 3, VNum (Examples.whole 4)); (67, 3, VNum (Examples.whole 6));
       (68, 3, VNum (Examples.whole 5))]%nat.
Proof. vm_compute. repeat split. Qed.

(** ** The theorems at work on the sample leagues *)

(** Week 2 of the sample league, after a first week that left two entries
    for each team: team A is skipped. *)
Lemma shape_mismatch_is_skipped_witness :
  let st := {| overall_teams_data :=
                 [Some [("QB", Examples.whole 20); ("WR", Examples.whole 8)];
                  Some [("QB", Examples.whole 10); ("WR", Examples.whole 6)]];
               average_overall_team_data := None;
               last_teams_data := None |} in
  ∃ st' w',
    accumulate_week average_points_per_player get_average_score_per_player
      Examples.fl_AB 2 ["QB"; "WR"] ["BE"] st 2 Examples.fresh_world
    = (Ok st', w')
    ∧ overall_teams_data st' !! 0%nat
      = Some (Some [("QB", Examples.whole 20); ("WR", Examples.whole 8)])
    ∧ "Warning: Varying tuple lengths for team A" ∈ stdout w'.
Proof.
  intros st.
  destruct (accumulate_week average_points_per_player
              get_average_score_per_player Examples.fl_AB 2 ["QB"; "WR"]
              ["BE"] st 2 Examples.fresh_world) as [[st'|e] w'] eqn:Hrun;
    [|vm_compute in Hrun; discriminate Hrun].
  exists st', w'. split; [reflexivity|].
  refine (proj2 (shape_mismatch_is_skipped average_points_per_player
            get_average_score_per_player Examples.fl_AB 2 ["QB"; "WR"] ["BE"]
            st 2 Examples.fresh_world _ 0
            (add_average_score_per_player "QB" (Examples.whole 30)
               (new_TeamData Examples.team_A (Examples.lineup_A 2) 1
                  (Examples.whole 25) (Examples.whole 28)))
            [("QB", Examples.whole 20); ("WR", Examples.whole 8)]
            [("QB", Examples.whole 30)] _ _ _ _ _) st' w' Hrun).
  - vm_compute. reflexivity.
  - vm_compute. reflexivity.
  - reflexivity.
  - vm_compute. reflexivity.
  - simpl. lia.
Defined.

(** One week of the sample league: the multi-week function raises. *)
Lemma one_week_average_raises_witness :
  (get_and_write_average_points_per_player_all_weeks Examples.fl_AB 1
     "Summary" 2 ["QB"; "WR"] ["BE"] "started" Examples.fresh_world).1
  = Raise UnboundLocalError.
Proof.
  assert (Hpos : ["QB"; "WR"] ≠ []) by discriminate.
  destruct (one_week_average_raises Examples.fl_AB "Summary" 2 ["QB"; "WR"]
              ["BE"] "started" Examples.fresh_world Hpos) as [_ H].
  exact H.
Defined.

(** The single-week function on the same week writes its six values. *)
Lemma single_week_average_values :
  let r := get_and_write_average_points_per_player Examples.fl_AB
             "Week 1" 2 ["QB"; "WR"] ["BE"] "started" Examples.fresh_world in
  r.1 = Ok ()
  ∧ (λ b, (cell_col (range_cell b), cell_row (range_cell b), values b))
      <$> concat (requests r.2)
    = [(65, 2, VStr "Pts/QB started");
       (66, 2, VNum (Examples.whole 20)); (67, 2, VNum (Examples.whole 10));
       (68, 2, VNum (Examples.whole 15));
       (65, 3, VStr "Pts/WR started");
       (66, 3, VNum (Examples.whole 8)); (67, 3, VNum (Examples.whole 6));
       (68, 3, VNum (Examples.whole 7))]%nat.
Proof. vm_compute. repeat split. Qed.

(** Team E with the kicker's slot excluded: its quarterback has 1.74 of
    the 1.74 + 1.46 points, which Python reports as 54.37 percent; with
    every slot excluded the total is zero and so is the percentage. *)
Lemma percentage_of_points_formula_witness :
  (∃ out t',
     percentage_of_points_by_position Examples.fl_EF ["QB"; "WR"] ["K"] None
     = Ok out
     ∧ out !! 0%nat = Some t'
     ∧ table_entries (get_percentage_per_position t') !! 0%nat
       = Some ("QB", Examples.cents 5437))
  ∧ (∃ out t',
       percentage_of_points_by_position Examples.fl_EF ["QB"; "WR"]
         ["QB"; "WR"; "K"] None = Ok out
       ∧ out !! 0%nat = Some t'
       ∧ table_entries (get_percentage_per_position t') !! 0%nat
         = Some ("QB", Num.zero)).
Proof.
  split.
  - destruct (percentage_of_points_formula Examples.fl_EF ["QB"; "WR"] ["K"]
                None _ eq_refl) as (out & Hout & H).
    destruct (H 0%nat _ eq_refl) as (t' & Ht' & _ & Hv).
    destruct (Hv 0%nat "QB" eq_refl) as (v & Hlk & Hnz & _).
    exists out, t'. split; [exact Hout|]. split; [exact Ht'|].
    destruct Hnz as [-> _]; [vm_compute; reflexivity|].
    rewrite Hlk. vm_compute. reflexivity.
  - destruct (percentage_of_points_formula Examples.fl_EF ["QB"; "WR"]
                ["QB"; "WR"; "K"] None _ eq_refl) as (out & Hout & H).
    destruct (H 0%nat _ eq_refl) as (t' & Ht' & _ & Hv).
    destruct (Hv 0%nat "QB" eq_refl) as (v & Hlk & _ & Hz).
    exists out, t'. split; [exact Hout|]. split; [exact Ht'|].
    rewrite Hz in Hlk; [exact Hlk|]. vm_compute. reflexivity.
Defined.

(** Team F, whose two quarterbacks scored 19.1 and 22.81 and whose two
    receivers scored 5.0 and 5.05: Python reports the averages 20.95 and
    5.03, and no entry for tight ends, of which the team has none. *)
Lemma average_points_present_or_absent_witness :
  ∃ out t',
    average_points_per_player Examples.fl_EF ["QB"; "WR"; "TE"] [] None
    = Ok out
    ∧ length out = 2%nat
    ∧ out !! 1%nat = Some t'
    ∧ ("QB", Examples.cents 2095)
      ∈ table_entries (get_average_score_per_player t')
    ∧ ("WR", Examples.cents 503)
      ∈ table_entries (get_average_score_per_player t')
    ∧ ∀ v, ("TE", v) ∉ table_entries (get_average_score_per_player t').
Proof.
  destruct (average_points_present_or_absent Examples.fl_EF
              ["QB"; "WR"; "TE"] [] None _ eq_refl)
    as (out & Hout & Hlen & H).
  destruct (H 1%nat _ eq_refl) as (t' & Ht' & _ & _ & Hv).
  exists out, t'. split; [exact Hout|]. split; [exact Hlen|].
  split; [exact Ht'|]. split; [|split].
  - pose proof (Hv "QB" (list_elem_of_here _ _)) as [Hin _].
    destruct Hin as (v & Hin & Hav & _); [vm_compute; lia|].
    assert (Hval : Some v = Some (Examples.cents 2095))
      by (rewrite <- Hav; vm_compute; reflexivity).
    injection Hval as <-. exact Hin.
  - pose proof (Hv "WR" (list_elem_of_further _ _ _ (list_elem_of_here _ _)))
      as [Hin _].
    destruct Hin as (v & Hin & Hav & _); [vm_compute; lia|].
    assert (Hval : Some v = Some (Examples.cents 503))
      by (rewrite <- Hav; vm_compute; reflexivity).
    injection Hval as <-. exact Hin.
  - pose proof (Hv "TE" (list_elem_of_further _ _ _
                          (list_elem_of_further _ _ _ (list_elem_of_here _ _))))
      as [_ Hout'].
    apply Hout'. vm_compute. reflexivity.
Defined.

(** Team B with nobody excluded: its idle quarterback is counted, so the
    10 points of the other one make an average of 5.  Team F's two
    quarterbacks both have points, 19.1 and 22.81: their average is
    20.95. *)
Lemma average_divides_by_all_matching_witness :
  (∃ out t',
     average_points_per_player Examples.fl_AB ["QB"] [] None = Ok out
     ∧ out !! 1%nat = Some t'
     ∧ ("QB", Examples.whole 5)
       ∈ table_entries (get_average_score_per_player t'))
  ∧ (∃ out t',
       average_points_per_player Examples.fl_EF ["QB"] [] None = Ok out
       ∧ out !! 1%nat = Some t'
       ∧ ("QB", Examples.cents 2095)
         ∈ table_entries (get_average_score_per_player t')).
Proof.
  split.
  - destruct (average_divides_by_all_matching Examples.fl_AB ["QB"] [] None
                _ eq_refl) as (out & Hout & H).
    destruct (H 1%nat _ eq_refl) as (t' & Ht' & Hv).
    destruct (Hv "QB" (list_elem_of_here _ _)) as (_ & _ & Hin).
    exists out, t'. split; [exact Hout|]. split; [exact Ht'|].
    destruct Hin as (v & Hin & -> & _); [vm_compute; lia|].
    exact Hin.
  - destruct (average_divides_by_all_matching Examples.fl_EF ["QB"] [] None
                _ eq_refl) as (out & Hout & H).
    destruct (H 1%nat _ eq_refl) as (t' & Ht' & Hv).
    destruct (Hv "QB" (list_elem_of_here _ _)) as (_ & _ & Hin).
    exists out, t'. split; [exact Hout|]. split; [exact Ht'|].
    destruct Hin as (v & Hin & Hval & _); [vm_compute; lia|].
    assert (Hv' : v = Examples.cents 2095)
      by (rewrite Hval; vm_compute; reflexivity).
    rewrite <- Hv'. exact Hin.
Defined.

Lemma percentage_table_shape_witness :
  ∃ out, percentage_of_points_by_position Examples.fl_AB ["QB"; "WR"] ["BE"]
           (Some 2%nat) = Ok out
         ∧ length out = 2%nat.
Proof.
  destruct (proj1 (percentage_table_shape Examples.fl_AB ["QB"; "WR"] ["BE"]
                     (Some 2%nat) _ eq_refl)) as (out & Hout & Hlen & _).
  exists out. split; [exact Hout | exact Hlen].
Defined.

(** A box score naming a team that is not in [league.teams] makes the
    extraction raise; the sample league's extraction succeeds. *)
Lemma get_teams_data_column_index_witness :
  get_teams_data Examples.fl_A_only None = Raise ValueError
  ∧ ∃ teams_data, get_teams_data Examples.fl_AB None = Ok teams_data.
Proof.
  split.
  - apply (get_teams_data_column_index Examples.fl_A_only None).
    exists (away, Examples.matchup_AB 1). split.
    + apply list_elem_of_further, list_elem_of_here.
    + apply (bool_decide_unpack _). vm_compute. exact I.
  - apply (get_teams_data_column_index Examples.fl_AB None).
    intros s Hs. apply list_elem_of_In in Hs.
    destruct Hs as [<-|[<-|[]]]; apply (bool_decide_unpack _);
      vm_compute; exact I.
Defined.

(** Three writes staged under two operation names, and a sink that
    answers with an [HttpError]: the one request holds the three writes,
    those of the first name first, and the manager is empty afterwards. *)
Lemma write_batch_drains_witness :
  let w := {| service := λ _ _, SinkHttpError;
              batch_data :=
                [("print_team_names_to_sheet",
                  [{| sheet_name := "Summary";
                      cell_range := {| cell_col := 66; cell_row := 1 |};
                      value := VStr "A" |};
                   {| sheet_name := "Summary";
                      cell_range := {| cell_col := 67; cell_row := 1 |};
                      value := VStr "League average" |}]);
                 ("power_ranking",
                  [{| sheet_name := "Week 1";
                      cell_range := {| cell_col := 66; cell_row := 16 |};
                      value := VNum (Examples.cents 1001) |}])];
              requests := [];
              stdout := [] |} in
  (write_batch w).1 = Ok ()
  ∧ batch_data (write_batch w).2 = []
  ∧ requests (write_batch w).2
    = [[{| range_sheet := "Summary";
           range_cell := {| cell_col := 66; cell_row := 1 |};
           values := VStr "A" |};
        {| range_sheet := "Summary";
           range_cell := {| cell_col := 67; cell_row := 1 |};
           values := VStr "League average" |};
        {| range_sheet := "Week 1";
           range_cell := {| cell_col := 66; cell_row := 16 |};
           values := VNum (Examples.cents 1001) |}]]
  ∧ requests (write_batch (write_batch w).2).2
    = requests (write_batch w).2 ++ [[]].
Proof.
  intros w.
  destruct (write_batch_drains w)
    as (bulk & Hbd & Hreq & Hcarry & _ & _ & Hres & Hnext).
  assert (Hbulk : bulk
                  = [{| range_sheet := "Summary";
                        range_cell := {| cell_col := 66; cell_row := 1 |};
                        values := VStr "A" |};
                     {| range_sheet := "Summary";
                        range_cell := {| cell_col := 67; cell_row := 1 |};
                        values := VStr "League average" |};
                     {| range_sheet := "Week 1";
                        range_cell := {| cell_col := 66; cell_row := 16 |};
                        values := VNum (Examples.cents 1001) |}]).
  { cbn [pending_writes batch_data w fmap list_fmap snd mjoin list_join app]
      in Hcarry.
    apply Forall2_cons_inv_l in Hcarry as (b1 & l1 & H1 & Hcarry & ->).
    apply Forall2_cons_inv_l in Hcarry as (b2 & l2 & H2 & Hcarry & ->).
    apply Forall2_cons_inv_l in Hcarry as (b3 & l3 & H3 & Hcarry & ->).
    apply Forall2_nil_inv_l in Hcarry as ->.
    destruct b1, b2, b3, H1 as (? & ? & ?), H2 as (? & ? & ?),
      H3 as (? & ? & ?).
    simpl in *. by subst. }
  split; [exact Hres|]. split; [exact Hbd|].
  split; [rewrite Hreq, Hbulk; reflexivity|].
  rewrite Hnext, Hreq. reflexivity.
Defined.


(** * Further properties *)

(** ** Staging and failing computations *)

Lemma M_bind_unfold {A B} (m : M A) (f : A → M B) (w : World) :
  (m ≫= f) w = match m w with
               | (Ok a, w') => f a w'
               | (Raise e, w') => (Raise e, w')
               end.
Proof. reflexivity. Qed.

Lemma stages_ret {A} (a : A) (w : World) : stages (mret a) w a [].
Proof. exists w. by rewrite app_nil_r. Qed.

Lemma stages_lift {A} (r : result A) (a : A) (w : World) :
  r = Ok a → stages (lift r) w a [].
Proof. intros ->. exists w. by rewrite app_nil_r. Qed.

Lemma stages_add sh cell v function_name (w : World) :
  stages (add_data_to_batch sh cell v function_name) w ()
         [{| range_sheet := sh; range_cell := cell; values := v |}].
Proof.
  eexists. split; [reflexivity|]. simpl. do 3 (split; [done|]).
  apply batch_values_of_append.
Qed.

Lemma stages_bind {A B} (m : M A) (f : A → M B) (w : World) a b ws1 ws2 :
  stages m w a ws1 →
  (∀ w', stages (f a) w' b ws2) →
  stages (m ≫= f) w b (ws1 ++ ws2).
Proof.
  intros (w1 & Hm & Hs1 & Hr1 & Ho1 & Hb1) Hf.
  destruct (Hf w1) as (w2 & Hf2 & Hs2 & Hr2 & Ho2 & Hb2).
  exists w2. rewrite M_bind_unfold, Hm. split; [done|].
  split; [congruence|]. split; [congruence|]. split; [congruence|].
  by rewrite Hb2, Hb1, app_assoc.
Qed.

Lemma stages_foldW {A B} (f : A → B → M A) (g : A → B → A)
    (h : B → list BatchValue) (l : list B) (a : A) (w : World) :
  (∀ a x w, x ∈ l → stages (f a x) w (g a x) (h x)) →
  stages (foldW f a l) w (foldl g a l) (flat_map h l).
Proof.
  revert a w. induction l as [|x l IH]; intros a w H.
  - apply stages_ret.
  - cbn [foldW foldl flat_map]. eapply stages_bind.
    + apply H. left.
    + intros w'. apply IH. intros a' x' w'' Hx'. apply H. by right.
Qed.

Lemma fails_lift {A} (r : result A) (e : exn) (w : World) :
  r = Raise e → fails (lift r) w e.
Proof. intros ->. by exists w. Qed.

Lemma fails_bind_l {A B} (m : M A) (f : A → M B) (w : World) e :
  fails m w e → fails (m ≫= f) w e.
Proof.
  intros (w1 & Hm & Hs & Hr). exists w1. by rewrite M_bind_unfold, Hm.
Qed.

Lemma fails_bind_r {A B} (m : M A) (f : A → M B) (w : World) a ws e :
  stages m w a ws → (∀ w', fails (f a) w' e) → fails (m ≫= f) w e.
Proof.
  intros (w1 & Hm & Hs1 & Hr1 & _) Hf.
  destruct (Hf w1) as (w2 & Hf2 & Hs2 & Hr2).
  exists w2. rewrite M_bind_unfold, Hm. split; [done|].
  split; congruence.
Qed.

(** A computation that staged its writes, then [write_batch]: one request
    goes out, holding what was pending and what was staged. *)
Lemma stages_then_write_batch {A} (m : M A) (w : World) a ws :
  stages m w a ws →
  let r := (m ≫= λ _, write_batch) w in
  batch_data r.2 = []
  ∧ (∃ bulk, requests r.2 = requests w ++ [bulk]
             ∧ bulk ≡ₚ batch_values_of (batch_data w) ++ ws
             ∧ match service w (requests w) bulk with
               | SinkOk | SinkHttpError => r.1 = Ok ()
               | SinkRaises e => r.1 = Raise e
               end).
Proof.
  intros (w1 & Hm & Hs & Hr & _ & Hb). cbv zeta.
  rewrite M_bind_unfold, Hm.
  destruct (write_batch_effect w1) as (Hreq & Hbd & _).
  split; [done|]. exists (batch_values_of (batch_data w1)).
  rewrite Hreq, Hr. split; [done|]. split; [done|].
  unfold write_batch. rewrite Hs, Hr.
  by destruct (service w (requests w) (batch_values_of (batch_data w1))).
Qed.

(** A computation that failed before [write_batch]: nothing goes out. *)
Lemma fails_then_write_batch {A} (m : M A) (w : World) e :
  fails m w e →
  let r := (m ≫= λ _, write_batch) w in
  r.1 = Raise e ∧ requests r.2 = requests w.
Proof.
  intros (w1 & Hm & _ & Hr). cbv zeta. by rewrite M_bind_unfold, Hm.
Qed.

(** ** Staging writes *)

Lemma batch_append_keys function_name e (bd : list (string * list PendingWrite)) :
  (batch_append function_name e bd).*1
  = if decide (function_name ∈ bd.*1) then bd.*1 else bd.*1 ++ [function_name].
Proof.
  induction bd as [|[k l] bd IH]; [done|].
  cbn [batch_append]. rewrite (fmap_cons fst (k, l) bd). cbn [fst].
  destruct (decide (k = function_name)) as [->|Hne].
  - rewrite fmap_cons. cbn [fst]. rewrite decide_True; [done | left].
  - rewrite fmap_cons, IH. cbn [fst].
    destruct (decide (function_name ∈ bd.*1)) as [Hin|Hnin].
    + rewrite decide_True; [done | by right].
    + rewrite decide_False; [done|].
      rewrite elem_of_cons. intros [->|?]; done.
Qed.

Lemma pending_of_absent function_name (bd : list (string * list PendingWrite)) :
  function_name ∉ bd.*1 → pending_of function_name bd = [].
Proof.
  induction bd as [|[k l] bd IH]; [done|]. simpl.
  rewrite elem_of_cons. intros Hnin.
  rewrite decide_False by (intros ->; apply Hnin; by left).
  apply IH. intros ?. apply Hnin. by right.
Qed.

Lemma pending_of_append_other function_name e k
    (bd : list (string * list PendingWrite)) :
  k ≠ function_name →
  pending_of k (batch_append function_name e bd) = pending_of k bd.
Proof.
  intros Hk. induction bd as [|[k' l] bd IH]; simpl.
  - by rewrite decide_False.
  - destruct (decide (k' = function_name)) as [->|Hne]; simpl.
    + by rewrite !decide_False by done.
    + by rewrite IH.
Qed.

Lemma pending_of_append_same function_name e
    (bd : list (string * list PendingWrite)) :
  NoDup bd.*1 →
  pending_of function_name (batch_append function_name e bd)
  = pending_of function_name bd ++ [e].
Proof.
  induction bd as [|[k l] bd IH]; simpl; intros Hnd.
  - by rewrite decide_True.
  - apply NoDup_cons in Hnd as [Hk Hnd].
    destruct (decide (k = function_name)) as [->|Hne]; simpl.
    + rewrite decide_True by done.
      rewrite (pending_of_absent _ _ Hk), !app_nil_r. done.
    + rewrite decide_False by done. by apply IH.
Qed.

(** X1.  [add_data_to_batch] never writes to the sheet and always returns:
    it appends the write to the end of the pending list of its operation
    name, leaves the lists of the other names as they are, keeps the
    names distinct, and puts a new name after the existing ones. *)
Theorem add_data_to_batch_appends sh cell v function_name (w : World) :
  NoDup (batch_data w).*1 →
  let e := {| sheet_name := sh; cell_range := cell; value := v |} in
  let r := add_data_to_batch sh cell v function_name w in
  r.1 = Ok ()
  ∧ requests r.2 = requests w ∧ stdout r.2 = stdout w
  ∧ NoDup (batch_data r.2).*1
  ∧ pending_of function_name (batch_data r.2)
    = pending_of function_name (batch_data w) ++ [e]
  ∧ (∀ k, k ≠ function_name →
       pending_of k (batch_data r.2) = pending_of k (batch_data w))
  ∧ (batch_data r.2).*1
    = if decide (function_name ∈ (batch_data w).*1) then (batch_data w).*1
      else (batch_data w).*1 ++ [function_name].
Proof.
  intros Hnd e r. subst r. unfold add_data_to_batch. simpl.
  do 3 (split; [done|]). split; [|split; [|split]].
  - rewrite batch_append_keys. case_decide; [done|].
    apply NoDup_app. split; [done|]. split; [|apply NoDup_singleton].
    intros k Hk ->%list_elem_of_singleton. done.
  - by apply pending_of_append_same.
  - intros k Hk. by apply pending_of_append_other.
  - apply batch_append_keys.
Qed.

Lemma add_data_to_batch_appends_witness :
  let w := (add_data_to_batch "Summary" {| cell_col := 65; cell_row := 16 |}
              (VStr "Power Ranking") "power_ranking"
              Examples.fresh_world).2 in
  let r := add_data_to_batch "Summary" {| cell_col := 66; cell_row := 16 |}
             (VNum (Examples.whole 10)) "power_ranking" w in
  length (pending_of "power_ranking" (batch_data r.2)) = 2%nat
  ∧ (batch_data r.2).*1 = ["power_ranking"].
Proof.
  intros w r.
  assert (Hnd : NoDup (batch_data w).*1)
    by (simpl; apply NoDup_singleton).
  destruct (add_data_to_batch_appends "Summary"
              {| cell_col := 66; cell_row := 16 |} (VNum (Examples.whole 10))
              "power_ranking"
              w Hnd) as (_ & _ & _ & _ & Hp & _ & Hk).
  subst r. split; [rewrite Hp | rewrite Hk]; reflexivity.
Defined.

(** X2.  Whatever is staged by a sequence of [add_data_to_batch] calls is
    sent by the next [write_batch], once, together with what was pending
    before, in one request; the manager is then empty and a further
    [write_batch] sends an empty request. *)
Theorem staged_writes_are_flushed_once (xs : list Staging) (w : World) :
  let r := (foldW (λ _ x, stage x) () xs ≫= λ _, write_batch) w in
  batch_data r.2 = []
  ∧ ∃ bulk, requests r.2 = requests w ++ [bulk]
      ∧ bulk ≡ₚ batch_values_of (batch_data w) ++ (staged_write <$> xs)
      ∧ requests (write_batch r.2).2 = requests w ++ [bulk; []].
Proof.
  assert (Hst : stages (foldW (λ _ x, stage x) () xs) w ()
                       (staged_write <$> xs)).
  { replace (staged_write <$> xs) with (flat_map (λ x, [staged_write x]) xs)
      by (induction xs as [|x xs IH]; [done | simpl; by rewrite IH]).
    replace () with (foldl (λ (u : ()) (_ : Staging), u) () xs) at 2
      by (by destruct (foldl _ () xs)).
    apply stages_foldW. intros [] x w' _. apply stages_add. }
  destruct (stages_then_write_batch _ _ _ _ Hst) as (Hbd & bulk & Hreq & Hp & _).
  cbv zeta. split; [done|]. exists bulk. split; [done|]. split; [done|].
  destruct (write_batch_effect ((foldW (λ _ x, stage x) () xs
                                   ≫= λ _, write_batch) w).2) as (Hreq2 & _).
  rewrite Hreq2, Hbd, Hreq, <- app_assoc. reflexivity.
Qed.

(** ** More on the extraction *)

Lemma get_teams_data_elem fl week_option teams_data t :
  get_teams_data fl week_option = Ok teams_data → t ∈ teams_data →
  ∃ i, list_index (team t) (teams (league fl)) = Ok i
       ∧ index_column t = (i + 1)%nat
       ∧ additional_data t = no_additional_data.
Proof.
  rewrite get_teams_data_forM, forM_ok. intros H Hin.
  apply list_elem_of_lookup in Hin as [k Hk].
  destruct (Forall2_lookup_r _ _ _ _ _ H Hk) as (s & _ & Hs).
  apply snapshot_ok in Hs as (i & Hi & ->). simpl. eauto.
Qed.

(** X3.  The column identifies the team, in one week and across weeks:
    two snapshots extracted from the same league, for any two weeks, have
    the same [index_column] exactly when they are snapshots of the same
    team. *)
Theorem index_column_identifies_team (fl : FantasyFootballLeague)
    (week1 week2 : option nat) (teams_data1 teams_data2 : list TeamData)
    (t1 t2 : TeamData) :
  get_teams_data fl week1 = Ok teams_data1 →
  get_teams_data fl week2 = Ok teams_data2 →
  t1 ∈ teams_data1 → t2 ∈ teams_data2 →
  index_column t1 = index_column t2 ↔ team t1 = team t2.
Proof.
  intros H1 H2 Hin1 Hin2.
  destruct (get_teams_data_elem _ _ _ _ H1 Hin1) as (i1 & Hi1 & Hc1 & _).
  destruct (get_teams_data_elem _ _ _ _ H2 Hin2) as (i2 & Hi2 & Hc2 & _).
  split.
  - intros Hc. assert (i1 = i2) as -> by lia.
    apply list_index_ok in Hi1 as [Hl1 _]. apply list_index_ok in Hi2 as [Hl2 _].
    congruence.
  - intros Ht. rewrite Ht in Hi1. rewrite Hi1 in Hi2. injection Hi2 as ->. lia.
Qed.

Lemma index_column_identifies_team_witness :
  ∃ td1 td2 t1 t2,
    get_teams_data Examples.fl_AB (Some 1%nat) = Ok td1
    ∧ get_teams_data Examples.fl_AB (Some 2%nat) = Ok td2
    ∧ td1 !! 0%nat = Some t1 ∧ td2 !! 0%nat = Some t2
    ∧ lineup t1 ≠ lineup t2
    ∧ index_column t1 = index_column t2.
Proof.
  eexists _, _, _, _. split; [vm_compute; reflexivity|].
  split; [vm_compute; reflexivity|].
  split; [reflexivity|]. split; [reflexivity|].
  split; [vm_compute; discriminate|].
  eapply (index_column_identifies_team Examples.fl_AB (Some 1%nat) (Some 2%nat)).
  - vm_compute. reflexivity.
  - vm_compute. reflexivity.
  - apply list_elem_of_here.
  - apply list_elem_of_here.
  - reflexivity.
Defined.

Lemma sides_lookup (bs : list Matchup) k m :
  bs !! k = Some m →
  sides bs !! (2 * k)%nat = Some (home, m)
  ∧ sides bs !! (2 * k + 1)%nat = Some (away, m).
Proof.
  revert k. induction bs as [|m' bs IH]; intros k Hk; [done|].
  destruct k as [|k].
  - injection Hk as ->. done.
  - simpl in Hk. destruct (IH k Hk) as [Hh Ha].
    change (sides (m' :: bs)) with ((home, m') :: (away, m') :: sides bs).
    replace (2 * S k)%nat with (S (S (2 * k))) by lia.
    replace (S (S (2 * k)) + 1)%nat with (S (S (2 * k + 1))) by lia.
    done.
Qed.

Lemma length_sides (bs : list Matchup) : length (sides bs) = (2 * length bs)%nat.
Proof.
  induction bs as [|m bs IH]; [done|].
  change (sides (m :: bs)) with ((home, m) :: (away, m) :: sides bs).
  simpl in *. lia.
Qed.

(** X4.  A successful extraction returns two snapshots per box score of
    the week, the home side then the away side, in the order of the box
    scores; each carries its side's team, lineup, projected and actual
    score, and no derived metric yet. *)
Theorem get_teams_data_two_per_matchup (fl : FantasyFootballLeague)
    (week_option : option nat) (teams_data : list TeamData) :
  get_teams_data fl week_option = Ok teams_data →
  length teams_data = (2 * length (week_box_scores fl week_option))%nat
  ∧ ∀ k m, week_box_scores fl week_option !! k = Some m →
      ∃ h a,
        teams_data !! (2 * k)%nat = Some h
        ∧ teams_data !! (2 * k + 1)%nat = Some a
        ∧ team h = home_team m ∧ lineup h = home_lineup m
        ∧ projected h = home_projected m ∧ score h = home_score m
        ∧ additional_data h = no_additional_data
        ∧ team a = away_team m ∧ lineup a = away_lineup m
        ∧ projected a = away_projected m ∧ score a = away_score m
        ∧ additional_data a = no_additional_data.
Proof.
  rewrite get_teams_data_forM. intros H. split.
  { by rewrite (forM_length _ _ _ H), length_sides. }
  intros k m Hk. destruct (sides_lookup _ _ _ Hk) as [Hh Ha].
  destruct (forM_lookup _ _ _ _ _ H Hh) as (h & Hlh & Hsh).
  destruct (forM_lookup _ _ _ _ _ H Ha) as (a & Hla & Hsa).
  apply snapshot_ok in Hsh as (i & _ & ->).
  apply snapshot_ok in Hsa as (j & _ & ->).
  eexists _, _. split; [exact Hlh|]. split; [exact Hla|]. simpl. done.
Qed.

Lemma get_teams_data_two_per_matchup_witness :
  ∃ teams_data,
    get_teams_data Examples.fl_ABCD None = Ok teams_data
    ∧ length teams_data = 4%nat.
Proof.
  eexists. split; [vm_compute; reflexivity|].
  refine (proj1 (get_teams_data_two_per_matchup Examples.fl_ABCD None _ _)).
  vm_compute. reflexivity.
Defined.

(** ** Power ranking per snapshot *)

Lemma ranking_of_snoc (rankings : list (double * Team)) (r : double * Team)
    (tm : Team) :
  ranking_of (rankings ++ [r]) tm
  = if decide (r.2 = tm) then Some r.1 else ranking_of rankings tm.
Proof.
  unfold ranking_of. rewrite omap_app. simpl.
  destruct (decide (r.2 = tm)); simpl.
  - apply last_snoc.
  - by rewrite app_nil_r.
Qed.

Lemma attach_rankings_spec (rankings : list (double * Team))
    (teams_data : list TeamData) :
  (∀ t, t ∈ teams_data → get_power_ranking t = None) →
  foldl attach_ranking teams_data rankings
  = (λ t, set_ranking (ranking_of rankings (team t)) t) <$> teams_data.
Proof.
  intros Hfresh. induction rankings as [|r rankings IH] using rev_ind.
  - simpl. symmetry. apply list_fmap_id.
  - rewrite foldl_app. simpl. rewrite IH. unfold attach_ranking.
    rewrite <- list_fmap_compose. apply list_fmap_ext.
    intros i t Ht. simpl. rewrite ranking_of_snoc.
    assert (Hteam : team (set_ranking (ranking_of rankings (team t)) t) = team t)
      by (by destruct (ranking_of rankings (team t))).
    rewrite Hteam. destruct (decide (r.2 = team t)); [|done].
    by destruct (ranking_of rankings (team t)).
Qed.

(** X5.  [power_ranking_per_player] joins the provider's rankings to the
    week's snapshots by team: every snapshot keeps its team, lineup, column
    and scores, and gets the ranking of the last entry of the provider's
    list that names its team; a snapshot whose team no entry names has no
    ranking. *)
Theorem power_ranking_joined_by_team (fl : FantasyFootballLeague)
    (week_arg : option nat) (teams_data : list TeamData) :
  let wk := default (week fl) (truthy week_arg) in
  get_teams_data fl (Some wk) = Ok teams_data →
  ∃ out,
    power_ranking_per_player fl week_arg = Ok out
    ∧ length out = length teams_data
    ∧ ∀ i t, teams_data !! i = Some t →
        ∃ t', out !! i = Some t'
          ∧ team t' = team t ∧ lineup t' = lineup t
          ∧ index_column t' = index_column t
          ∧ projected t' = projected t ∧ score t' = score t
          ∧ get_power_ranking t'
            = ranking_of (power_rankings (league fl) wk) (team t).
Proof.
  intros wk Hget. unfold power_ranking_per_player. fold wk. rewrite Hget.
  eexists. split; [reflexivity|].
  rewrite attach_rankings_spec.
  - split; [by rewrite length_fmap|]. intros i t Ht.
    eexists. split; [by rewrite list_lookup_fmap, Ht|].
    assert (Hfresh : get_power_ranking t = None).
    { unfold get_power_ranking.
      erewrite get_teams_data_fresh; [done | exact Hget |].
      apply list_elem_of_lookup. eauto. }
    destruct (ranking_of (power_rankings (league fl) wk) (team t)); simpl; done.
  - intros t Hin. unfold get_power_ranking.
    by erewrite get_teams_data_fresh.
Qed.

Lemma power_ranking_joined_by_team_witness :
  ∃ out t',
    power_ranking_per_player Examples.fl_ABCD None = Ok out
    ∧ out !! 3%nat = Some t'
    ∧ get_power_ranking t' = Some (Examples.cents 1001).
Proof.
  destruct (power_ranking_joined_by_team Examples.fl_ABCD None _ eq_refl)
    as (out & Hout & _ & H).
  destruct (H 3%nat _ eq_refl) as (t' & Ht' & _ & _ & _ & _ & _ & Hr).
  exists out, t'. split; [exact Hout|]. split; [exact Ht'|].
  rewrite Hr. vm_compute. reflexivity.
Defined.

(** ** Order of the averages table *)

Lemma average_entries_positions sc wk (lu : list Player) (positions : list string) :
  (average_entries sc wk lu positions).*1
  = filter (λ pos, (0 < length (matching pos sc lu))%nat) positions.
Proof.
  unfold average_entries. induction positions as [|pos positions IH]; [done|].
  rewrite omap_cons, filter_cons. unfold average_value at 1.
  destruct (0 <? length (matching pos sc lu))%nat eqn:E.
  - apply Nat.ltb_lt in E. rewrite decide_True by done.
    simpl. by rewrite <- IH.
  - apply Nat.ltb_ge in E. rewrite decide_False by lia. exact IH.
Qed.

Lemma add_averages_other_metrics es t :
  percentage_per_position (additional_data (add_averages es t))
  = percentage_per_position (additional_data t)
  ∧ power_ranking (additional_data (add_averages es t))
    = power_ranking (additional_data t).
Proof.
  revert t. induction es as [|e es IH]; intros t; [done|].
  unfold add_averages. cbn [foldl].
  fold (add_averages es (add_average_score_per_player e.1 e.2 t)).
  destruct (IH (add_average_score_per_player e.1 e.2 t)) as [-> ->]. done.
Qed.

(** X6.  After the average-points transform, the positions of a team's
    averages table are the requested positions that have at least one
    matching non-excluded entry in its lineup, in the order requested; the
    table is absent exactly when no requested position has one; the
    team's other metrics stay unset. *)
Theorem average_table_in_request_order (fl : FantasyFootballLeague)
    (positions sc : list string) (week_arg : option nat)
    (teams_data : list TeamData) :
  get_teams_data fl (truthy week_arg) = Ok teams_data →
  ∃ out,
    average_points_per_player fl positions sc week_arg = Ok out
    ∧ ∀ i t, teams_data !! i = Some t →
        ∃ t', out !! i = Some t'
          ∧ let present :=
              filter (λ pos, (0 < length (matching pos sc (lineup t)))%nat)
                     positions in
            (table_entries (get_average_score_per_player t')).*1 = present
            ∧ (get_average_score_per_player t' = None ↔ present = [])
            ∧ get_percentage_per_position t' = None
            ∧ get_power_ranking t' = None.
Proof.
  intros Hget. rewrite average_points_per_player_spec, Hget.
  eexists. split; [reflexivity|].
  intros i t Ht. eexists. split; [by rewrite list_lookup_fmap, Ht|].
  assert (Hfresh : additional_data t = no_additional_data).
  { eapply get_teams_data_fresh; [exact Hget|].
    apply list_elem_of_lookup. eauto. }
  set (wk := default (week fl) (truthy week_arg)).
  destruct (with_averages_fresh positions sc wk t Hfresh) as (_ & _ & _ & Htab).
  destruct (add_averages_fields (average_entries sc wk (lineup t) positions) t)
    as (_ & _ & _ & _ & Hnone).
  cbv zeta. rewrite Htab, average_entries_positions. split; [done|].
  split; [|split].
  - unfold with_averages. rewrite Hnone.
    rewrite <- (average_entries_positions sc wk).
    unfold get_average_score_per_player. rewrite Hfresh. simpl.
    split.
    + intros [_ ->]. done.
    + intros H. split; [done|]. by apply fmap_nil_inv in H.
  - unfold with_averages, get_percentage_per_position.
    by rewrite (proj1 (add_averages_other_metrics _ t)), Hfresh.
  - unfold with_averages, get_power_ranking.
    by rewrite (proj2 (add_averages_other_metrics _ t)), Hfresh.
Qed.

Lemma average_table_in_request_order_witness :
  ∃ out t',
    average_points_per_player Examples.fl_AB ["WR"; "TE"; "QB"] ["BE"]
      (Some 1%nat) = Ok out
    ∧ out !! 0%nat = Some t'
    ∧ (table_entries (get_average_score_per_player t')).*1 = ["WR"; "QB"].
Proof.
  destruct (average_table_in_request_order Examples.fl_AB ["WR"; "TE"; "QB"]
              ["BE"] (Some 1%nat) _ eq_refl) as (out & Hout & H).
  destruct (H 0%nat _ eq_refl) as (t' & Ht' & Hord & _).
  exists out, t'. split; [exact Hout|]. split; [exact Ht'|].
  rewrite Hord. vm_compute. reflexivity.
Defined.

(** ** Rows of the single-week report *)

Lemma stages_foldW_forM {A B C} (f : A → B → M A) (val : B → result C)
    (g : A → C → A) (h : B → C → list BatchValue) (l : list B) (a : A)
    (w : World) :
  (∀ a x w c, x ∈ l → val x = Ok c → stages (f a x) w (g a c) (h x c)) →
  (∀ a x w e, x ∈ l → val x = Raise e → fails (f a x) w e) →
  match forM val l with
  | Ok cs => stages (foldW f a l) w (foldl g a cs) (concat (zip_with h l cs))
  | Raise e => fails (foldW f a l) w e
  end.
Proof.
  revert a w. induction l as [|x l IH]; intros a w Hok Hraise.
  - simpl. apply stages_ret.
  - cbn [forM foldW].
    destruct (val x) as [c|e] eqn:Ex; cbn [mbind result_bind].
    + specialize (IH (g a c)).
      destruct (forM val l) as [cs|e]; cbn [mbind result_bind].
      * cbn [foldl zip_with concat]. eapply stages_bind.
        -- apply Hok; [left | done].
        -- intros w'. apply IH; intros; [apply Hok | apply Hraise];
             try done; by right.
      * eapply fails_bind_r.
        -- apply Hok; [left | done].
        -- intros w'. apply IH; intros; [apply Hok | apply Hraise];
             try done; by right.
    + apply fails_bind_l. apply Hraise; [left | done].
Qed.

Lemma forM_id_ok {A B} (f : A → B) (l : list A) :
  forM (λ x, Ok (f x)) l = Ok (f <$> l).
Proof. by apply forM_pure. Qed.

Lemma foldl_add_fmap {A} (f : A → double) (l : list A) (a : double) :
  foldl (λ acc x, Num.add acc (f x)) a l = foldl Num.add a (f <$> l).
Proof. revert a. induction l as [|x l IH]; intros a; [done|]. simpl. apply IH. Qed.

(** The league-average cell of a row: the running sum over the number of
    teams, which is the mean of the row's values. *)
Lemma league_average_div (vs : list double) (n : nat) :
  (0 < n)%nat →
  ∃ q, Num.div_int (foldl Num.add Num.zero vs) n = Ok q
       ∧ q = Num.quot (Num.sum vs) (Num.of_nat n)
       ∧ Num.round2 q = Num.round2 (Num.quot (Num.sum vs) (Num.of_nat n)).
Proof.
  intros Hn. rewrite div_int_pos by done. eexists. split; [reflexivity|].
  done.
Qed.

Lemma league_average_div_zero (x : double) :
  Num.div_int x 0 = Raise ZeroDivisionError.
Proof. reflexivity. Qed.

Lemma addressable_cell teams_data t row :
  addressable teams_data → t ∈ teams_data →
  cell_at (index_column t) row
  = Ok {| cell_col := ord_A + index_column t; cell_row := row |}.
Proof.
  intros [_ Hall] Hin. apply cell_at_ok.
  rewrite Forall_forall in Hall. by apply Hall.
Qed.

Lemma addressable_average_cell (teams_data : list TeamData) row :
  addressable teams_data →
  cell_at (length teams_data + 1) row
  = Ok {| cell_col := ord_A + (length teams_data + 1); cell_row := row |}.
Proof. intros [Hlen _]. apply cell_at_ok. lia. Qed.

(** The extracted snapshots of a league of addressable size are
    addressable. *)
Lemma get_teams_data_addressable fl week_option teams_data :
  get_teams_data fl week_option = Ok teams_data →
  (N.of_nat (length (teams (league fl))) <= 1114046)%N →
  (N.of_nat (length teams_data) < 1114046)%N →
  addressable teams_data.
Proof.
  intros Hget Hteams Hlen. split; [done|].
  eapply Forall_impl; [by eapply get_teams_data_index_bound|].
  simpl. intros t Ht. lia.
Qed.

Lemma team_cells_fmap {A} sh row (col : A → nat) (val : A → double)
    (l : list A) :
  concat (zip_with (λ x v, [cell_write sh (ord_A + col x) row (VNum v)])
                   l (val <$> l))
  = team_cells sh row (col <$> l) (val <$> l).
Proof.
  unfold team_cells. induction l as [|x l IH]; [done|].
  rewrite !fmap_cons. cbn [zip_with concat app]. by rewrite IH.
Qed.

Lemma team_cells_zip sh row (l : list TeamData) (vs : list double) :
  concat (zip_with (λ t v, [cell_write sh (ord_A + index_column t) row (VNum v)])
                   l vs)
  = team_cells sh row (index_column <$> l) vs.
Proof.
  unfold team_cells. revert vs. induction l as [|x l IH]; intros [|v vs]; try done.
  rewrite fmap_cons. cbn [zip_with concat app]. by rewrite IH.
Qed.

Lemma sends_write_batch (w : World) : sends write_batch w [].
Proof.
  destruct (write_batch_effect w) as (Hreq & Hbd & _).
  split; [done|]. exists (batch_values_of (batch_data w)).
  split; [done|]. split; [by rewrite app_nil_r|].
  unfold write_batch. by destruct (service w (requests w) _).
Qed.

Lemma sends_bind {A} (m : M A) (f : A → M ()) (w : World) a ws1 ws2 :
  stages m w a ws1 → (∀ w', sends (f a) w' ws2) →
  sends (m ≫= f) w (ws1 ++ ws2).
Proof.
  intros (w1 & Hm & Hs & Hr & _ & Hb) Hf.
  destruct (Hf w1) as (Hbd & bulk & Hreq & Hp & Hres).
  unfold sends. rewrite M_bind_unfold, Hm. split; [done|].
  exists bulk. rewrite <- Hr, <- Hs. split; [done|].
  split; [by rewrite Hp, Hb, app_assoc | done].
Qed.

Lemma fails_run {A} (m : M A) (w : World) e :
  fails m w e → (m w).1 = Raise e ∧ requests (m w).2 = requests w.
Proof. intros (w' & -> & _ & Hr). done. Qed.

(** ** The projection-delta row *)

Lemma projection_value_delta (t : TeamData) :
  Num.round2 (Num.sub (score t) (projected t)) = projection_delta t.
Proof. reflexivity. Qed.

Lemma write_team_projection_stages sh row acc t (w : World) :
  cell_at (index_column t) row
  = Ok {| cell_col := ord_A + index_column t; cell_row := row |} →
  stages (write_team_projection sh row acc t) w
         (Num.add acc (projection_delta t))
         [cell_write sh (ord_A + index_column t) row (VNum (projection_delta t))].
Proof.
  intros Hcell. unfold write_team_projection.
  rewrite projection_value_delta.
  change [cell_write sh (ord_A + index_column t) row (VNum (projection_delta t))]
    with ([] ++ [cell_write sh (ord_A + index_column t) row
                   (VNum (projection_delta t))] ++ []).
  eapply stages_bind; [by apply stages_lift|]. intros w1.
  eapply stages_bind; [apply stages_add|]. intros w2.
  apply stages_ret.
Qed.

(** X8.  [get_and_write_over_under_projection] sends one request with the
    row's label in column A, [round(score - projected, 2)] of every
    snapshot in the column of its [index_column], and the mean of these
    written values, rounded to 2 decimals, in the column after as many
    columns as there are snapshots.  For a week without box scores it
    raises [ZeroDivisionError] and sends nothing. *)
Theorem over_under_projection_row (fl : FantasyFootballLeague) (sh : string)
    (index_row : nat) (w : World) (teams_data : list TeamData) :
  get_teams_data fl None = Ok teams_data →
  addressable teams_data →
  let m := get_and_write_over_under_projection fl sh index_row in
  let deltas := projection_delta <$> teams_data in
  match teams_data with
  | [] => (m w).1 = Raise ZeroDivisionError ∧ requests (m w).2 = requests w
  | _ :: _ =>
      sends m w (metric_row sh index_row "Over/Under Projection"
                   (index_column <$> teams_data) deltas (league_mean deltas))
  end.
Proof.
  intros Hget Haddr m deltas. subst m.
  unfold get_and_write_over_under_projection.
  assert (Hloop : ∀ w', stages (foldW (write_team_projection sh index_row)
                                  Num.zero teams_data) w'
                          (foldl Num.add Num.zero deltas)
                          (team_cells sh index_row (index_column <$> teams_data)
                                      deltas)).
  { intros w'. subst deltas. rewrite <- foldl_add_fmap.
    rewrite <- (team_cells_fmap sh index_row index_column projection_delta).
    pose proof (stages_foldW_forM (write_team_projection sh index_row)
                  (λ t, Ok (projection_delta t)) Num.add
                  (λ t v, [cell_write sh (ord_A + index_column t) index_row
                             (VNum v)]) teams_data Num.zero w') as H.
    rewrite forM_id_ok, <- foldl_add_fmap in H. apply H.
    - intros a t w'' c Hin [= <-]. apply write_team_projection_stages.
      by eapply addressable_cell.
    - intros a t w'' e _ [=]. }
  assert (Hn : teams_data ≠ [] → (0 < length teams_data)%nat)
    by (destruct teams_data; [done | simpl; lia]).
  destruct teams_data as [|t0 teams_data'].
  - apply fails_run. eapply fails_bind_r; [by apply stages_lift|]. intros w1.
    eapply fails_bind_r; [apply stages_add|]. intros w2.
    eapply fails_bind_r; [apply Hloop|]. intros w3.
    eapply fails_bind_r; [by apply stages_lift|]. intros w4.
    apply fails_bind_l. by apply fails_lift.
  - cbv beta iota. specialize (Hn ltac:(done)).
    set (teams_data := t0 :: teams_data') in *. clearbody teams_data.
    destruct (league_average_div deltas (length teams_data) Hn)
      as (q & Hq & _ & Hround).
    unfold metric_row.
    change (cell_write sh ord_A index_row (VStr "Over/Under Projection")
            :: team_cells sh index_row (index_column <$> teams_data) deltas
            ++ [cell_write sh (ord_A + (length (index_column <$> teams_data) + 1))
                  index_row (VNum (league_mean deltas))])
      with ([] ++ [cell_write sh ord_A index_row (VStr "Over/Under Projection")]
            ++ team_cells sh index_row (index_column <$> teams_data) deltas
            ++ [] ++ []
            ++ [cell_write sh (ord_A + (length (index_column <$> teams_data) + 1))
                  index_row (VNum (league_mean deltas))] ++ []).
    eapply sends_bind; [by apply stages_lift|]. intros w1.
    eapply sends_bind; [apply stages_add|]. intros w2.
    eapply sends_bind; [apply Hloop|]. intros w3.
    eapply sends_bind;
      [apply stages_lift; by apply addressable_average_cell|]. intros w4.
    eapply sends_bind; [by apply stages_lift|]. intros w5.
    eapply sends_bind; [|intros w6; apply sends_write_batch].
    rewrite length_fmap. unfold league_mean. subst deltas.
    rewrite length_fmap, <- Hround. apply stages_add.
Qed.

Lemma addressable_sample :
  addressable
    (match get_teams_data Examples.fl_AB None with
     | Ok l => l
     | Raise _ => []
     end).
Proof.
  split; [vm_compute; reflexivity|].
  repeat constructor; vm_compute; discriminate.
Qed.

Lemma addressable_decimal_sample :
  addressable
    (match get_teams_data Examples.fl_EF None with
     | Ok l => l
     | Raise _ => []
     end).
Proof.
  split; [vm_compute; reflexivity|].
  repeat constructor; vm_compute; discriminate.
Qed.

(** Scores of 10.01 and 10.02 against projections of 10.0: Python writes
    0.01 and 0.02, and 0.01 for their mean. *)
Lemma over_under_projection_row_witness :
  ∃ ws,
    sends (get_and_write_over_under_projection Examples.fl_EF "Week 1" 18)
          Examples.fresh_world ws
    ∧ values <$> ws
      = [VStr "Over/Under Projection"; VNum (Examples.cents 1);
         VNum (Examples.cents 2); VNum (Examples.cents 1)].
Proof.
  pose proof (over_under_projection_row Examples.fl_EF "Week 1" 18
                Examples.fresh_world _ eq_refl
                addressable_decimal_sample) as H.
  eexists. split; [exact H|]. vm_compute. reflexivity.
Defined.

(** ** The power-ranking row *)

Lemma power_ranking_per_player_spec (fl : FantasyFootballLeague)
    (week_arg : option nat) (teams_data : list TeamData) :
  let wk := default (week fl) (truthy week_arg) in
  get_teams_data fl (Some wk) = Ok teams_data →
  power_ranking_per_player fl week_arg
  = Ok ((λ t, set_ranking (ranking_of (power_rankings (league fl) wk) (team t)) t)
          <$> teams_data).
Proof.
  intros wk Hget. unfold power_ranking_per_player. fold wk. rewrite Hget.
  cbn [mbind result_bind]. f_equal. apply attach_rankings_spec.
  intros t Hin. unfold get_power_ranking. by erewrite get_teams_data_fresh.
Qed.

Lemma set_ranking_fields o t :
  additional_data t = no_additional_data →
  team (set_ranking o t) = team t
  ∧ lineup (set_ranking o t) = lineup t
  ∧ index_column (set_ranking o t) = index_column t
  ∧ projected (set_ranking o t) = projected t
  ∧ score (set_ranking o t) = score t
  ∧ get_power_ranking (set_ranking o t) = o.
Proof.
  intros Hfresh. destruct o; simpl; [done|].
  unfold get_power_ranking. by rewrite Hfresh.
Qed.

Lemma write_team_ranking_stages sh row acc t r (w : World) :
  cell_at (index_column t) row
  = Ok {| cell_col := ord_A + index_column t; cell_row := row |} →
  ranking_value t = Ok r →
  stages (write_team_ranking sh row acc t) w (Num.add acc r)
         [cell_write sh (ord_A + index_column t) row (VNum r)].
Proof.
  intros Hcell Hr. unfold write_team_ranking.
  change [cell_write sh (ord_A + index_column t) row (VNum r)]
    with ([] ++ [] ++ [cell_write sh (ord_A + index_column t) row (VNum r)] ++ []).
  eapply stages_bind; [by apply stages_lift|]. intros w1.
  eapply stages_bind; [by apply stages_lift|]. intros w2.
  eapply stages_bind; [apply stages_add|]. intros w3.
  apply stages_ret.
Qed.

Lemma write_team_ranking_fails sh row acc t e (w : World) :
  cell_at (index_column t) row
  = Ok {| cell_col := ord_A + index_column t; cell_row := row |} →
  ranking_value t = Raise e →
  fails (write_team_ranking sh row acc t) w e.
Proof.
  intros Hcell Hr. unfold write_team_ranking.
  eapply fails_bind_r; [by apply stages_lift|]. intros w1.
  apply fails_bind_l. by apply fails_lift.
Qed.

(** X9.  [get_and_write_power_ranking] needs a ranking for every snapshot
    of the week: if the provider's rankings name no entry for the team of
    some snapshot, it raises [TypeError] and sends nothing.  Otherwise, for
    a week with box scores, it sends one request with the label in column
    A, each snapshot's ranking in the column of its [index_column], and
    the mean of the rankings, not rounded, in the column after as many
    columns as there are snapshots. *)
Theorem power_ranking_row (fl : FantasyFootballLeague) (sh : string)
    (index_row : nat) (w : World) (teams_data : list TeamData) :
  get_teams_data fl (Some (week fl)) = Ok teams_data →
  addressable teams_data →
  let m := get_and_write_power_ranking fl sh index_row in
  let rk t := ranking_of (power_rankings (league fl) (week fl)) (team t) in
  ((∃ t, t ∈ teams_data ∧ rk t = None) →
     (m w).1 = Raise TypeError ∧ requests (m w).2 = requests w)
  ∧ ((∀ t, t ∈ teams_data → is_Some (rk t)) → teams_data ≠ [] →
     let rs := (λ t, default Num.zero (rk t)) <$> teams_data in
     sends m w (metric_row sh index_row "Power Ranking"
                  (index_column <$> teams_data) rs
                  (Num.quot (Num.sum rs) (Num.of_nat (length teams_data))))).
Proof.
  intros Hget Haddr m rk. subst m. unfold get_and_write_power_ranking.
  rewrite (power_ranking_per_player_spec fl None teams_data Hget).
  cbn [default truthy]. fold rk.
  set (out := (λ t, set_ranking (rk t) t) <$> teams_data).
  assert (Hfields : ∀ t, t ∈ teams_data →
            index_column (set_ranking (rk t) t) = index_column t
            ∧ ranking_value (set_ranking (rk t) t) = float (rk t)).
  { intros t Hin.
    destruct (set_ranking_fields (rk t) t) as (_ & _ & Hc & _ & _ & Hr).
    - by eapply get_teams_data_fresh.
    - unfold ranking_value. by rewrite Hr. }
  assert (Hcell : ∀ t' row, t' ∈ out →
            cell_at (index_column t') row
            = Ok {| cell_col := ord_A + index_column t'; cell_row := row |}).
  { intros t' row Hin. apply list_elem_of_fmap in Hin as (t & -> & Hin).
    destruct (Hfields t Hin) as [-> _]. by eapply addressable_cell. }
  pose proof (λ w', stages_foldW_forM (write_team_ranking sh index_row)
                ranking_value Num.add
                (λ t v, [cell_write sh (ord_A + index_column t) index_row
                           (VNum v)]) out Num.zero w'
                (λ a t w'' c Hin Hv,
                   write_team_ranking_stages sh index_row a t c w''
                     (Hcell t index_row Hin) Hv)
                (λ a t w'' e Hin Hv,
                   write_team_ranking_fails sh index_row a t e w''
                     (Hcell t index_row Hin) Hv)) as Hloop.
  split.
  - intros (t & Hin & Hnone). apply fails_run.
    eapply fails_bind_r; [by apply stages_lift|]. intros w1.
    eapply fails_bind_r; [apply stages_add|]. intros w2.
    apply fails_bind_l. specialize (Hloop w2).
    destruct (forM ranking_value out) as [rs|e] eqn:E.
    + exfalso. apply list_elem_of_lookup in Hin as [i Hi].
      assert (Ho : out !! i = Some (set_ranking (rk t) t))
        by (subst out; by rewrite list_lookup_fmap, Hi).
      destruct (forM_lookup _ _ _ _ _ E Ho) as (r & _ & Hr).
      destruct (Hfields t) as [_ Hv]; [apply list_elem_of_lookup; eauto|].
      rewrite Hv, Hnone in Hr. discriminate Hr.
    + apply forM_raise in E as (t' & _ & Ht').
      unfold ranking_value, float in Ht'.
      destruct (get_power_ranking t'); [discriminate|].
      injection Ht' as <-. exact Hloop.
  - intros Hall Hne.
    set (rs := (λ t, default Num.zero (rk t)) <$> teams_data).
    assert (Hrs : forM ranking_value out = Ok rs).
    { subst out rs. apply forM_ok. apply Forall2_fmap, Forall2_lookup.
      intros i. destruct (teams_data !! i) as [t|] eqn:Et; constructor.
      destruct (Hfields t) as [_ ->]; [apply list_elem_of_lookup; eauto|].
      destruct (Hall t) as [r Hr]; [apply list_elem_of_lookup; eauto|].
      by rewrite Hr. }
    assert (Hn : (0 < length teams_data)%nat)
      by (destruct teams_data; [done | simpl; lia]).
    destruct (league_average_div rs (length teams_data) Hn)
      as (q & Hq & -> & _).
    assert (Hcols : index_column <$> out = index_column <$> teams_data).
    { subst out. rewrite <- list_fmap_compose. apply list_fmap_ext.
      intros i t Ht. simpl. apply Hfields. apply list_elem_of_lookup. eauto. }
    unfold metric_row.
    change (cell_write sh ord_A index_row (VStr "Power Ranking")
            :: team_cells sh index_row (index_column <$> teams_data) rs
            ++ [cell_write sh (ord_A + (length (index_column <$> teams_data) + 1))
                  index_row
                  (VNum (Num.quot (Num.sum rs) (Num.of_nat (length teams_data))))])
      with ([] ++ [cell_write sh ord_A index_row (VStr "Power Ranking")]
            ++ team_cells sh index_row (index_column <$> teams_data) rs
            ++ [] ++ []
            ++ [cell_write sh (ord_A + (length (index_column <$> teams_data) + 1))
                  index_row
                  (VNum (Num.quot (Num.sum rs) (Num.of_nat (length teams_data))))]
            ++ []).
    assert (Hlen : length out = length teams_data)
      by (subst out; by rewrite length_fmap).
    eapply sends_bind; [by apply stages_lift|]. intros w1.
    eapply sends_bind; [apply stages_add|]. intros w2.
    eapply sends_bind.
    { specialize (Hloop w2). rewrite Hrs, team_cells_zip, Hcols in Hloop.
      exact Hloop. }
    intros w3.
    eapply sends_bind.
    { apply stages_lift. rewrite length_fmap.
      apply addressable_average_cell, Haddr. }
    intros w4.
    eapply sends_bind; [apply stages_lift; rewrite length_fmap; exact Hq|].
    intros w5.
    eapply sends_bind; [|intros w6; apply sends_write_batch].
    rewrite length_fmap. apply stages_add.
Qed.

Lemma power_ranking_row_witness :
  ∃ ws,
    sends (get_and_write_power_ranking Examples.fl_AB "Week 1" 16)
          Examples.fresh_world ws
    ∧ values <$> ws
      = [VStr "Power Ranking"; VNum (Examples.whole 10);
         VNum (Examples.whole 12); VNum (Examples.whole 11)].
Proof.
  destruct (power_ranking_row Examples.fl_AB "Week 1" 16
              Examples.fresh_world _ eq_refl addressable_sample) as [_ H].
  eexists. split.
  - apply H; [|discriminate].
    intros t Hin. apply list_elem_of_In in Hin.
    destruct Hin as [<-|[<-|[]]]; vm_compute; eauto.
  - vm_compute. reflexivity.
Defined.

(** ** Rows read from the metric tables *)

Lemma entry_value_ok get post pi t v :
  entry_value get post pi t = Ok v →
  ∃ tbl e, get t = Some tbl ∧ tbl !! pi = Some e ∧ v = post e.2.
Proof.
  unfold entry_value, as_list, getitem. intros H.
  destruct (get t) as [tbl|]; [|discriminate]. simpl in H.
  destruct (tbl !! pi) as [e|] eqn:E; [|discriminate]. simpl in H.
  injection H as <-. eauto.
Qed.

Lemma entry_value_raise get post pi t e :
  entry_value get post pi t = Raise e →
  (e = TypeError ∧ get t = None)
  ∨ (e = IndexError ∧ ∃ tbl, get t = Some tbl ∧ (length tbl ≤ pi)%nat).
Proof.
  unfold entry_value, as_list, getitem. intros H.
  destruct (get t) as [tbl|]; [|injection H as <-; by left]. simpl in H.
  destruct (tbl !! pi) as [e'|] eqn:E; [discriminate|]. simpl in H.
  injection H as <-. right. split; [done|]. exists tbl. split; [done|].
  by apply lookup_ge_None.
Qed.

Lemma write_team_average_stages sh row pi acc t v (w : World) :
  cell_at (index_column t) row
  = Ok {| cell_col := ord_A + index_column t; cell_row := row |} →
  entry_value get_average_score_per_player id pi t = Ok v →
  stages (write_team_average sh row pi acc t) w (Num.add acc v)
         [cell_write sh (ord_A + index_column t) row (VNum v)].
Proof.
  intros Hcell Hv. apply entry_value_ok in Hv as (tbl & e & Ht & He & ->).
  unfold write_team_average. rewrite Ht.
  change [cell_write sh (ord_A + index_column t) row (VNum (id e.2))]
    with ([] ++ [] ++ [] ++ [cell_write sh (ord_A + index_column t) row
                                (VNum e.2)] ++ []).
  eapply stages_bind; [by apply stages_lift|]. intros w1.
  eapply stages_bind; [apply stages_lift; unfold getitem; by rewrite He|].
  intros w2.
  eapply stages_bind; [by apply stages_lift|]. intros w3.
  eapply stages_bind; [apply stages_add|]. intros w4.
  apply stages_ret.
Qed.

Lemma write_team_average_fails sh row pi acc t e (w : World) :
  entry_value get_average_score_per_player id pi t = Raise e →
  fails (write_team_average sh row pi acc t) w e.
Proof.
  intros Hv. unfold write_team_average.
  unfold entry_value in Hv.
  destruct (as_list (get_average_score_per_player t)) as [tbl|e'] eqn:Et.
  - eapply fails_bind_r; [by apply stages_lift|]. intros w1.
    apply fails_bind_l. apply fails_lift.
    cbn [mbind result_bind] in Hv.
    destruct (getitem tbl pi); cbn [mbind result_bind] in Hv;
      [discriminate Hv | by injection Hv as ->].
  - apply fails_bind_l. apply fails_lift.
    cbn [mbind result_bind] in Hv. by injection Hv as <-.
Qed.

Lemma write_average_rows_run sh started_or_not (teams_data : list TeamData)
    row pi (positions : list string) (w : World) :
  addressable teams_data → teams_data ≠ [] →
  match table_rows get_average_score_per_player id teams_data pi positions with
  | Ok rows =>
      stages (write_average_rows sh started_or_not teams_data row pi positions)
             w ()
             (metric_rows sh (average_label started_or_not)
                          (index_column <$> teams_data) row rows)
  | Raise e =>
      fails (write_average_rows sh started_or_not teams_data row pi positions)
            w e
  end.
Proof.
  intros Haddr Hne.
  assert (Hn : (0 < length teams_data)%nat)
    by (destruct teams_data; [done | simpl; lia]).
  revert row pi w. induction positions as [|pos rest IH]; intros row pi w.
  - apply stages_ret.
  - unfold table_rows. cbn [enumerate forM write_average_rows].
    fold (table_rows get_average_score_per_player id teams_data (S pi) rest).
    pose proof (λ w', stages_foldW_forM (write_team_average sh row pi)
                  (entry_value get_average_score_per_player id pi) Num.add
                  (λ t v, [cell_write sh (ord_A + index_column t) row (VNum v)])
                  teams_data Num.zero w'
                  (λ a t w'' c Hin Hv,
                     write_team_average_stages sh row pi a t c w''
                       (addressable_cell _ _ row Haddr Hin) Hv)
                  (λ a t w'' e Hin Hv,
                     write_team_average_fails sh row pi a t e w'' Hv)) as Hloop.
    cbn [fst snd].
    destruct (forM (entry_value get_average_score_per_player id pi) teams_data)
      as [vs|e] eqn:Evs; cbn [mbind result_bind].
    + destruct (league_average_div vs (length teams_data) Hn)
        as (q & Hq & _ & Hround).
      assert (Hvs : length vs = length teams_data) by (by eapply forM_length).
      specialize (IH (S row) (S pi)).
      destruct (table_rows get_average_score_per_player id teams_data (S pi) rest)
        as [rows|e]; cbn [mbind result_bind metric_rows].
      * unfold metric_row.
        replace (cell_write sh ord_A row (VStr (average_label started_or_not pos))
                 :: team_cells sh row (index_column <$> teams_data) vs
                 ++ [cell_write sh (ord_A + (length (index_column <$> teams_data) + 1))
                       row (VNum (league_mean vs))])
          with ([cell_write sh ord_A row (VStr (average_label started_or_not pos))]
                ++ team_cells sh row (index_column <$> teams_data) vs
                ++ [] ++ []
                ++ [cell_write sh (ord_A + (length teams_data + 1)) row
                      (VNum (league_mean vs))])
          by (by rewrite length_fmap).
        rewrite <- !app_assoc.
        eapply stages_bind; [apply stages_add|]. intros w1.
        eapply stages_bind.
        { specialize (Hloop w1). rewrite team_cells_zip in Hloop. exact Hloop. }
        intros w2.
        eapply stages_bind;
          [apply stages_lift; by apply addressable_average_cell|]. intros w3.
        eapply stages_bind; [apply stages_lift; exact Hq|]. intros w4.
        eapply stages_bind; [|intros w5; apply IH].
        unfold league_mean. rewrite Hvs, <- Hround. apply stages_add.
      * eapply fails_bind_r; [apply stages_add|]. intros w1.
        eapply fails_bind_r; [apply Hloop|]. intros w2.
        eapply fails_bind_r;
          [apply stages_lift; by apply addressable_average_cell|]. intros w3.
        eapply fails_bind_r; [apply stages_lift; exact Hq|]. intros w4.
        eapply fails_bind_r; [apply stages_add|]. intros w5. apply IH.
    + eapply fails_bind_r; [apply stages_add|]. intros w1.
      apply fails_bind_l. apply Hloop.
Qed.

Lemma forM_enumerate {A B} (f : nat * A → result B) (g : A → B) (l : list A)
    (start : nat) :
  (∀ k x, l !! k = Some x → f ((start + k)%nat, x) = Ok (g x)) →
  forM f (enumerate start l) = Ok (g <$> l).
Proof.
  revert start. induction l as [|x l IH]; intros start H; [done|].
  cbn [enumerate forM]. rewrite <- (Nat.add_0_r start) at 1.
  rewrite (H 0%nat x eq_refl). cbn [mbind result_bind].
  rewrite IH; [done|]. intros k y Hy.
  replace (S start + k)%nat with (start + S k)%nat by lia. by apply (H (S k)).
Qed.

Lemma enumerate_lookup {A} (l : list A) (start k : nat) x :
  l !! k = Some x → enumerate start l !! k = Some ((start + k)%nat, x).
Proof.
  revert start k. induction l as [|y l IH]; intros start [|k] H; try done.
  - injection H as ->. simpl. by rewrite Nat.add_0_r.
  - simpl. rewrite (IH (S start) k H). do 2 f_equal. lia.
Qed.

Lemma forM_fmap_in {A B C} (f : B → result C) (g : A → B) (h : A → C)
    (l : list A) :
  (∀ x, x ∈ l → f (g x) = Ok (h x)) → forM f (g <$> l) = Ok (h <$> l).
Proof.
  induction l as [|x l IH]; intros H; [done|].
  rewrite fmap_cons. cbn [forM]. rewrite H by left. cbn [mbind result_bind].
  rewrite IH; [done|]. intros y Hy. apply H. by right.
Qed.

Lemma average_entries_full sc wk (lu : list Player) (positions : list string) :
  (∀ pos, pos ∈ positions → (0 < length (matching pos sc lu))%nat) →
  average_entries sc wk lu positions
  = (λ pos, (pos, lineup_average sc wk lu pos)) <$> positions.
Proof.
  unfold average_entries. induction positions as [|pos positions IH];
    intros H; [done|].
  rewrite omap_cons, fmap_cons. unfold average_value at 1.
  assert (Hpos := H pos (list_elem_of_here _ _)).
  apply Nat.ltb_lt in Hpos. rewrite Hpos. simpl.
  rewrite IH; [done|]. intros p Hp. apply H. by right.
Qed.

Lemma with_averages_table positions sc wk t :
  additional_data t = no_additional_data →
  average_entries sc wk (lineup t) positions ≠ [] →
  get_average_score_per_player (with_averages positions sc wk t)
  = Some (average_entries sc wk (lineup t) positions).
Proof.
  intros Hfresh Hne.
  destruct (with_averages_fresh positions sc wk t Hfresh) as (_ & _ & _ & Htab).
  destruct (add_averages_fields (average_entries sc wk (lineup t) positions) t)
    as (_ & _ & _ & _ & Hnone).
  fold (with_averages positions sc wk t) in Hnone.
  destruct (get_average_score_per_player (with_averages positions sc wk t))
    as [l|].
  - simpl in Htab. by rewrite Htab.
  - destruct (proj1 Hnone eq_refl) as [_ ?]. done.
Qed.

Lemma with_averages_addressable positions sc wk (teams_data : list TeamData) :
  addressable teams_data →
  addressable (with_averages positions sc wk <$> teams_data).
Proof.
  intros [Hlen Hall]. split; [by rewrite length_fmap|].
  apply Forall_fmap. eapply Forall_impl; [exact Hall|].
  intros t Ht. simpl. unfold with_averages.
  by destruct (add_averages_fields
                 (average_entries sc wk (lineup t) positions) t)
    as (_ & _ & -> & _).
Qed.

Lemma with_averages_columns positions sc wk (teams_data : list TeamData) :
  index_column <$> (with_averages positions sc wk <$> teams_data)
  = index_column <$> teams_data.
Proof.
  rewrite <- list_fmap_compose. apply list_fmap_ext. intros i t _. simpl.
  unfold with_averages.
  by destruct (add_averages_fields
                 (average_entries sc wk (lineup t) positions) t)
    as (_ & _ & -> & _).
Qed.

(** What the rows of the single-week averages read from the tables, when
    every snapshot has an entry for every position. *)
Lemma average_table_rows (fl : FantasyFootballLeague)
    (positions sc : list string) (teams_data : list TeamData) :
  get_teams_data fl None = Ok teams_data →
  (∀ t pos, t ∈ teams_data → pos ∈ positions →
            (0 < length (matching pos sc (lineup t)))%nat) →
  table_rows get_average_score_per_player id
             (with_averages positions sc (week fl) <$> teams_data) 0 positions
  = Ok ((λ pos, (pos, (λ t, lineup_average sc (week fl) (lineup t) pos)
                        <$> teams_data)) <$> positions).
Proof.
  intros Hget Hfull.
  unfold table_rows. apply forM_enumerate. intros k pos Hk. cbn [fst snd].
  erewrite forM_fmap_in; [reflexivity|].
  intros t Hin. simpl.
  assert (Hfresh : additional_data t = no_additional_data)
    by (by eapply get_teams_data_fresh).
  assert (Hent : average_entries sc (week fl) (lineup t) positions
                 = (λ pos, (pos, lineup_average sc (week fl) (lineup t) pos))
                     <$> positions).
  { apply average_entries_full. intros p Hp. by apply Hfull. }
  unfold entry_value. rewrite with_averages_table; [|done|].
  - cbn [as_list mbind result_bind]. unfold getitem.
    by rewrite Hent, list_lookup_fmap, Hk.
  - rewrite Hent. by destruct positions.
Qed.

(** X10.  When every snapshot of the week has, for every requested
    position, at least one lineup entry of that position with a
    non-excluded slot, [get_and_write_average_points_per_player] sends one
    request with, for the k-th position, row [start_position + k]: the
    label, each team's average for that position in the column of its
    [index_column], and the mean of these written averages, rounded to 2
    decimals, in the column after as many columns as there are
    snapshots. *)
Theorem average_rows_sent (fl : FantasyFootballLeague) (sh : string)
    (start_position : nat) (positions sc : list string)
    (started_or_not : string) (w : World) (teams_data : list TeamData) :
  get_teams_data fl None = Ok teams_data →
  addressable teams_data →
  teams_data ≠ [] →
  (∀ t pos, t ∈ teams_data → pos ∈ positions →
            (0 < length (matching pos sc (lineup t)))%nat) →
  sends (get_and_write_average_points_per_player fl sh start_position
           positions sc started_or_not) w
        (metric_rows sh (average_label started_or_not)
           (index_column <$> teams_data) start_position
           ((λ pos, (pos, (λ t, lineup_average sc (week fl) (lineup t) pos)
                            <$> teams_data)) <$> positions)).
Proof.
  intros Hget Haddr Hne Hfull.
  unfold get_and_write_average_points_per_player.
  rewrite average_points_per_player_spec. cbn [truthy default]. rewrite Hget.
  cbn [mbind result_bind].
  set (td := with_averages positions sc (week fl) <$> teams_data).
  pose proof (write_average_rows_run sh started_or_not td start_position 0
                positions) as Hrun.
  subst td. rewrite (average_table_rows fl positions sc teams_data Hget Hfull)
    in Hrun.
  rewrite <- (app_nil_l (metric_rows _ _ _ _ _)),
          <- (app_nil_r (metric_rows _ _ _ _ _)).
  eapply sends_bind; [by apply stages_lift|]. intros w1.
  eapply sends_bind; [|intros w2; apply sends_write_batch].
  rewrite <- (with_averages_columns positions sc (week fl)). apply Hrun.
  - by apply with_averages_addressable.
  - by destruct teams_data.
Qed.

Lemma table_rows_raise get post (teams_data : list TeamData) pi
    (positions : list string) t k e :
  t ∈ teams_data → (k < length positions)%nat →
  entry_value get post (pi + k) t = Raise e →
  ∃ e', table_rows get post teams_data pi positions = Raise e'
        ∧ (e' = TypeError ∨ e' = IndexError).
Proof.
  intros Hin Hk Hraise. unfold table_rows.
  destruct (forM _ (enumerate pi positions)) as [rows|e'] eqn:E.
  - exfalso. destruct (lookup_lt_is_Some_2 positions k Hk) as [pos Hpos].
    destruct (forM_lookup _ _ _ _ _ E (enumerate_lookup _ pi _ _ Hpos))
      as (y & _ & Hy).
    apply bind_ok in Hy as (vs & Hvs & _). cbn [fst] in Hvs.
    apply list_elem_of_lookup in Hin as [i Hi].
    destruct (forM_lookup _ _ _ _ _ Hvs Hi) as (v & _ & Hv). congruence.
  - exists e'. split; [done|].
    apply forM_raise in E as (kp & _ & Hkp).
    apply bind_raise in Hkp as [Hkp | (vs & _ & [=])].
    apply forM_raise in Hkp as (t' & _ & Ht').
    apply entry_value_raise in Ht' as [[-> _]|[-> _]]; auto.
Qed.

(** X11.  If some snapshot of the week has no lineup entry with a
    non-excluded slot for one of the requested positions,
    [get_and_write_average_points_per_player] raises [TypeError] or
    [IndexError] and sends nothing: its rows read the averages tables by
    index, and that snapshot's table is shorter than the list of
    positions (or absent). *)
Theorem average_rows_need_every_position (fl : FantasyFootballLeague)
    (sh : string) (start_position : nat) (positions sc : list string)
    (started_or_not : string) (w : World) (teams_data : list TeamData)
    (t : TeamData) (pos : string) :
  get_teams_data fl None = Ok teams_data →
  addressable teams_data →
  t ∈ teams_data → pos ∈ positions →
  matching pos sc (lineup t) = [] →
  let m := get_and_write_average_points_per_player fl sh start_position
             positions sc started_or_not in
  ∃ e, (e = TypeError ∨ e = IndexError)
       ∧ (m w).1 = Raise e ∧ requests (m w).2 = requests w.
Proof.
  intros Hget Haddr Hin Hpos Hnone m. subst m.
  unfold get_and_write_average_points_per_player.
  rewrite average_points_per_player_spec. cbn [truthy default]. rewrite Hget.
  cbn [mbind result_bind].
  set (td := with_averages positions sc (week fl) <$> teams_data).
  set (t' := with_averages positions sc (week fl) t).
  assert (Hfresh : additional_data t = no_additional_data)
    by (by eapply get_teams_data_fresh).
  destruct (with_averages_fresh positions sc (week fl) t Hfresh)
    as (_ & _ & _ & Htab).
  fold t' in Htab.
  set (L := length (table_entries (get_average_score_per_player t'))).
  assert (HL : (L < length positions)%nat).
  { subst L. rewrite Htab, <- (length_fmap fst), average_entries_positions.
    eapply length_filter_lt; [exact Hpos|]. rewrite Hnone. simpl. lia. }
  assert (Hraise : ∃ e, entry_value get_average_score_per_player id (0 + L) t'
                        = Raise e).
  { unfold entry_value. subst L.
    destruct (get_average_score_per_player t') as [tbl|]; simpl; [|eauto].
    unfold getitem. rewrite (lookup_ge_None_2 tbl (length tbl)) by lia.
    simpl. eauto. }
  destruct Hraise as [e0 Hraise].
  destruct (table_rows_raise get_average_score_per_player id td 0 positions
              t' L e0) as (e & Hrows & Hkind); [|done|done|].
  { subst td t'. apply list_elem_of_fmap. eauto. }
  exists e. split; [done|]. apply fails_run.
  eapply fails_bind_r; [by apply stages_lift|]. intros w1.
  apply fails_bind_l.
  pose proof (write_average_rows_run sh started_or_not td start_position 0
                positions w1) as Hrun.
  rewrite Hrows in Hrun. apply Hrun.
  - by apply with_averages_addressable.
  - subst td. destruct teams_data; [by apply elem_of_nil in Hin | done].
Qed.

(** Team E averages 1.74 and 1.46, team F 20.95 and 5.03; the means
    Python writes next to them are 11.34 and 3.25. *)
Lemma average_rows_sent_witness :
  ∃ ws,
    sends (get_and_write_average_points_per_player Examples.fl_EF "Week 1" 2
             ["QB"; "WR"] ["BE"] "started") Examples.fresh_world ws
    ∧ values <$> ws
      = [VStr "Pts/QB started"; VNum (Examples.cents 174);
         VNum (Examples.cents 2095); VNum (Examples.cents 1134);
         VStr "Pts/WR started"; VNum (Examples.cents 146);
         VNum (Examples.cents 503); VNum (Examples.cents 325)].
Proof.
  eexists. split.
  - apply (average_rows_sent Examples.fl_EF "Week 1" 2 ["QB"; "WR"] ["BE"]
             "started" Examples.fresh_world _ eq_refl
             addressable_decimal_sample).
    + discriminate.
    + intros t pos Ht Hpos.
      apply list_elem_of_In in Ht. apply list_elem_of_In in Hpos.
      destruct Ht as [<-|[<-|[]]]; destruct Hpos as [<-|[<-|[]]];
        vm_compute; lia.
  - vm_compute. reflexivity.
Defined.

Lemma average_rows_need_every_position_witness :
  (get_and_write_average_points_per_player Examples.fl_AB_week2 "Week 2" 2
     ["QB"; "WR"] ["BE"] "started" Examples.fresh_world).1
  = Raise IndexError.
Proof.
  assert (Haddr : addressable
                    (match get_teams_data Examples.fl_AB_week2 None with
                     | Ok l => l
                     | Raise _ => []
                     end)).
  { split; [vm_compute; reflexivity|].
    repeat constructor; vm_compute; discriminate. }
  destruct (average_rows_need_every_position Examples.fl_AB_week2 "Week 2" 2
              ["QB"; "WR"] ["BE"] "started" Examples.fresh_world _
              (new_TeamData Examples.team_A (Examples.lineup_A 2) 1
                 (Examples.whole 25) (Examples.whole 28))
              "WR" eq_refl Haddr) as (e & _ & He & _).
  - apply list_elem_of_here.
  - apply list_elem_of_further, list_elem_of_here.
  - vm_compute. reflexivity.
  - rewrite He. vm_compute in He. congruence.
Defined.

(** ** The percentage rows *)

Lemma write_team_percentage_stages sh row pi acc t v (w : World) :
  cell_at (index_column t) row
  = Ok {| cell_col := ord_A + index_column t; cell_row := row |} →
  entry_value get_percentage_per_position Num.round2 pi t = Ok v →
  stages (write_team_percentage sh row pi acc t) w (Num.add acc v)
         [cell_write sh (ord_A + index_column t) row (VNum v)].
Proof.
  intros Hcell Hv. apply entry_value_ok in Hv as (tbl & e & Ht & He & ->).
  unfold write_team_percentage. rewrite Ht.
  change [cell_write sh (ord_A + index_column t) row (VNum (Num.round2 e.2))]
    with ([] ++ [] ++ [] ++ [cell_write sh (ord_A + index_column t) row
                                (VNum (Num.round2 e.2))] ++ []).
  eapply stages_bind; [by apply stages_lift|]. intros w1.
  eapply stages_bind; [apply stages_lift; unfold getitem; by rewrite He|].
  intros w2.
  eapply stages_bind; [by apply stages_lift|]. intros w3.
  eapply stages_bind; [apply stages_add|]. intros w4.
  apply stages_ret.
Qed.

Lemma write_team_percentage_fails sh row pi acc t e (w : World) :
  entry_value get_percentage_per_position Num.round2 pi t = Raise e →
  fails (write_team_percentage sh row pi acc t) w e.
Proof.
  intros Hv. unfold write_team_percentage.
  unfold entry_value in Hv.
  destruct (as_list (get_percentage_per_position t)) as [tbl|e'] eqn:Et.
  - eapply fails_bind_r; [by apply stages_lift|]. intros w1.
    apply fails_bind_l. apply fails_lift.
    cbn [mbind result_bind] in Hv.
    destruct (getitem tbl pi); cbn [mbind result_bind] in Hv;
      [discriminate Hv | by injection Hv as ->].
  - apply fails_bind_l. apply fails_lift.
    cbn [mbind result_bind] in Hv. by injection Hv as <-.
Qed.

Lemma write_percentage_rows_run sh started_or_not (teams_data : list TeamData)
    row pi (positions : list string) (w : World) :
  addressable teams_data → teams_data ≠ [] →
  match table_rows get_percentage_per_position Num.round2 teams_data pi
                   positions with
  | Ok rows =>
      stages (write_percentage_rows sh started_or_not teams_data row pi
                positions) w ()
             (metric_rows sh (percentage_label started_or_not)
                          (index_column <$> teams_data) row rows)
  | Raise e =>
      fails (write_percentage_rows sh started_or_not teams_data row pi
               positions) w e
  end.
Proof.
  intros Haddr Hne.
  assert (Hn : (0 < length teams_data)%nat)
    by (destruct teams_data; [done | simpl; lia]).
  revert row pi w. induction positions as [|pos rest IH]; intros row pi w.
  - apply stages_ret.
  - unfold table_rows. cbn [enumerate forM write_percentage_rows].
    fold (table_rows get_percentage_per_position Num.round2 teams_data (S pi)
                     rest).
    pose proof (λ w', stages_foldW_forM (write_team_percentage sh row pi)
                  (entry_value get_percentage_per_position Num.round2 pi)
                  Num.add
                  (λ t v, [cell_write sh (ord_A + index_column t) row (VNum v)])
                  teams_data Num.zero w'
                  (λ a t w'' c Hin Hv,
                     write_team_percentage_stages sh row pi a t c w''
                       (addressable_cell _ _ row Haddr Hin) Hv)
                  (λ a t w'' e Hin Hv,
                     write_team_percentage_fails sh row pi a t e w'' Hv))
      as Hloop.
    cbn [fst snd].
    destruct (forM (entry_value get_percentage_per_position Num.round2 pi)
                   teams_data) as [vs|e] eqn:Evs; cbn [mbind result_bind].
    + destruct (league_average_div vs (length teams_data) Hn)
        as (q & Hq & _ & Hround).
      assert (Hvs : length vs = length teams_data) by (by eapply forM_length).
      specialize (IH (S row) (S pi)).
      destruct (table_rows get_percentage_per_position Num.round2 teams_data
                           (S pi) rest)
        as [rows|e]; cbn [mbind result_bind metric_rows].
      * unfold metric_row.
        replace (cell_write sh ord_A row
                   (VStr (percentage_label started_or_not pos))
                 :: team_cells sh row (index_column <$> teams_data) vs
                 ++ [cell_write sh (ord_A + (length (index_column <$> teams_data) + 1))
                       row (VNum (league_mean vs))])
          with ([cell_write sh ord_A row
                   (VStr (percentage_label started_or_not pos))]
                ++ team_cells sh row (index_column <$> teams_data) vs
                ++ [] ++ []
                ++ [cell_write sh (ord_A + (length teams_data + 1)) row
                      (VNum (league_mean vs))])
          by (by rewrite length_fmap).
        rewrite <- !app_assoc.
        eapply stages_bind; [apply stages_add|]. intros w1.
        eapply stages_bind.
        { specialize (Hloop w1). rewrite team_cells_zip in Hloop. exact Hloop. }
        intros w2.
        eapply stages_bind;
          [apply stages_lift; by apply addressable_average_cell|]. intros w3.
        eapply stages_bind; [apply stages_lift; exact Hq|]. intros w4.
        eapply stages_bind; [|intros w5; apply IH].
        unfold league_mean. rewrite Hvs, <- Hround. apply stages_add.
      * eapply fails_bind_r; [apply stages_add|]. intros w1.
        eapply fails_bind_r; [apply Hloop|]. intros w2.
        eapply fails_bind_r;
          [apply stages_lift; by apply addressable_average_cell|]. intros w3.
        eapply fails_bind_r; [apply stages_lift; exact Hq|]. intros w4.
        eapply fails_bind_r; [apply stages_add|]. intros w5. apply IH.
    + eapply fails_bind_r; [apply stages_add|]. intros w1.
      apply fails_bind_l. apply Hloop.
Qed.

Lemma with_percentages_addressable positions sc wk (teams_data : list TeamData) :
  addressable teams_data →
  addressable (with_percentages positions sc wk <$> teams_data).
Proof.
  intros [Hlen Hall]. split; [by rewrite length_fmap|].
  apply Forall_fmap. eapply Forall_impl; [exact Hall|].
  intros t Ht. simpl. unfold with_percentages.
  by destruct (add_percentages_fields
                 (percentage_entries sc wk (lineup t) positions) t)
    as (_ & _ & -> & _).
Qed.

Lemma with_percentages_columns positions sc wk (teams_data : list TeamData) :
  index_column <$> (with_percentages positions sc wk <$> teams_data)
  = index_column <$> teams_data.
Proof.
  rewrite <- list_fmap_compose. apply list_fmap_ext. intros i t _. simpl.
  unfold with_percentages.
  by destruct (add_percentages_fields
                 (percentage_entries sc wk (lineup t) positions) t)
    as (_ & _ & -> & _).
Qed.

(** X12.  For a week with box scores,
    [get_and_write_percentage_of_points_per_position] never fails on a
    table: it sends one request with, for the k-th position, row
    [start_position + k]: the label, each team's percentage for that
    position, passed through [round(., 2)] once more, in the column of
    its [index_column], and the mean of these written percentages,
    rounded to 2 decimals, in the column after as many columns as there
    are snapshots. *)
Theorem percentage_rows_sent (fl : FantasyFootballLeague) (sh : string)
    (start_position : nat) (positions sc : list string)
    (started_or_not : string) (w : World) (teams_data : list TeamData) :
  get_teams_data fl None = Ok teams_data →
  addressable teams_data →
  teams_data ≠ [] →
  sends (get_and_write_percentage_of_points_per_position fl sh start_position
           positions sc started_or_not) w
        (metric_rows sh (percentage_label started_or_not)
           (index_column <$> teams_data) start_position
           ((λ pos, (pos, (λ t, Num.round2
                                  (percentage_value sc (week fl) (lineup t) pos))
                            <$> teams_data)) <$> positions)).
Proof.
  intros Hget Haddr Hne.
  unfold get_and_write_percentage_of_points_per_position.
  rewrite percentage_of_points_by_position_spec. cbn [truthy default].
  rewrite Hget. cbn [mbind result_bind].
  set (td := with_percentages positions sc (week fl) <$> teams_data).
  set (rows := (λ pos, (pos, (λ t, Num.round2
                                     (percentage_value sc (week fl) (lineup t)
                                        pos))
                               <$> teams_data)) <$> positions).
  assert (Hrows : table_rows get_percentage_per_position Num.round2 td 0
                             positions = Ok rows).
  { unfold table_rows. apply forM_enumerate. intros k pos Hk. cbn [fst snd].
    subst td. erewrite forM_fmap_in; [reflexivity|].
    intros t Hin. simpl.
    assert (Hfresh : additional_data t = no_additional_data)
      by (by eapply get_teams_data_fresh).
    destruct (with_percentages_fresh positions sc (week fl) t Hfresh)
      as (_ & _ & _ & _ & Hsome).
    unfold entry_value. rewrite Hsome by (by destruct positions).
    cbn [as_list mbind result_bind]. unfold getitem, percentage_entries.
    by rewrite list_lookup_fmap, Hk. }
  pose proof (write_percentage_rows_run sh started_or_not td start_position 0
                positions) as Hrun.
  rewrite Hrows in Hrun.
  rewrite <- (app_nil_l (metric_rows _ _ _ _ _)),
          <- (app_nil_r (metric_rows _ _ _ _ _)).
  eapply sends_bind; [by apply stages_lift|]. intros w1.
  eapply sends_bind; [|intros w2; apply sends_write_batch].
  rewrite <- (with_percentages_columns positions sc (week fl)). apply Hrun.
  - by apply with_percentages_addressable.
  - subst td. by destruct teams_data.
Qed.

(** With the kickers' slot excluded, team E has 54.37 and 45.62 percent
    of its points from its quarterback and its receiver, team F 80.66 and
    19.34; the means Python writes next to them are 67.52 and 32.48. *)
Lemma percentage_rows_sent_witness :
  ∃ ws,
    sends (get_and_write_percentage_of_points_per_position Examples.fl_EF
             "Week 1" 20 ["QB"; "WR"] ["K"] "Started") Examples.fresh_world ws
    ∧ values <$> ws
      = [VStr "% points/QB Started"; VNum (Examples.cents 5437);
         VNum (Examples.cents 8066); VNum (Examples.cents 6752);
         VStr "% points/WR Started"; VNum (Examples.cents 4562);
         VNum (Examples.cents 1934); VNum (Examples.cents 3248)].
Proof.
  eexists. split.
  - apply (percentage_rows_sent Examples.fl_EF "Week 1" 20 ["QB"; "WR"] ["K"]
             "Started" Examples.fresh_world _ eq_refl
             addressable_decimal_sample).
    discriminate.
  - vm_compute. reflexivity.
Defined.

(** ** The header row *)

Lemma flat_map_singleton {A B} (f : A → B) (l : list A) :
  flat_map (λ x, [f x]) l = f <$> l.
Proof.
  induction l as [|x l IH]; [done|].
  rewrite fmap_cons. cbn [flat_map app]. by rewrite IH.
Qed.

(** X13.  [get_and_write_team_names] sends one request with every
    snapshot's team name at row 1 of the column of its [index_column], and
    ["League average"] at row 1 of the column after as many columns as
    there are snapshots.  These cells are all different when the
    snapshots' columns are distinct and none exceeds the number of
    snapshots; but a snapshot whose column is one more than the number of
    snapshots (a week in which not every team plays) has its name in the
    very cell of the ["League average"] header. *)
Theorem team_names_header_row (fl : FantasyFootballLeague) (sh : string)
    (w : World) (teams_data : list TeamData) :
  get_teams_data fl None = Ok teams_data →
  addressable teams_data →
  let header := {| cell_col := ord_A + (length teams_data + 1); cell_row := 1 |} in
  sends (get_and_write_team_names fl sh) w (team_names_row sh teams_data)
  ∧ (NoDup (index_column <$> teams_data) →
     (∀ t, t ∈ teams_data → (index_column t ≤ length teams_data)%nat) →
     NoDup (range_cell <$> team_names_row sh teams_data))
  ∧ (∀ t, t ∈ teams_data → index_column t = (length teams_data + 1)%nat →
       cell_write sh (cell_col header) 1 (VStr (team_name (team t)))
       ∈ team_names_row sh teams_data
       ∧ cell_write sh (cell_col header) 1 (VStr "League average")
         ∈ team_names_row sh teams_data).
Proof.
  intros Hget Haddr header. split; [|split].
  - unfold get_and_write_team_names.
    change (team_names_row sh teams_data)
      with ([] ++ ((λ t, cell_write sh (ord_A + index_column t) 1
                           (VStr (team_name (team t)))) <$> teams_data)
            ++ [] ++ [cell_write sh (ord_A + (length teams_data + 1)) 1
                        (VStr "League average")] ++ []).
    eapply sends_bind; [by apply stages_lift|]. intros w1.
    eapply sends_bind.
    { pose proof (stages_foldW
                    (λ (_ : ()) t,
                       cell ← lift (cell_at (index_column t) 1);
                       write_to_sheet sh cell (VStr (team_name (team t)))
                         "print_team_names_to_sheet")
                    (λ u _, u)
                    (λ t, [cell_write sh (ord_A + index_column t) 1
                             (VStr (team_name (team t)))])
                    teams_data () w1) as H.
      replace (foldl (λ (u : ()) (_ : TeamData), u) () teams_data) with ()
        in H by (by destruct (foldl _ () teams_data)).
      rewrite (flat_map_singleton
                 (λ t, cell_write sh (ord_A + index_column t) 1
                         (VStr (team_name (team t))))) in H.
      apply H. intros [] t w' Hin.
      change [cell_write sh (ord_A + index_column t) 1 (VStr (team_name (team t)))]
        with ([] ++ [cell_write sh (ord_A + index_column t) 1
                       (VStr (team_name (team t)))]).
      eapply stages_bind; [apply stages_lift; by eapply addressable_cell|].
      intros w''. apply stages_add. }
    intros w2.
    eapply sends_bind;
      [apply stages_lift; by apply addressable_average_cell|]. intros w3.
    eapply sends_bind; [apply stages_add|]. intros w4.
    apply sends_write_batch.
  - intros Hnd Hle. unfold team_names_row. rewrite fmap_app.
    apply NoDup_app. split; [|split].
    + rewrite <- list_fmap_compose.
      apply (NoDup_fmap_2_strong _ teams_data); [|].
      * intros t1 t2 Hin1 Hin2 Heq. simpl in Heq.
        assert (Hc : index_column t1 = index_column t2)
          by (injection Heq; lia).
        apply list_elem_of_lookup in Hin1 as [i1 Hi1].
        apply list_elem_of_lookup in Hin2 as [i2 Hi2].
        assert (i1 = i2).
        { eapply NoDup_lookup; [exact Hnd| |];
            rewrite list_lookup_fmap; [by rewrite Hi1 | by rewrite Hi2, Hc]. }
        congruence.
      * clear -Hnd. induction teams_data as [|t l IH]; [constructor|].
        rewrite fmap_cons in Hnd. apply NoDup_cons in Hnd as [Hnin Hnd].
        constructor; [|by apply IH].
        intros Hin. apply Hnin. apply list_elem_of_fmap. eauto.
    + intros c Hc Hc'. apply list_elem_of_singleton in Hc'. subst c.
      rewrite <- list_fmap_compose in Hc.
      apply list_elem_of_fmap in Hc as (t & Heq & Hin). simpl in Heq.
      specialize (Hle t Hin). injection Heq. lia.
    + apply NoDup_singleton.
  - intros t Hin Hcol. unfold team_names_row, header. cbn [cell_col].
    split; apply elem_of_app; [left | right; apply list_elem_of_here].
    apply list_elem_of_fmap. exists t. split; [|done]. by rewrite Hcol.
Qed.

Lemma team_names_header_row_witness :
  ∃ ws,
    sends (get_and_write_team_names Examples.fl_CD "Week 1")
          Examples.fresh_world ws
    ∧ (λ b, (cell_col (range_cell b), values b)) <$> ws
      = [(68%nat, VStr "C"); (69%nat, VStr "D"); (68%nat, VStr "League average")].
Proof.
  assert (Haddr : addressable
                    (match get_teams_data Examples.fl_CD None with
                     | Ok l => l
                     | Raise _ => []
                     end)).
  { split; [vm_compute; reflexivity|].
    repeat constructor; vm_compute; discriminate. }
  destruct (team_names_header_row Examples.fl_CD "Week 1" Examples.fresh_world
              _ eq_refl Haddr) as [H _].
  eexists. split; [exact H|]. vm_compute. reflexivity.
Defined.

(** ** Columns of the per-team cells *)

Lemma elem_of_metric_rows sh label (cols : list nat) row
    (rows : list (string * list double)) k pos (vs : list double) i c v :
  rows !! k = Some (pos, vs) → cols !! i = Some c → vs !! i = Some v →
  cell_write sh (ord_A + c) (row + k) (VNum v)
  ∈ metric_rows sh label cols row rows.
Proof.
  revert row k. induction rows as [|[pos' vs'] rows IH]; intros row k Hk Hc Hv.
  - discriminate Hk.
  - cbn [metric_rows]. apply elem_of_app. destruct k as [|k].
    + injection Hk as -> ->. left. rewrite Nat.add_0_r.
      unfold metric_row. right. apply elem_of_app. left.
      unfold team_cells. apply list_elem_of_lookup. exists i.
      by rewrite lookup_zip_with, Hc, Hv.
    + right. replace (row + S k)%nat with (S row + k)%nat by lia.
      by apply IH.
Qed.

(** C7.  The column of a per-team cell is the character
    [chr(ord('A') + index_column)]: index 1 gives ["B"], index 25 gives
    ["Z"], and the character is one of ["A"] to ["Z"] exactly for indices
    up to 25; index 26 gives ["["], the character after ["Z"], not a
    letter (nothing wraps around).  The header row and the single-week
    rows are addressed so: from a manager with nothing staged
    [get_and_write_team_names] sends one request whose entry for each
    snapshot is the team's name at row 1 of column
    [chr(ord('A') + index_column)], and
    [get_and_write_average_points_per_player] one request that holds each
    team's average for the k-th position at row [start_position + k] of
    that column.  The multi-week rows are not: in the sample league where
    only teams C and D play, whose columns are 3 and 4, the header and the
    single-week averages are in columns D and E, and the two-week
    averages of the same teams in columns B and C. *)
Theorem team_cells_column_letter (fl : FantasyFootballLeague) (sh : string)
    (start_position : nat) (positions sc : list string)
    (started_or_not : string) (w : World) (teams_data : list TeamData) :
  get_teams_data fl None = Ok teams_data →
  batch_data w = [] →
  (N.of_nat (length (teams (league fl))) <= 1114046)%N →
  (N.of_nat (length teams_data) < 1114046)%N →
  (∀ row, cell_at 1 row
          = Ok {| cell_col := Ascii.nat_of_ascii "B"%char; cell_row := row |})
  ∧ (∀ row, cell_at 25 row
            = Ok {| cell_col := Ascii.nat_of_ascii "Z"%char; cell_row := row |})
  ∧ (∀ row, cell_at 26 row
            = Ok {| cell_col := Ascii.nat_of_ascii "["%char; cell_row := row |})
  ∧ is_column_letter (Ascii.nat_of_ascii "["%char) = false
  ∧ (∀ k, is_column_letter (ord_A + k) = true ↔ (k ≤ 25)%nat)
  ∧ (let r := get_and_write_team_names fl sh w in
     ∃ bulk, requests r.2 = requests w ++ [bulk]
         ∧ length bulk = S (length teams_data)
         ∧ ∀ i t, teams_data !! i = Some t →
             bulk !! i
             = Some {| range_sheet := sh;
                       range_cell := {| cell_col := ord_A + index_column t;
                                        cell_row := 1 |};
                       values := VStr (team_name (team t)) |})
  ∧ (teams_data ≠ [] →
     (∀ t pos, t ∈ teams_data → pos ∈ positions →
               (0 < length (matching pos sc (lineup t)))%nat) →
     let r := get_and_write_average_points_per_player fl sh start_position
                positions sc started_or_not w in
     ∃ bulk, requests r.2 = requests w ++ [bulk]
         ∧ ∀ k pos t, positions !! k = Some pos → t ∈ teams_data →
             {| range_sheet := sh;
                range_cell := {| cell_col := ord_A + index_column t;
                                 cell_row := start_position + k |};
                values := VNum (lineup_average sc (week fl) (lineup t) pos) |}
             ∈ bulk)
  ∧ (let cells (r : result () * World) : list (nat * nat * cell_value) :=
       (λ b : BatchValue,
          (cell_col (range_cell b), cell_row (range_cell b), values b))
         <$> concat (requests r.2) in
     (match get_teams_data Examples.fl_CD None with
      | Ok tds => index_column <$> tds
      | Raise _ => []
      end) = [3; 4]%nat
     ∧ cells (get_and_write_team_names Examples.fl_CD "Summary"
                Examples.fresh_world)
       = [(68, 1, VStr "C"); (69, 1, VStr "D");
          (68, 1, VStr "League average")]%nat
     ∧ cells (get_and_write_average_points_per_player Examples.fl_CD
                "Summary" 5 ["QB"] [] "Started" Examples.fresh_world)
       = [(65, 5, VStr "Pts/QB Started");
          (68, 5, VNum (Examples.whole 20)); (69, 5, VNum (Examples.whole 10));
          (68, 5, VNum (Examples.whole 15))]%nat
     ∧ cells (get_and_write_average_points_per_player_all_weeks
                Examples.fl_CD 2 "Summary" 5 ["QB"] [] "Started"
                Examples.fresh_world)
       = [(65, 5, VStr "Pts/QB Started");
          (66, 5, VNum (Examples.whole 20)); (67, 5, VNum (Examples.whole 10));
          (68, 5, VNum (Examples.whole 15))]%nat).
Proof.
  intros Hget Hbd Hteams Hlen.
  do 4 (split; [done|]). split; [apply is_column_letter_spec|].
  assert (Hcols : Forall (λ t, (N.of_nat (index_column t) <= 1114046)%N)
                         teams_data).
  { eapply Forall_impl; [by eapply get_teams_data_index_bound|].
    simpl. intros t Ht. lia. }
  split; [|split].
  - pose proof (stage_team_names sh teams_data [] w Hcols Hbd) as Hloop.
    unfold get_and_write_team_names.
    unfold mbind at 1, M_bind at 1, lift at 1. rewrite Hget.
    unfold mbind at 1, M_bind at 1. rewrite Hloop.
    unfold mbind at 1, M_bind at 1, lift at 1.
    rewrite cell_at_ok by lia.
    unfold mbind at 1, M_bind at 1, write_to_sheet, add_data_to_batch.
    cbn [batch_data set_batch_data app].
    rewrite batch_append_staged.
    match goal with
    | |- context [write_batch ?W] =>
        destruct (write_batch_effect W) as (Hreq & _ & _); rewrite Hreq
    end.
    cbn [batch_data requests]. rewrite batch_values_of_staged.
    eexists. split; [reflexivity|]. split.
    + rewrite length_fmap, length_app, length_fmap. simpl. lia.
    + intros i t Ht. rewrite list_lookup_fmap, lookup_app_l.
      * by rewrite list_lookup_fmap, Ht.
      * rewrite length_fmap. by eapply lookup_lt_Some.
  - intros Hne Hfull.
    assert (Hsends : sends (get_and_write_average_points_per_player fl sh
                              start_position positions sc started_or_not) w
                       (metric_rows sh (average_label started_or_not)
                          (index_column <$> teams_data) start_position
                          ((λ pos,
                              (pos,
                               (λ t, lineup_average sc (week fl) (lineup t) pos)
                                 <$> teams_data)) <$> positions))).
    { unfold get_and_write_average_points_per_player.
      rewrite average_points_per_player_spec. cbn [truthy default].
      rewrite Hget. cbn [mbind result_bind].
      pose proof (write_average_rows_run sh started_or_not
                    (with_averages positions sc (week fl) <$> teams_data)
                    start_position 0 positions) as Hrun.
      rewrite (average_table_rows fl positions sc teams_data Hget Hfull)
        in Hrun.
      rewrite <- (app_nil_l (metric_rows _ _ _ _ _)),
              <- (app_nil_r (metric_rows _ _ _ _ _)).
      eapply sends_bind; [by apply stages_lift|]. intros w1.
      eapply sends_bind; [|intros w2; apply sends_write_batch].
      rewrite <- (with_averages_columns positions sc (week fl)). apply Hrun.
      - apply with_averages_addressable. by split.
      - by destruct teams_data. }
    destruct Hsends as (_ & bulk & Hreq & Hperm & _).
    cbv zeta. exists bulk. split; [exact Hreq|].
    intros k pos t Hk Hin. rewrite Hperm, Hbd. cbn [batch_values_of flat_map app].
    apply list_elem_of_lookup in Hin as [i Hi].
    apply (elem_of_metric_rows sh (average_label started_or_not)
             (index_column <$> teams_data) start_position _ k pos
             ((λ t, lineup_average sc (week fl) (lineup t) pos) <$> teams_data)
             i (index_column t)
             (lineup_average sc (week fl) (lineup t) pos)).
    + by rewrite list_lookup_fmap, Hk.
    + by rewrite list_lookup_fmap, Hi.
    + by rewrite list_lookup_fmap, Hi.
  - cbv zeta. repeat split; vm_compute; reflexivity.
Qed.

(** In the two-team sample league the header names teams A and B in
    columns B and C, and the averages of their quarterbacks, 20 and 10,
    are sent to the same columns. *)
Lemma team_cells_column_letter_witness :
  (∃ bulk,
     requests (get_and_write_team_names Examples.fl_AB "Week 1"
                 Examples.fresh_world).2 = [bulk]
     ∧ bulk !! 0%nat
       = Some {| range_sheet := "Week 1";
                 range_cell := {| cell_col := 66; cell_row := 1 |};
                 values := VStr "A" |}
     ∧ bulk !! 1%nat
       = Some {| range_sheet := "Week 1";
                 range_cell := {| cell_col := 67; cell_row := 1 |};
                 values := VStr "B" |})
  ∧ (∃ bulk,
       requests (get_and_write_average_points_per_player Examples.fl_AB
                   "Week 1" 2 ["QB"; "WR"] ["BE"] "started"
                   Examples.fresh_world).2 = [bulk]
       ∧ {| range_sheet := "Week 1";
            range_cell := {| cell_col := 66; cell_row := 2 |};
            values := VNum (Examples.whole 20) |} ∈ bulk
       ∧ {| range_sheet := "Week 1";
            range_cell := {| cell_col := 67; cell_row := 3 |};
            values := VNum (Examples.whole 6) |} ∈ bulk).
Proof.
  assert (H1 : (N.of_nat (length (teams (league Examples.fl_AB))) <= 1114046)%N)
    by (vm_compute; discriminate).
  assert (H2 : (N.of_nat 2 < 1114046)%N) by (vm_compute; reflexivity).
  destruct (team_cells_column_letter Examples.fl_AB "Week 1" 2 ["QB"; "WR"]
              ["BE"] "started" Examples.fresh_world _ eq_refl eq_refl H1 H2)
    as (_ & _ & _ & _ & _ & (bulk & Hreq & _ & Hcells) & Havg & _).
  split.
  - exists bulk. split; [exact Hreq|].
    split; [exact (Hcells 0%nat _ eq_refl) | exact (Hcells 1%nat _ eq_refl)].
  - destruct Havg as (bulk' & Hreq' & Hin); [discriminate| |].
    + intros t pos Ht Hpos.
      apply list_elem_of_In in Ht. apply list_elem_of_In in Hpos.
      destruct Ht as [<-|[<-|[]]]; destruct Hpos as [<-|[<-|[]]];
        vm_compute; lia.
    + exists bulk'. split; [exact Hreq'|]. split.
      * exact (Hin 0%nat "QB"
                 (new_TeamData Examples.team_A (Examples.lineup_A 1) 1
                    (Examples.whole 25) (Examples.whole 28))
                 eq_refl (list_elem_of_here _ _)).
      * exact (Hin 1%nat "WR"
                 (new_TeamData Examples.team_B (Examples.lineup_B 1) 2
                    (Examples.whole 18) (Examples.whole 16))
                 eq_refl (list_elem_of_further _ _ _ (list_elem_of_here _ _))).
Defined.

(** ** The multi-week percentage aggregation *)

Lemma percentage_of_points_by_position_raise (fl : FantasyFootballLeague)
    (positions sc : list string) (week_arg : option nat) e :
  percentage_of_points_by_position fl positions sc week_arg = Raise e →
  e = ValueError.
Proof.
  rewrite percentage_of_points_by_position_spec. intros H.
  apply bind_raise in H as [H | (td & _ & [=])].
  by apply get_teams_data_raise in H.
Qed.

(** X14.  Over a range of exactly one week, and with at least one
    requested position,
    [get_and_write_percentage_of_points_per_position_all_weeks] always
    raises and sends nothing: [UnboundLocalError] as soon as the week has a
    snapshot, [ZeroDivisionError] for a week without snapshots, the
    extraction's [ValueError] otherwise. *)
Theorem one_week_percentage_raises (fl : FantasyFootballLeague) (sh : string)
    (start_position : nat) (positions_to_check positions_to_omit : list string)
    (started_or_not : string) (w : World) :
  positions_to_check ≠ [] →
  let r := get_and_write_percentage_of_points_per_position_all_weeks fl 1 sh
             start_position positions_to_check positions_to_omit
             started_or_not w in
  requests r.2 = requests w
  ∧ match percentage_of_points_by_position fl positions_to_check
            positions_to_omit (Some 1%nat) with
    | Ok (_ :: _) => r.1 = Raise UnboundLocalError
    | Ok [] => r.1 = Raise ZeroDivisionError
    | Raise e => r.1 = Raise ValueError
    end.
Proof.
  intros Hpos. cbv zeta.
  unfold get_and_write_percentage_of_points_per_position_all_weeks.
  unfold mbind, M_bind. rewrite accumulate_one_week.
  destruct (percentage_of_points_by_position fl positions_to_check
              positions_to_omit (Some 1%nat)) as [teams_data|e] eqn:E.
  - destruct positions_to_check as [|pos rest]; [done|].
    destruct teams_data as [|t teams_data]; simpl; done.
  - apply percentage_of_points_by_position_raise in E as ->. done.
Qed.

Lemma one_week_percentage_raises_witness :
  (get_and_write_percentage_of_points_per_position_all_weeks Examples.fl_AB 1
     "Summary" 20 ["QB"; "WR"] ["BE"] "Started" Examples.fresh_world).1
  = Raise UnboundLocalError.
Proof.
  assert (Hpos : ["QB"; "WR"] ≠ []) by discriminate.
  destruct (one_week_percentage_raises Examples.fl_AB "Summary" 20
              ["QB"; "WR"] ["BE"] "Started" Examples.fresh_world Hpos)
    as [_ H].
  exact H.
Defined.

(** ** The averaged tables follow the running totals *)

Section InSync.

Variable transform :
  FantasyFootballLeague → list string → list string → option nat →
  result (list TeamData).
Variable get_table : TeamData → option MetricTable.
Variable weeks : nat.

Lemma accumulate_team_in_sync st it w st' w' :
  accumulate_team get_table weeks st it w = (Ok st', w') →
  overall_teams_data st ≠ [] → totals_in_sync weeks st →
  overall_teams_data st' ≠ [] ∧ totals_in_sync weeks st'.
Proof.
  destruct it as [i t].
  unfold accumulate_team, mbind, M_bind, lift, getitem, as_list.
  destruct (overall_teams_data st !! i) as [[a0|]|]; [|discriminate..].
  destruct (get_table t) as [a1|]; [|discriminate].
  destruct (negb (length a0 =? length a1)%nat).
  - unfold print, mret, M_ret. intros [= <- <-]. done.
  - destruct (average_tables weeks _) as [avg|e] eqn:E; [|discriminate].
    unfold mret, M_ret. intros [= <- <-] Hne _.
    assert (Hne' : <[i:=Some (sum_tables a0 a1)]> (overall_teams_data st) ≠ []).
    { intros H. apply (f_equal length) in H. rewrite length_insert in H.
      by destruct (overall_teams_data st). }
    split; [done|]. unfold totals_in_sync. simpl. done.
Qed.

Lemma accumulate_teams_in_sync (its : list (nat * TeamData)) st w st' w' :
  foldW (accumulate_team get_table weeks) st its w = (Ok st', w') →
  overall_teams_data st ≠ [] → totals_in_sync weeks st →
  overall_teams_data st' ≠ [] ∧ totals_in_sync weeks st'.
Proof.
  revert st w. induction its as [|it its IH]; intros st w H Hne Hsync.
  - simpl in H. by injection H as <- <-.
  - cbn [foldW] in H. rewrite M_bind_unfold in H.
    destruct (accumulate_team get_table weeks st it w) as [[st1|e] w1] eqn:E;
      [|discriminate H].
    destruct (accumulate_team_in_sync _ _ _ _ _ E Hne Hsync) as [Hne1 Hsync1].
    by eapply IH.
Qed.

Lemma accumulate_week_in_sync fl (pcs pom : list string) st wk w st' w' :
  accumulate_week transform get_table fl weeks pcs pom st wk w = (Ok st', w') →
  totals_in_sync weeks st → totals_in_sync weeks st'.
Proof.
  unfold accumulate_week. rewrite M_bind_unfold. unfold lift.
  destruct (transform fl pcs pom (Some wk)) as [teams_data|e]; [|discriminate].
  cbn [overall_teams_data average_overall_team_data last_teams_data].
  destruct (overall_teams_data st) as [|o os] eqn:Eo.
  - unfold mret, M_ret. intros [= <- <-] Hsync.
    unfold totals_in_sync in *. simpl.
    destruct (average_overall_team_data st); [|done].
    destruct Hsync as [Hne _]. by rewrite Eo in Hne.
  - intros H Hsync.
    eapply accumulate_teams_in_sync; [exact H| |].
    + by simpl.
    + unfold totals_in_sync in *. simpl.
      destruct (average_overall_team_data st); [|done].
      by rewrite <- Eo.
Qed.

Lemma accumulate_weeks_in_sync fl (pcs pom : list string) (wks : list nat)
    st w st' w' :
  foldW (accumulate_week transform get_table fl weeks pcs pom) st wks w
  = (Ok st', w') →
  totals_in_sync weeks st → totals_in_sync weeks st'.
Proof.
  revert st w. induction wks as [|wk wks IH]; intros st w H Hsync.
  - simpl in H. by injection H as <- <-.
  - cbn [foldW] in H. rewrite M_bind_unfold in H.
    destruct (accumulate_week _ _ _ _ _ _ st wk w) as [[st1|e] w1] eqn:E;
      [|discriminate H].
    eapply IH; [exact H|]. by eapply accumulate_week_in_sync.
Qed.

End InSync.

Lemma average_tables_ok weeks (overall : list (option MetricTable))
    (avg : list MetricTable) :
  average_tables weeks overall = Ok avg →
  Forall2 (λ o row, ∃ tbl, o = Some tbl
             ∧ row = (λ e : string * double, (e.1, Num.quot e.2 (Num.of_nat weeks)))
                       <$> tbl) overall avg.
Proof.
  unfold average_tables. rewrite forM_ok. intros HF.
  eapply Forall2_impl; [exact HF|]. clear HF.
  intros o row H. destruct o as [tbl|]; [|discriminate]. simpl in H.
  exists tbl. split; [done|].
  apply forM_ok in H. clear -H.
  induction H as [|e e' tbl row He _ IH]; [done|].
  rewrite fmap_cons, IH. f_equal.
  apply bind_ok in He as (q & Hq & [= <-]).
  by apply div_int_ok in Hq as [_ ->].
Qed.

(** X15.  In both multi-week aggregations, once the week loop has
    assigned [average_overall_team_data], it is [overall_teams_data]
    divided by [weeks] whenever the loop ends: every team's averaged table
    is its running table with each value divided by the number of weeks,
    also for a team that a length mismatch kept out of some week's sum. *)
Theorem averaged_tables_follow_totals
    (transform : FantasyFootballLeague → list string → list string →
                 option nat → result (list TeamData))
    (get_table : TeamData → option MetricTable)
    (fl : FantasyFootballLeague) (weeks : nat)
    (positions_to_check positions_to_omit : list string)
    (w w' : World) (st : Totals) (avg : list MetricTable) :
  accumulate_weeks transform get_table fl weeks positions_to_check
                   positions_to_omit w = (Ok st, w') →
  average_overall_team_data st = Some avg →
  Forall2 (λ o row, ∃ tbl, o = Some tbl
             ∧ row = (λ e : string * double, (e.1, Num.quot e.2 (Num.of_nat weeks)))
                       <$> tbl)
          (overall_teams_data st) avg.
Proof.
  intros Hrun Havg. apply average_tables_ok.
  pose proof (accumulate_weeks_in_sync transform get_table weeks fl
                positions_to_check positions_to_omit (seq 1 weeks)
                initial_totals w st w' Hrun I) as Hsync.
  unfold totals_in_sync in Hsync. rewrite Havg in Hsync. apply Hsync.
Qed.

Lemma averaged_tables_follow_totals_witness :
  ∃ st w',
    accumulate_weeks average_points_per_player get_average_score_per_player
      Examples.fl_AB 2 ["QB"; "WR"] ["BE"] Examples.fresh_world = (Ok st, w')
    ∧ overall_teams_data st
      = [Some [("QB", Examples.whole 20); ("WR", Examples.whole 8)];
         Some [("QB", Examples.whole 20); ("WR", Examples.whole 12)]]
    ∧ average_overall_team_data st
      = Some [[("QB", Examples.whole 10); ("WR", Examples.whole 4)];
              [("QB", Examples.whole 10); ("WR", Examples.whole 6)]].
Proof.
  destruct (accumulate_weeks average_points_per_player
              get_average_score_per_player Examples.fl_AB 2 ["QB"; "WR"]
              ["BE"] Examples.fresh_world) as [[st|e] w'] eqn:Hrun;
    [|vm_compute in Hrun; discriminate Hrun].
  exists st, w'. split; [reflexivity|].
  assert (Ho : overall_teams_data st
               = [Some [("QB", Examples.whole 20); ("WR", Examples.whole 8)];
                  Some [("QB", Examples.whole 20); ("WR", Examples.whole 12)]]).
  { vm_compute in Hrun. by injection Hrun as <- _. }
  split; [exact Ho|].
  destruct (average_overall_team_data st) as [avg|] eqn:Havg.
  - pose proof (averaged_tables_follow_totals _ _ _ _ _ _ _ _ _ _ Hrun Havg)
      as H.
    rewrite Ho in H.
    apply Forall2_cons_inv_l in H as (r1 & avg1 & (t1 & [= <-] & ->) & H1 & ->).
    apply Forall2_cons_inv_l in H1 as (r2 & avg2 & (t2 & [= <-] & ->) & H2 & ->).
    apply Forall2_nil_inv_l in H2 as ->. reflexivity.
  - vm_compute in Hrun. rewrite <- Havg. by injection Hrun as <- _.
Defined.

(** ** Sorting by column *)

Lemma insert_by_column_perm t (l : list TeamData) :
  insert_by_column t l ≡ₚ t :: l.
Proof.
  induction l as [|u l IH]; [done|]. simpl.
  destruct (index_column u <? index_column t)%nat; [|done].
  rewrite IH. apply Permutation_swap.
Qed.

Lemma sorted_by_column_perm (l : list TeamData) : sorted_by_column l ≡ₚ l.
Proof.
  unfold sorted_by_column. induction l as [|t l IH]; [done|].
  simpl. by rewrite insert_by_column_perm, IH.
Qed.

(** ** Computations that print nothing *)

Lemma silent_ret {A} (a : A) : silent (mret a).
Proof. by intros w. Qed.

Lemma silent_lift {A} (r : result A) : silent (lift r).
Proof. by intros w. Qed.

Lemma silent_add sh cell v function_name :
  silent (add_data_to_batch sh cell v function_name).
Proof. by intros w. Qed.

Lemma silent_bind {A B} (m : M A) (f : A → M B) :
  silent m → (∀ a, silent (f a)) → silent (m ≫= f).
Proof.
  intros Hm Hf w. rewrite M_bind_unfold. specialize (Hm w).
  destruct (m w) as [[a|e] w1]; simpl in *; [|done].
  by rewrite Hf.
Qed.

Lemma silent_foldW {A B} (f : A → B → M A) (l : list B) (a : A) :
  (∀ a x, silent (f a x)) → silent (foldW f a l).
Proof.
  intros Hf. revert a. induction l as [|x l IH]; intros a.
  - apply silent_ret.
  - cbn [foldW]. apply silent_bind; [apply Hf | intros a'; apply IH].
Qed.

Lemma write_percentage_rows_all_weeks_silent sh started_or_not st row pi
    (positions : list string) :
  silent (write_percentage_rows_all_weeks sh started_or_not st row pi positions).
Proof.
  revert row pi. induction positions as [|pos rest IH]; intros row pi.
  - apply silent_ret.
  - cbn [write_percentage_rows_all_weeks].
    apply silent_bind; [apply silent_add|]. intros _.
    apply silent_bind; [apply silent_lift|]. intros teams_data.
    apply silent_bind.
    { apply silent_foldW. intros a i. unfold write_team_percentage_all_weeks.
      apply silent_bind; [apply silent_lift|]. intros v.
      apply silent_bind; [apply silent_lift|]. intros cell.
      apply silent_bind; [apply silent_add|]. intros _. apply silent_ret. }
    intros la. apply silent_bind; [apply silent_lift|]. intros cell.
    apply silent_bind; [apply silent_lift|]. intros mean.
    apply silent_bind; [apply silent_add|]. intros _. apply IH.
Qed.

(** ** The multi-week percentage aggregation never warns *)

Section NoWarning.

Variable get_table : TeamData → option MetricTable.
Variable weeks n : nat.

Lemma sum_tables_length (acc tbl : MetricTable) :
  length acc = n → length tbl = n → length (sum_tables acc tbl) = n.
Proof.
  intros Ha Ht. unfold sum_tables. rewrite length_zip_with. lia.
Qed.

Lemma accumulate_team_quiet st i t w :
  Forall (table_of_length n) (overall_teams_data st) →
  table_of_length n (get_table t) →
  let r := accumulate_team get_table weeks st (i, t) w in
  stdout r.2 = stdout w
  ∧ ∀ st', r.1 = Ok st' → Forall (table_of_length n) (overall_teams_data st').
Proof.
  intros Hall Ht. cbv zeta.
  unfold accumulate_team, mbind, M_bind, lift, getitem, as_list.
  destruct (overall_teams_data st !! i) as [[a0|]|] eqn:Ei; [|by split..].
  destruct (get_table t) as [a1|]; [|by split].
  assert (Ha0 : length a0 = n).
  { rewrite Forall_forall in Hall.
    apply (Hall (Some a0)), list_elem_of_lookup. eauto. }
  simpl in Ht. rewrite Ha0, Ht, Nat.eqb_refl. simpl.
  destruct (average_tables weeks _) as [avg|e]; simpl; [|by split].
  split; [done|]. intros st' [= <-]. simpl.
  apply Forall_insert; [done|]. simpl. by apply sum_tables_length.
Qed.

Lemma accumulate_teams_quiet (l : list TeamData) k st w :
  Forall (table_of_length n) (overall_teams_data st) →
  Forall (λ t, table_of_length n (get_table t)) l →
  let r := foldW (accumulate_team get_table weeks) st (enumerate k l) w in
  stdout r.2 = stdout w
  ∧ ∀ st', r.1 = Ok st' → Forall (table_of_length n) (overall_teams_data st').
Proof.
  revert k st w. induction l as [|t l IH]; intros k st w Hall Hl.
  - simpl. split; [done|]. by intros st' [= <-].
  - apply Forall_cons in Hl as [Ht Hl]. cbv zeta.
    cbn [enumerate foldW]. rewrite M_bind_unfold.
    destruct (accumulate_team_quiet st k t w Hall Ht) as [Hout Hst].
    destruct (accumulate_team get_table weeks st (k, t) w) as [[st1|e] w1];
      simpl in *; [|by split].
    destruct (IH (S k) st1 w1 (Hst st1 eq_refl) Hl) as [Hout' Hst'].
    split; [congruence | exact Hst'].
Qed.

End NoWarning.

Lemma percentage_tables_of_length (fl : FantasyFootballLeague)
    (positions sc : list string) (week_arg : option nat)
    (out : list TeamData) :
  percentage_of_points_by_position fl positions sc week_arg = Ok out →
  Forall (λ t, table_of_length (length positions)
                 (get_percentage_per_position t)) out.
Proof.
  rewrite percentage_of_points_by_position_spec. intros H.
  apply bind_ok in H as (td & Hget & [= <-]).
  apply Forall_fmap, Forall_forall. intros t Hin. simpl.
  assert (Hfresh : additional_data t = no_additional_data)
    by (by eapply get_teams_data_fresh).
  destruct (with_percentages_fresh positions sc
              (default (week fl) (truthy week_arg)) t Hfresh)
    as (_ & _ & _ & Htab & _).
  destruct (get_percentage_per_position _) as [tbl|]; [|done].
  simpl in *. rewrite Htab. unfold percentage_entries. by rewrite length_fmap.
Qed.

Lemma percentage_weeks_quiet (fl : FantasyFootballLeague) (weeks : nat)
    (positions sc : list string) (wks : list nat) st w :
  Forall (table_of_length (length positions)) (overall_teams_data st) →
  let r := foldW (accumulate_week percentage_of_points_by_position
                    get_percentage_per_position fl weeks positions sc)
                 st wks w in
  stdout r.2 = stdout w.
Proof.
  revert st w. induction wks as [|wk wks IH]; intros st w Hall; [done|].
  cbv zeta. cbn [foldW]. rewrite M_bind_unfold.
  assert (Hweek : let r := accumulate_week percentage_of_points_by_position
                             get_percentage_per_position fl weeks positions sc
                             st wk w in
                  stdout r.2 = stdout w
                  ∧ ∀ st', r.1 = Ok st' →
                      Forall (table_of_length (length positions))
                             (overall_teams_data st')).
  { cbv zeta. unfold accumulate_week. rewrite M_bind_unfold. unfold lift.
    destruct (percentage_of_points_by_position fl positions sc (Some wk))
      as [teams_data|e] eqn:E; [|by split].
    assert (Hsorted : Forall (λ t, table_of_length (length positions)
                                     (get_percentage_per_position t))
                             (sorted_by_column teams_data)).
    { rewrite sorted_by_column_perm. by eapply percentage_tables_of_length. }
    cbn [overall_teams_data average_overall_team_data last_teams_data].
    destruct (overall_teams_data st) as [|o os] eqn:Eo.
    - simpl. split; [done|]. intros st' [= <-]. simpl.
      by apply Forall_fmap.
    - apply (accumulate_teams_quiet get_percentage_per_position weeks
               (length positions)); [|done].
      exact Hall. }
  cbv zeta in Hweek. destruct Hweek as [Hout Hst].
  destruct (accumulate_week _ _ _ _ _ _ st wk w) as [[st1|e] w1]; simpl in *;
    [|done].
  rewrite (IH st1 w1 (Hst st1 eq_refl)). exact Hout.
Qed.

(** X16.  [get_and_write_percentage_of_points_per_position_all_weeks]
    never prints the length-mismatch warning, whatever the league and the
    number of weeks: the percentage tables of any two weeks have the same
    length.  All it prints is the one message of [write_batch], when it
    gets that far. *)
Theorem percentage_all_weeks_never_warns (fl : FantasyFootballLeague)
    (weeks : nat) (sh : string) (start_position : nat)
    (positions_to_check positions_to_omit : list string)
    (started_or_not : string) (w : World) :
  let r := get_and_write_percentage_of_points_per_position_all_weeks fl weeks
             sh start_position positions_to_check positions_to_omit
             started_or_not w in
  ∃ out,
    stdout r.2 = stdout w ++ out
    ∧ (out = [] ∨ out = ["Batch data written successfully."]
       ∨ out = ["Error writing batch to spreadsheet: HttpError"])
    ∧ ∀ t, warning t ∉ out.
Proof.
  cbv zeta.
  unfold get_and_write_percentage_of_points_per_position_all_weeks.
  rewrite M_bind_unfold.
  pose proof (percentage_weeks_quiet fl weeks positions_to_check
                positions_to_omit (seq 1 weeks) initial_totals w
                (Forall_nil_2 _)) as Hacc.
  cbv zeta in Hacc. unfold accumulate_weeks.
  destruct (foldW _ initial_totals (seq 1 weeks) w) as [[st|e] w1];
    simpl in Hacc.
  2:{ exists []. rewrite app_nil_r. split; [done|]. split; [by left|].
      intros t. apply not_elem_of_nil. }
  rewrite M_bind_unfold.
  pose proof (write_percentage_rows_all_weeks_silent sh started_or_not st
                start_position 0 positions_to_check w1) as Hrows.
  destruct (write_percentage_rows_all_weeks _ _ _ _ _ _ w1) as [[[]|e] w2];
    simpl in Hrows.
  2:{ exists []. rewrite app_nil_r. simpl. split; [congruence|].
      split; [by left|].
      intros t. apply not_elem_of_nil. }
  unfold write_batch.
  destruct (service w2 (requests w2) _); simpl; rewrite Hrows, Hacc.
  - eexists. split; [reflexivity|]. split; [right; by left|].
    intros t Hin. apply list_elem_of_singleton in Hin. discriminate Hin.
  - eexists. split; [reflexivity|]. split; [right; by right|].
    intros t Hin. apply list_elem_of_singleton in Hin. discriminate Hin.
  - exists []. rewrite app_nil_r. split; [done|]. split; [by left|].
    intros t. apply not_elem_of_nil.
Qed.

(** ** The scalar multi-week rows *)

Section ScalarLoop.

Variable value_of : TeamData → result double.

Lemma accumulate_scalars_run (l : list TeamData) (vs pre cur : list double)
    (td : option (list TeamData)) (w : World) :
  forM value_of l = Ok vs →
  length cur = length l →
  foldW (accumulate_scalar value_of)
        {| overall_scalars := pre ++ cur; scalar_teams_data := td |}
        (enumerate (length pre) l) w
  = (Ok {| overall_scalars := pre ++ zip_with Num.add cur vs;
           scalar_teams_data := td |}, w).
Proof.
  revert vs pre cur. induction l as [|t l IH]; intros vs pre cur Hvs Hlen.
  - injection Hvs as <-. destruct cur; [done | discriminate Hlen].
  - cbn [forM] in Hvs. apply bind_ok in Hvs as (v & Hv & Hvs).
    apply bind_ok in Hvs as (vs' & Hvs' & [= <-]).
    destruct cur as [|c cur]; [discriminate Hlen|].
    cbn [enumerate foldW]. rewrite M_bind_unfold.
    unfold accumulate_scalar at 1. cbn [overall_scalars scalar_teams_data].
    unfold mbind at 1, M_bind at 1, lift at 1, getitem.
    rewrite lookup_app_r, Nat.sub_diag by lia. cbn [lookup list_lookup].
    unfold mbind at 1, M_bind at 1, lift at 1. rewrite Hv.
    unfold mret, M_ret.
    replace (<[length pre:=Num.add c v]> (pre ++ c :: cur))
      with ((pre ++ [Num.add c v]) ++ cur).
    2:{ rewrite insert_app_r_alt, Nat.sub_diag by lia. simpl.
        by rewrite <- app_assoc. }
    replace (S (length pre)) with (length (pre ++ [Num.add c v]))
      by (rewrite length_app; simpl; lia).
    rewrite (IH vs' (pre ++ [Num.add c v]) cur Hvs') by (simpl in Hlen; lia).
    cbn [zip_with]. by rewrite <- app_assoc.
Qed.

Lemma accumulate_scalar_week_run fl st wk (teams_data : list TeamData)
    (vs : list double) (w : World) :
  power_ranking_per_player fl (Some wk) = Ok teams_data →
  forM value_of (sorted_by_column teams_data) = Ok vs →
  (overall_scalars st = [] ∨ length (overall_scalars st) = length vs) →
  accumulate_scalar_week value_of fl st wk w
  = (Ok {| overall_scalars :=
             match overall_scalars st with
             | [] => vs
             | _ :: _ => zip_with Num.add (overall_scalars st) vs
             end;
           scalar_teams_data := Some teams_data |}, w).
Proof.
  intros Htd Hvs Hlen. unfold accumulate_scalar_week.
  rewrite M_bind_unfold. unfold lift at 1. rewrite Htd.
  cbn [overall_scalars scalar_teams_data].
  destruct (overall_scalars st) as [|o os] eqn:Eo.
  - rewrite M_bind_unfold. unfold lift. by rewrite Hvs.
  - destruct Hlen as [Hnil|Hlen]; [discriminate Hnil|].
    apply (accumulate_scalars_run _ vs [] (o :: os)); [done|].
    rewrite Hlen. exact (forM_length _ _ _ Hvs).
Qed.

Lemma scalar_weeks_run fl (tds : nat → list TeamData) (vals : nat → list double)
    (n : nat) (wks : list nat) st (w : World) :
  (∀ wk, wk ∈ wks →
     power_ranking_per_player fl (Some wk) = Ok (tds wk)
     ∧ forM value_of (sorted_by_column (tds wk)) = Ok (vals wk)
     ∧ length (vals wk) = n) →
  (overall_scalars st = [] ∨ length (overall_scalars st) = n) →
  foldW (accumulate_scalar_week value_of fl) st wks w
  = (Ok {| overall_scalars := scalar_totals vals wks (overall_scalars st);
           scalar_teams_data := match last wks with
                                | Some wk => Some (tds wk)
                                | None => scalar_teams_data st
                                end |}, w).
Proof.
  revert st. induction wks as [|wk wks IH]; intros st Hw Hlen.
  - by destruct st.
  - destruct (Hw wk) as (Htd & Hvs & Hn); [left|].
    cbn [foldW]. rewrite M_bind_unfold.
    rewrite (accumulate_scalar_week_run fl st wk _ _ w Htd Hvs)
      by (rewrite Hn; exact Hlen).
    rewrite IH.
    + cbn [overall_scalars scalar_teams_data scalar_totals foldl].
      do 3 f_equal. destruct wks as [|wk' wks]; [done|].
      change (last (wk :: wk' :: wks)) with (last (wk' :: wks)).
      destruct (last (wk' :: wks)) eqn:El; [done|].
      apply last_None in El. discriminate El.
    + intros wk' Hin. apply Hw. by right.
    + cbn [overall_scalars]. right.
      destruct (overall_scalars st) as [|o os] eqn:Eo; [done|].
      destruct Hlen as [Hnil|Hlen]; [discriminate Hnil|].
      rewrite length_zip_with. lia.
Qed.

End ScalarLoop.

(** ** The multi-week rows of one number per team *)

Lemma stages_pure {A} (m : M A) (w : World) (a : A) :
  m w = (Ok a, w) → stages m w a [].
Proof. intros H. exists w. by rewrite app_nil_r. Qed.

(** The running totals after the weeks [wks]: column by column, what they
    held before plus the weeks' values. *)
Lemma scalar_totals_sums (vals : nat → list double) (n : nat) (wks : list nat)
    (init : list double) :
  (0 < n)%nat → length init = n →
  (∀ wk, wk ∈ wks → length (vals wk) = n) →
  length (scalar_totals vals wks init) = n
  ∧ ∀ i, (i < n)%nat →
      default Num.zero (scalar_totals vals wks init !! i)
      = foldl Num.add (default Num.zero (init !! i))
              ((λ wk, default Num.zero (vals wk !! i)) <$> wks).
Proof.
  intros Hn. revert init.
  induction wks as [|wk wks IH]; intros init Hinit Hlen.
  - split; [done|]. intros i _. reflexivity.
  - assert (Hwk : length (vals wk) = n) by (apply Hlen; left).
    change (scalar_totals vals (wk :: wks) init)
      with (scalar_totals vals wks
              match init with
              | [] => vals wk
              | _ :: _ => zip_with Num.add init (vals wk)
              end).
    destruct init as [|x init]; [simpl in Hinit; lia|].
    destruct (IH (zip_with Num.add (x :: init) (vals wk))) as [IHl IHs].
    + rewrite length_zip_with. lia.
    + intros wk' Hin. apply Hlen. by right.
    + split; [done|]. intros i Hi. rewrite (IHs i Hi), lookup_zip_with.
      destruct (lookup_lt_is_Some_2 (x :: init) i) as [a Ha]; [lia|].
      destruct (lookup_lt_is_Some_2 (vals wk) i) as [b Hb]; [lia|].
      rewrite Ha, Hb, fmap_cons, Hb. reflexivity.
Qed.

(** Dividing the totals of the weeks [1..weeks] by [weeks] and rounding
    gives each column's rounded mean. *)
Lemma scalar_means (vals : nat → list double) (n weeks : nat) :
  (0 < n)%nat → (0 < weeks)%nat →
  (∀ wk, wk ∈ seq 1 weeks → length (vals wk) = n) →
  (λ v, Num.round2 (Num.quot v (Num.of_nat weeks)))
    <$> scalar_totals vals (seq 1 weeks) []
  = multi_week_mean vals weeks <$> seq 0 n.
Proof.
  intros Hn Hweeks Hlen. destruct weeks as [|k]; [lia|].
  assert (H1 : length (vals 1%nat) = n) by (apply Hlen; left).
  change (scalar_totals vals (seq 1 (S k)) [])
    with (scalar_totals vals (seq 2 k) (vals 1%nat)).
  destruct (scalar_totals_sums vals n (seq 2 k) (vals 1%nat) Hn H1)
    as [Hl Hs].
  { intros wk Hin. apply Hlen. by right. }
  apply list_eq. intros i. rewrite !list_lookup_fmap.
  destruct (decide (i < n)%nat) as [Hi|Hi].
  - destruct (lookup_lt_is_Some_2 (scalar_totals vals (seq 2 k) (vals 1%nat)) i)
      as [t Ht]; [lia|].
    specialize (Hs i Hi). rewrite Ht in Hs. cbn [default] in Hs.
    rewrite Ht, lookup_seq_lt by done. cbn [fmap option_fmap option_map].
    f_equal. unfold multi_week_mean, week_column.
    change (id t) with t in Hs. rewrite Hs.
    change (seq 1 (S k)) with (1%nat :: seq 2 k). rewrite fmap_cons.
    reflexivity.
  - rewrite lookup_ge_None_2, lookup_seq_ge by lia. done.
Qed.

Lemma enumerate_cells sh row (l : list double) (s : nat) :
  flat_map (λ iv : nat * double, [cell_write sh (ord_A + iv.1) row (VNum iv.2)])
           (enumerate s l)
  = team_cells sh row (seq s (length l)) l.
Proof.
  revert s. induction l as [|x l IH]; intros s; [done|].
  cbn [enumerate flat_map length seq]. rewrite IH. reflexivity.
Qed.

Lemma enumerate_sum (l : list double) (s : nat) (a : double) :
  foldl (λ acc (iv : nat * double), Num.add acc iv.2) a (enumerate s l)
  = foldl Num.add a l.
Proof.
  revert s a. induction l as [|x l IH]; intros s a; [done|].
  cbn [enumerate foldl]. apply IH.
Qed.

Lemma enumerate_elem {A} (l : list A) (s i : nat) (x : A) :
  (i, x) ∈ enumerate s l → (s ≤ i < s + length l)%nat.
Proof.
  revert s. induction l as [|y l IH]; intros s Hin.
  - by apply elem_of_nil in Hin.
  - cbn [enumerate] in Hin. apply elem_of_cons in Hin as [[= -> ->]|Hin].
    + simpl. lia.
    + apply IH in Hin. simpl. lia.
Qed.

Lemma write_rounded_value_stages sh row acc (iv : nat * double) (w : World) :
  (N.of_nat iv.1 <= 1114046)%N →
  stages (write_rounded_value sh row acc iv) w (Num.add acc iv.2)
         [cell_write sh (ord_A + iv.1) row (VNum iv.2)].
Proof.
  destruct iv as [i v]. intros Hi. unfold write_rounded_value.
  change [cell_write sh (ord_A + (i, v).1) row (VNum (i, v).2)]
    with ([] ++ [cell_write sh (ord_A + i) row (VNum v)] ++ []).
  eapply stages_bind; [by apply stages_lift, cell_at_ok|]. intros w1.
  eapply stages_bind; [apply stages_add|]. intros w2.
  apply stages_ret.
Qed.

Section ScalarReport.

Variable value_of : TeamData → result double.
Variables label label_tag : string.

(** When every week of the range yields [n] values, the report sends one
    row: the label, the rounded mean over the weeks of the [k]-th value in
    column [k], and the rounded mean of these written means after them. *)
Lemma write_scalar_all_weeks_sends fl (tds : nat → list TeamData)
    (vals : nat → list double) (n weeks : nat) sh (index_row : nat) (w : World) :
  (0 < weeks)%nat → (0 < n)%nat → (N.of_nat n < 1114046)%N →
  (∀ wk, wk ∈ seq 1 weeks →
     power_ranking_per_player fl (Some wk) = Ok (tds wk)
     ∧ forM value_of (sorted_by_column (tds wk)) = Ok (vals wk)
     ∧ length (vals wk) = n) →
  let means := multi_week_mean vals weeks <$> seq 0 n in
  sends (write_scalar_all_weeks value_of label label_tag fl weeks sh index_row)
        w (metric_row sh index_row label (seq 1 n) means (league_mean means)).
Proof.
  intros Hweeks Hn Hbound Hw means. unfold write_scalar_all_weeks.
  pose proof (scalar_weeks_run value_of fl tds vals n (seq 1 weeks)
                initial_scalar_totals) as Hloop.
  assert (Hlast : last (seq 1 weeks) = Some weeks).
  { destruct weeks as [|k]; [lia|].
    rewrite seq_S, last_snoc. f_equal. }
  rewrite Hlast in Hloop. cbn [initial_scalar_totals overall_scalars] in Hloop.
  assert (Hmeans : (λ v, Num.round2 (Num.quot v (Num.of_nat weeks)))
                     <$> scalar_totals vals (seq 1 weeks) [] = means).
  { apply scalar_means; [done..|]. intros wk Hin. by apply Hw. }
  assert (Hlm : length means = n) by (subst means; by rewrite length_fmap, length_seq).
  assert (Htd : length (tds weeks) = n).
  { destruct (Hw weeks) as (_ & Hv & Hl).
    - apply elem_of_seq. lia.
    - apply forM_length in Hv. rewrite <- Hl, Hv.
      by rewrite sorted_by_column_perm. }
  destruct (league_average_div means n Hn) as (q & Hq & _ & Hr).
  unfold metric_row, league_mean. rewrite Hlm, <- Hr, length_seq.
  change (cell_write sh ord_A index_row (VStr label)
          :: team_cells sh index_row (seq 1 n) means
          ++ [cell_write sh (ord_A + (n + 1)) index_row (VNum (Num.round2 q))])
    with ([] ++ [] ++ [cell_write sh ord_A index_row (VStr label)]
          ++ team_cells sh index_row (seq 1 n) means
          ++ [] ++ [] ++ []
          ++ [cell_write sh (ord_A + (n + 1)) index_row (VNum (Num.round2 q))]
          ++ []).
  eapply sends_bind.
  { apply stages_pure, Hloop; [exact Hw | by left]. }
  intros w1. cbn [overall_scalars scalar_teams_data].
  eapply sends_bind.
  { apply stages_lift.
    rewrite (forM_pure (λ v, Num.round2 (Num.quot v (Num.of_nat weeks)))).
    - by rewrite Hmeans.
    - intros v. by rewrite div_int_pos. }
  intros w2.
  eapply sends_bind; [apply stages_add|]. intros w3.
  eapply sends_bind.
  { pose proof (stages_foldW (write_rounded_value sh index_row)
                  (λ acc (iv : nat * double), Num.add acc iv.2)
                  (λ iv : nat * double,
                     [cell_write sh (ord_A + iv.1) index_row (VNum iv.2)])
                  (enumerate 1 means) Num.zero w3) as Hrow.
    rewrite enumerate_cells, enumerate_sum, Hlm in Hrow. apply Hrow.
    intros a [i v] w' Hin. apply write_rounded_value_stages.
    apply enumerate_elem in Hin. simpl. lia. }
  intros w4.
  eapply sends_bind; [by apply stages_lift|]. intros w5.
  eapply sends_bind.
  { apply stages_lift. rewrite Htd. apply cell_at_ok. lia. }
  intros w6.
  eapply sends_bind; [apply stages_lift; rewrite Htd; exact Hq|].
  intros w7.
  eapply sends_bind; [apply stages_add|]. intros w8.
  apply sends_write_batch.
Qed.

End ScalarReport.

Lemma insert_by_column_fmap (f : TeamData → TeamData) (t : TeamData)
    (l : list TeamData) :
  (∀ u, index_column (f u) = index_column u) →
  insert_by_column (f t) (f <$> l) = f <$> insert_by_column t l.
Proof.
  intros Hf. induction l as [|u l IH]; [done|].
  rewrite fmap_cons. cbn [insert_by_column]. rewrite !Hf.
  destruct (index_column u <? index_column t)%nat.
  - by rewrite IH, fmap_cons.
  - by rewrite !fmap_cons.
Qed.

(** Sorting by column commutes with a change that keeps the columns. *)
Lemma sorted_by_column_fmap (f : TeamData → TeamData) (l : list TeamData) :
  (∀ u, index_column (f u) = index_column u) →
  sorted_by_column (f <$> l) = f <$> sorted_by_column l.
Proof.
  intros Hf. unfold sorted_by_column. induction l as [|u l IH]; [done|].
  rewrite fmap_cons. cbn [foldr]. rewrite IH. by apply insert_by_column_fmap.
Qed.

Lemma set_ranking_column o t : index_column (set_ranking o t) = index_column t.
Proof. by destruct o. Qed.

Lemma set_ranking_delta o t :
  projection_delta (set_ranking o t) = projection_delta t.
Proof. by destruct o. Qed.

(** The snapshots the multi-week loops read in week [wk], in column
    order. *)
Lemma ranked_week_sorted fl (wk : nat) (teams_data : list TeamData) :
  (1 ≤ wk)%nat →
  get_teams_data fl (Some wk) = Ok teams_data →
  let rk t := ranking_of (power_rankings (league fl) wk) (team t) in
  power_ranking_per_player fl (Some wk)
  = Ok ((λ t, set_ranking (rk t) t) <$> teams_data)
  ∧ sorted_by_column ((λ t, set_ranking (rk t) t) <$> teams_data)
    = (λ t, set_ranking (rk t) t) <$> sorted_by_column teams_data.
Proof.
  intros Hwk Hget rk. split.
  - destruct wk as [|k]; [lia|].
    exact (power_ranking_per_player_spec fl (Some (S k)) teams_data Hget).
  - apply sorted_by_column_fmap. intros u. apply set_ranking_column.
Qed.

(** X17.  Over a range of one or more weeks that all have the same number
    of snapshots, [get_and_write_over_under_projection_all_weeks] sends one
    request: the label, in column [k] the mean over the weeks, rounded to 2
    decimals, of [round(score - projected, 2)] of each week's [k]-th
    snapshot in [index_column] order, and after them the mean of these
    written means, rounded again.  The column is the position in that
    order, not the snapshot's own [index_column]. *)
Theorem over_under_all_weeks_row (fl : FantasyFootballLeague) (weeks n : nat)
    (sh : string) (index_row : nat) (w : World)
    (tds : nat → list TeamData) :
  (0 < weeks)%nat → (0 < n)%nat → (N.of_nat n < 1114046)%N →
  (∀ wk, (1 ≤ wk ≤ weeks)%nat →
     get_teams_data fl (Some wk) = Ok (tds wk) ∧ length (tds wk) = n) →
  let vals wk := projection_delta <$> sorted_by_column (tds wk) in
  let means := multi_week_mean vals weeks <$> seq 0 n in
  sends (get_and_write_over_under_projection_all_weeks fl weeks sh index_row)
        w (metric_row sh index_row "Over/Under Projection" (seq 1 n) means
             (league_mean means)).
Proof.
  intros Hweeks Hn Hbound Hw vals means.
  unfold get_and_write_over_under_projection_all_weeks.
  apply (write_scalar_all_weeks_sends projection_value _ _ fl
           (λ wk, (λ t, set_ranking
                          (ranking_of (power_rankings (league fl) wk) (team t))
                          t) <$> tds wk)
           vals n weeks sh index_row w Hweeks Hn Hbound).
  intros wk Hin. apply elem_of_seq in Hin.
  destruct (Hw wk) as [Hget Hlen]; [lia|].
  destruct (ranked_week_sorted fl wk (tds wk)) as [Hppp Hsort]; [lia|done|].
  split; [exact Hppp|]. rewrite Hsort. subst vals. cbv beta. split.
  - apply forM_fmap_in. intros t _. unfold projection_value.
    by rewrite projection_value_delta, set_ranking_delta.
  - by rewrite length_fmap, sorted_by_column_perm.
Qed.

(** Team E is 0.01 over its projection in week 1 and 0.02 in week 2,
    team F 0.02 in both: Python writes 0.01 and 0.02, and 0.01 for their
    mean. *)
Lemma over_under_all_weeks_row_witness :
  ∃ ws,
    sends (get_and_write_over_under_projection_all_weeks Examples.fl_EF 2
             "Summary" 17) Examples.fresh_world ws
    ∧ values <$> ws
      = [VStr "Over/Under Projection"; VNum (Examples.cents 1);
         VNum (Examples.cents 2); VNum (Examples.cents 1)].
Proof.
  eexists. split.
  - apply (over_under_all_weeks_row Examples.fl_EF 2 2 "Summary" 17
             Examples.fresh_world
             (λ wk, match get_teams_data Examples.fl_EF (Some wk) with
                    | Ok l => l
                    | Raise _ => []
                    end)); [lia | lia | lia |].
    intros wk Hwk.
    assert (Hcase : wk = 1%nat ∨ wk = 2%nat) by lia.
    destruct Hcase as [->| ->]; split; reflexivity.
  - vm_compute. reflexivity.
Defined.

(** X18.  Over a range of one or more weeks that all have the same number
    of snapshots, each with a ranking,
    [get_and_write_power_ranking_all_weeks] sends one request: the label, in
    column [k] the mean over the weeks, rounded to 2 decimals, of the
    ranking of each week's [k]-th snapshot in [index_column] order, and
    after them the mean of these written means, rounded to 2 decimals. *)
Theorem power_ranking_all_weeks_row (fl : FantasyFootballLeague)
    (weeks n : nat) (sh : string) (index_row : nat) (w : World)
    (tds : nat → list TeamData) :
  (0 < weeks)%nat → (0 < n)%nat → (N.of_nat n < 1114046)%N →
  (∀ wk, (1 ≤ wk ≤ weeks)%nat →
     get_teams_data fl (Some wk) = Ok (tds wk) ∧ length (tds wk) = n) →
  let rk wk t := ranking_of (power_rankings (league fl) wk) (team t) in
  (∀ wk t, (1 ≤ wk ≤ weeks)%nat → t ∈ tds wk → is_Some (rk wk t)) →
  let vals wk := (λ t, default Num.zero (rk wk t)) <$> sorted_by_column (tds wk) in
  let means := multi_week_mean vals weeks <$> seq 0 n in
  sends (get_and_write_power_ranking_all_weeks fl weeks sh index_row)
        w (metric_row sh index_row "Power Ranking" (seq 1 n) means
             (league_mean means)).
Proof.
  intros Hweeks Hn Hbound Hw rk Hrk vals means.
  unfold get_and_write_power_ranking_all_weeks.
  apply (write_scalar_all_weeks_sends ranking_value _ _ fl
           (λ wk, (λ t, set_ranking (rk wk t) t) <$> tds wk)
           vals n weeks sh index_row w Hweeks Hn Hbound).
  intros wk Hin. apply elem_of_seq in Hin.
  destruct (Hw wk) as [Hget Hlen]; [lia|].
  destruct (ranked_week_sorted fl wk (tds wk)) as [Hppp Hsort]; [lia|done|].
  split; [exact Hppp|].
  change (sorted_by_column ((λ t, set_ranking (rk wk t) t) <$> tds wk)
          = (λ t, set_ranking (rk wk t) t) <$> sorted_by_column (tds wk))
    in Hsort.
  rewrite Hsort.
  subst vals. cbv beta. split.
  - apply forM_fmap_in. intros t Hin'.
    rewrite sorted_by_column_perm in Hin'.
    destruct (set_ranking_fields (rk wk t) t) as (_ & _ & _ & _ & _ & Hr).
    { by eapply get_teams_data_fresh. }
    unfold ranking_value. rewrite Hr.
    destruct (Hrk wk t) as [r Hr']; [lia | done |]. by rewrite Hr'.
  - by rewrite length_fmap, sorted_by_column_perm.
Qed.

(** Team E is ranked 25.35 in week 1 and 30.1 in week 2, team F 11.0 in
    both: Python writes 27.73 and 11.0, and 19.37 for their mean. *)
Lemma power_ranking_all_weeks_row_witness :
  ∃ ws,
    sends (get_and_write_power_ranking_all_weeks Examples.fl_EF 2
             "Summary" 16) Examples.fresh_world ws
    ∧ values <$> ws
      = [VStr "Power Ranking"; VNum (Examples.cents 2773);
         VNum (Examples.cents 1100); VNum (Examples.cents 1937)].
Proof.
  eexists. split.
  - apply (power_ranking_all_weeks_row Examples.fl_EF 2 2 "Summary" 16
             Examples.fresh_world
             (λ wk, match get_teams_data Examples.fl_EF (Some wk) with
                    | Ok l => l
                    | Raise _ => []
                    end)); [lia | lia | lia | |].
    + intros wk Hwk.
      assert (Hcase : wk = 1%nat ∨ wk = 2%nat) by lia.
      destruct Hcase as [->| ->]; split; reflexivity.
    + intros wk t Hwk Hin.
      assert (Hcase : wk = 1%nat ∨ wk = 2%nat) by lia.
      destruct Hcase as [->| ->]; apply list_elem_of_In in Hin;
        destruct Hin as [<-|[<-|[]]]; vm_compute; eauto.
  - vm_compute. reflexivity.
Defined.

(** ** An empty range of weeks *)

Lemma aborts_lift {A} (r : result A) (e : exn) (w : World) :
  r = Raise e → aborts (lift r) w e [].
Proof. intros ->. exists w. by rewrite app_nil_r. Qed.

Lemma aborts_bind_l {A B} (m : M A) (f : A → M B) (w : World) e ws :
  aborts m w e ws → aborts (m ≫= f) w e ws.
Proof.
  intros (w1 & Hm & Hr & Hb). exists w1. by rewrite M_bind_unfold, Hm.
Qed.

Lemma aborts_bind_r {A B} (m : M A) (f : A → M B) (w : World) a e ws1 ws2 :
  stages m w a ws1 → (∀ w', aborts (f a) w' e ws2) →
  aborts (m ≫= f) w e (ws1 ++ ws2).
Proof.
  intros (w1 & Hm & _ & Hr1 & _ & Hb1) Hf.
  destruct (Hf w1) as (w2 & Hf2 & Hr2 & Hb2).
  exists w2. rewrite M_bind_unfold, Hm. split; [done|].
  split; [congruence|]. by rewrite Hb2, Hb1, app_assoc.
Qed.

Lemma write_scalar_no_weeks (value_of : TeamData → result double)
    (label label_tag : string) fl sh (index_row : nat) (w : World) :
  aborts (write_scalar_all_weeks value_of label label_tag fl 0 sh index_row)
         w UnboundLocalError [cell_write sh ord_A index_row (VStr label)].
Proof.
  unfold write_scalar_all_weeks.
  change [cell_write sh ord_A index_row (VStr label)]
    with ([] ++ [] ++ [cell_write sh ord_A index_row (VStr label)] ++ [] ++ []).
  eapply aborts_bind_r; [apply stages_ret|]. intros w1.
  eapply aborts_bind_r; [by apply stages_lift|]. intros w2.
  eapply aborts_bind_r; [apply stages_add|]. intros w3.
  eapply aborts_bind_r; [apply stages_ret|]. intros w4.
  apply aborts_bind_l. by apply aborts_lift.
Qed.

(** X19.  Over an empty range of weeks ([weeks = 0]) the week loop never
    assigns [teams_data]: each of the four multi-week report functions
    (the two table ones when at least one position is requested) stages
    its first label, then raises [UnboundLocalError] without sending a
    request.  The label stays pending in the manager. *)
Theorem no_weeks_raise_after_label (fl : FantasyFootballLeague) (sh : string)
    (index_row : nat) (pos : string) (rest positions_to_omit : list string)
    (started_or_not : string) (w : World) :
  aborts (get_and_write_power_ranking_all_weeks fl 0 sh index_row) w
         UnboundLocalError
         [cell_write sh ord_A index_row (VStr "Power Ranking")]
  ∧ aborts (get_and_write_over_under_projection_all_weeks fl 0 sh index_row) w
           UnboundLocalError
           [cell_write sh ord_A index_row (VStr "Over/Under Projection")]
  ∧ aborts (get_and_write_average_points_per_player_all_weeks fl 0 sh
              index_row (pos :: rest) positions_to_omit started_or_not) w
           UnboundLocalError
           [cell_write sh ord_A index_row
              (VStr ("Pts/" +:+ pos +:+ " " +:+ started_or_not))]
  ∧ aborts (get_and_write_percentage_of_points_per_position_all_weeks fl 0 sh
              index_row (pos :: rest) positions_to_omit started_or_not) w
           UnboundLocalError
           [cell_write sh ord_A index_row
              (VStr ("% points/" +:+ pos +:+ " " +:+ started_or_not))].
Proof.
  split; [apply write_scalar_no_weeks|].
  split; [apply write_scalar_no_weeks|].
  split.
  - unfold get_and_write_average_points_per_player_all_weeks.
    change [cell_write sh ord_A index_row
              (VStr ("Pts/" +:+ pos +:+ " " +:+ started_or_not))]
      with ([] ++ [cell_write sh ord_A index_row
                     (VStr ("Pts/" +:+ pos +:+ " " +:+ started_or_not))]
            ++ []).
    eapply aborts_bind_r; [apply stages_ret|]. intros w1.
    apply aborts_bind_l. cbn [write_average_rows_all_weeks].
    eapply aborts_bind_r; [apply stages_add|]. intros w2.
    apply aborts_bind_l. by apply aborts_lift.
  - unfold get_and_write_percentage_of_points_per_position_all_weeks.
    change [cell_write sh ord_A index_row
              (VStr ("% points/" +:+ pos +:+ " " +:+ started_or_not))]
      with ([] ++ [cell_write sh ord_A index_row
                     (VStr ("% points/" +:+ pos +:+ " " +:+ started_or_not))]
            ++ []).
    eapply aborts_bind_r; [apply stages_ret|]. intros w1.
    apply aborts_bind_l. cbn [write_percentage_rows_all_weeks].
    eapply aborts_bind_r; [apply stages_add|]. intros w2.
    apply aborts_bind_l. by apply aborts_lift.
Qed.

(** ** Column order *)

Lemma insert_by_column_sorted (t : TeamData) (l : list TeamData) :
  Sorted (λ a b, (index_column a ≤ index_column b)%nat) l →
  Sorted (λ a b, (index_column a ≤ index_column b)%nat) (insert_by_column t l).
Proof.
  induction l as [|u l IH]; intros Hs.
  - repeat constructor.
  - cbn [insert_by_column].
    destruct (Nat.ltb_spec (index_column u) (index_column t)) as [Hlt|Hge].
    + apply Sorted_inv in Hs as [Hs Hhd]. constructor; [by apply IH|].
      destruct l as [|v l]; cbn [insert_by_column].
      * constructor. lia.
      * apply HdRel_inv in Hhd.
        destruct (index_column v <? index_column t)%nat; constructor; lia.
    + constructor; [done|]. by constructor.
Qed.

Lemma sorted_by_column_sorted (l : list TeamData) :
  Sorted (λ a b, (index_column a ≤ index_column b)%nat) (sorted_by_column l).
Proof.
  unfold sorted_by_column. induction l as [|t l IH]; [constructor|].
  cbn [foldr]. by apply insert_by_column_sorted.
Qed.

Lemma seq_sorted (s n : nat) : Sorted le (seq s n).
Proof.
  revert s. induction n as [|n IH]; intros s; [constructor|].
  cbn [seq]. constructor; [apply IH|].
  destruct n; constructor. lia.
Qed.

(** X20.  The multi-week loops visit each week's snapshots through
    [sorted(teams_data, key=index_column)]: the same snapshots, in
    non-decreasing column order.  When the week's snapshots fill the
    columns [1..n] once each (every team of the league plays), position
    [i] of the sorted list holds the snapshot of column [i + 1], so the
    running totals at position [i] add up the values of one team. *)
Theorem sorted_by_column_positions (l : list TeamData) (n : nat) :
  index_column <$> l ≡ₚ seq 1 n →
  sorted_by_column l ≡ₚ l
  ∧ index_column <$> sorted_by_column l = seq 1 n
  ∧ ∀ i t, sorted_by_column l !! i = Some t →
           t ∈ l ∧ index_column t = (i + 1)%nat.
Proof.
  intros Hperm.
  assert (Hcols : index_column <$> sorted_by_column l = seq 1 n).
  { apply (Sorted_unique le).
    - apply (Sorted_fmap _ (λ a b, (index_column a ≤ index_column b)%nat));
        [done|]. apply sorted_by_column_sorted.
    - apply seq_sorted.
    - by rewrite sorted_by_column_perm. }
  split; [apply sorted_by_column_perm|]. split; [done|].
  intros i t Hi. split.
  - rewrite <- (sorted_by_column_perm l). by eapply list_elem_of_lookup_2.
  - assert (Hc : (index_column <$> sorted_by_column l) !! i
                 = Some (index_column t))
      by (by rewrite list_lookup_fmap, Hi).
    rewrite Hcols in Hc. apply lookup_seq in Hc as [-> _]. lia.
Qed.

Lemma sorted_by_column_positions_witness :
  index_column <$>
    sorted_by_column
      [new_TeamData Examples.team_B [] 2 Num.zero Num.zero;
       new_TeamData Examples.team_A [] 1 Num.zero Num.zero]
  = [1%nat; 2%nat].
Proof.
  apply (sorted_by_column_positions
           [new_TeamData Examples.team_B [] 2 Num.zero Num.zero;
            new_TeamData Examples.team_A [] 1 Num.zero Num.zero] 2).
  apply Permutation_swap.
Defined.

(** ** A week whose values cannot all be read *)

Section ScalarRaise.

Variable value_of : TeamData → result double.

Lemma accumulate_scalars_raise (l : list TeamData) (e : exn)
    (pre cur : list double) (td : option (list TeamData)) (w : World) :
  forM value_of l = Raise e →
  length cur = length l →
  foldW (accumulate_scalar value_of)
        {| overall_scalars := pre ++ cur; scalar_teams_data := td |}
        (enumerate (length pre) l) w
  = (Raise e, w).
Proof.
  revert pre cur. induction l as [|t l IH]; intros pre cur Hr Hlen;
    [discriminate Hr|].
  cbn [forM] in Hr.
  destruct cur as [|c cur]; [discriminate Hlen|].
  cbn [enumerate foldW]. rewrite M_bind_unfold.
  unfold accumulate_scalar at 1. cbn [overall_scalars scalar_teams_data].
  unfold mbind at 1, M_bind at 1, lift at 1, getitem.
  rewrite lookup_app_r, Nat.sub_diag by lia. cbn [lookup list_lookup].
  unfold mbind at 1, M_bind at 1, lift at 1.
  apply bind_raise in Hr as [Hv | (v & Hv & Hr)].
  - by rewrite Hv.
  - apply bind_raise in Hr as [Hr | (ys & _ & [=])].
    rewrite Hv. unfold mret, M_ret.
    replace (<[length pre:=Num.add c v]> (pre ++ c :: cur))
      with ((pre ++ [Num.add c v]) ++ cur).
    2:{ rewrite insert_app_r_alt, Nat.sub_diag by lia. simpl.
        by rewrite <- app_assoc. }
    replace (S (length pre)) with (length (pre ++ [Num.add c v]))
      by (rewrite length_app; simpl; lia).
    apply IH; [done | simpl in Hlen; lia].
Qed.

Lemma accumulate_scalar_week_raise fl st wk (teams_data : list TeamData)
    (e : exn) (w : World) :
  power_ranking_per_player fl (Some wk) = Ok teams_data →
  forM value_of (sorted_by_column teams_data) = Raise e →
  (overall_scalars st = []
   ∨ length (overall_scalars st) = length teams_data) →
  accumulate_scalar_week value_of fl st wk w = (Raise e, w).
Proof.
  intros Htd Hr Hlen. unfold accumulate_scalar_week.
  rewrite M_bind_unfold. unfold lift at 1. rewrite Htd.
  cbn [overall_scalars scalar_teams_data].
  destruct (overall_scalars st) as [|o os] eqn:Eo.
  - rewrite M_bind_unfold. unfold lift. by rewrite Hr.
  - destruct Hlen as [Hnil|Hlen]; [discriminate Hnil|].
    apply (accumulate_scalars_raise _ e [] (o :: os)); [done|].
    by rewrite Hlen, sorted_by_column_perm.
Qed.

(** When one of the weeks cannot give all its values, the loop over the
    weeks raises, and the manager is as it was. *)
Lemma scalar_weeks_raise fl (tds : nat → list TeamData) (n : nat) (e0 : exn)
    (wks : list nat) st (w : World) :
  (∀ wk, wk ∈ wks →
     power_ranking_per_player fl (Some wk) = Ok (tds wk)
     ∧ length (tds wk) = n
     ∧ ∀ e, forM value_of (sorted_by_column (tds wk)) = Raise e → e = e0) →
  (∃ wk e, wk ∈ wks
           ∧ forM value_of (sorted_by_column (tds wk)) = Raise e) →
  (overall_scalars st = [] ∨ length (overall_scalars st) = n) →
  foldW (accumulate_scalar_week value_of fl) st wks w = (Raise e0, w).
Proof.
  revert st. induction wks as [|wk wks IH]; intros st Hw Hex Hlen.
  - destruct Hex as (wk & e & Hin & _). by apply elem_of_nil in Hin.
  - destruct (Hw wk) as (Htd & Hn & He); [left|].
    cbn [foldW]. rewrite M_bind_unfold.
    destruct (forM value_of (sorted_by_column (tds wk))) as [vs|e] eqn:E.
    + assert (Hvs : length vs = n).
      { apply forM_length in E. by rewrite E, sorted_by_column_perm. }
      rewrite (accumulate_scalar_week_run value_of fl st wk _ _ w Htd E)
        by (rewrite Hvs; exact Hlen).
      apply IH.
      * intros wk' Hin. apply Hw. by right.
      * destruct Hex as (wk' & e & Hin & Hr).
        apply elem_of_cons in Hin as [->|Hin]; [congruence|]. eauto.
      * cbn [overall_scalars]. right.
        destruct (overall_scalars st) as [|o os] eqn:Eo; [done|].
        destruct Hlen as [Hnil|Hlen]; [discriminate Hnil|].
        rewrite length_zip_with. lia.
    + rewrite (He e eq_refl) in E.
      rewrite (accumulate_scalar_week_raise fl st wk _ e0 w Htd E); [done|].
      by rewrite Hn.
Qed.

End ScalarRaise.

(** X21.  Over a range of weeks that all have the same number of
    snapshots, [get_and_write_power_ranking_all_weeks] needs a ranking for
    every snapshot of every week: if in some week of the range the
    provider's rankings name no entry for the team of a snapshot, it
    raises [TypeError] in the week loop, before anything is staged or
    sent. *)
Theorem power_ranking_all_weeks_needs_rankings (fl : FantasyFootballLeague)
    (weeks n : nat) (sh : string) (index_row : nat) (w : World)
    (tds : nat → list TeamData) :
  (∀ wk, (1 ≤ wk ≤ weeks)%nat →
     get_teams_data fl (Some wk) = Ok (tds wk) ∧ length (tds wk) = n) →
  (∃ wk t, (1 ≤ wk ≤ weeks)%nat ∧ t ∈ tds wk
           ∧ ranking_of (power_rankings (league fl) wk) (team t) = None) →
  get_and_write_power_ranking_all_weeks fl weeks sh index_row w
  = (Raise TypeError, w).
Proof.
  intros Hw (wk0 & t0 & Hwk0 & Hin0 & Hnone).
  unfold get_and_write_power_ranking_all_weeks, write_scalar_all_weeks.
  set (rk := λ wk t, ranking_of (power_rankings (league fl) wk) (team t)).
  set (f := λ wk t, set_ranking (rk wk t) t).
  assert (Hval : ∀ wk t, (1 ≤ wk ≤ weeks)%nat → t ∈ tds wk →
            ranking_value (f wk t) = float (rk wk t)).
  { intros wk t Hwk Hin. destruct (Hw wk Hwk) as [Hget _].
    destruct (set_ranking_fields (rk wk t) t) as (_ & _ & _ & _ & _ & Hr).
    - by eapply get_teams_data_fresh.
    - unfold ranking_value, f. by rewrite Hr. }
  assert (Hweek : ∀ wk, (1 ≤ wk ≤ weeks)%nat →
            power_ranking_per_player fl (Some wk) = Ok (f wk <$> tds wk)
            ∧ sorted_by_column (f wk <$> tds wk)
              = f wk <$> sorted_by_column (tds wk)).
  { intros wk Hwk. destruct (Hw wk Hwk) as [Hget _].
    apply (ranked_week_sorted fl wk (tds wk)); [lia | done]. }
  rewrite M_bind_unfold.
  rewrite (scalar_weeks_raise ranking_value fl (λ wk, f wk <$> tds wk) n
             TypeError (seq 1 weeks) initial_scalar_totals w); [done|..].
  - intros wk Hin. apply elem_of_seq in Hin.
    destruct (Hw wk) as [Hget Hlen]; [lia|].
    destruct (Hweek wk) as [Hppp Hsort]; [lia|].
    split; [done|]. split; [by rewrite length_fmap|].
    intros e He. apply forM_raise in He as (t' & _ & Ht').
    unfold ranking_value, float in Ht'.
    destruct (get_power_ranking t'); [discriminate Ht'|].
    by injection Ht' as <-.
  - destruct (Hweek wk0 Hwk0) as [_ Hsort].
    destruct (forM ranking_value (sorted_by_column (f wk0 <$> tds wk0)))
      as [vs|e] eqn:E.
    + exfalso. rewrite Hsort in E.
      assert (Hin : t0 ∈ sorted_by_column (tds wk0))
        by (by rewrite sorted_by_column_perm).
      apply list_elem_of_lookup in Hin as [i Hi].
      assert (Ho : (f wk0 <$> sorted_by_column (tds wk0)) !! i
                   = Some (f wk0 t0))
        by (by rewrite list_lookup_fmap, Hi).
      destruct (forM_lookup _ _ _ _ _ E Ho) as (r & _ & Hr).
      rewrite (Hval wk0 t0 Hwk0 Hin0) in Hr. unfold rk in Hr.
      rewrite Hnone in Hr. discriminate Hr.
    + exists wk0, e. split; [apply elem_of_seq; lia | done].
  - by left.
Qed.

Lemma power_ranking_all_weeks_needs_rankings_witness :
  get_and_write_power_ranking_all_weeks Examples.fl_CD 2 "Summary" 16
    Examples.fresh_world
  = (Raise TypeError, Examples.fresh_world).
Proof.
  apply (power_ranking_all_weeks_needs_rankings Examples.fl_CD 2 2 "Summary"
           16 Examples.fresh_world
           (λ wk, match get_teams_data Examples.fl_CD (Some wk) with
                  | Ok l => l
                  | Raise _ => []
                  end)).
  - intros wk Hwk.
    assert (Hcase : wk = 1%nat ∨ wk = 2%nat) by lia.
    destruct Hcase as [->| ->]; split; reflexivity.
  - exists 2%nat, (new_TeamData Examples.team_C (Examples.lineup_C 2) 3
                    (Examples.whole 10) (Examples.whole 13)).
    split; [lia|]. split; [|reflexivity].
    vm_compute. left.
Defined.

(** ** The multi-week rows of one table per team *)

Lemma Forall2_fmap_Some {A B} (g : A → option B) (l : list A) (k : list B) :
  Forall2 (λ x y, g x = Some y) l k → g <$> l = Some <$> k.
Proof.
  induction 1 as [|x y l k Hxy _ IH]; [done|].
  by rewrite !fmap_cons, Hxy, IH.
Qed.

Lemma sum_tables_shape (n p : nat) (acc tbls : list MetricTable) :
  tables_of_shape n p acc → tables_of_shape n p tbls →
  tables_of_shape n p (zip_with sum_tables acc tbls).
Proof.
  intros [Hn Hp] [Hn' Hp']. split.
  - rewrite length_zip_with. lia.
  - apply Forall_forall. intros tbl Hin.
    apply list_elem_of_lookup in Hin as [i Hi].
    rewrite lookup_zip_with in Hi.
    destruct (acc !! i) as [a|] eqn:Ea; [|discriminate Hi].
    destruct (tbls !! i) as [b|] eqn:Eb; [|discriminate Hi].
    injection Hi as <-. unfold sum_tables. rewrite length_zip_with.
    rewrite Forall_forall in Hp, Hp'.
    rewrite (Hp a), (Hp' b); [lia|..]; by eapply list_elem_of_lookup_2.
Qed.

Lemma entry_of_sum (n p : nat) (acc tbls : list MetricTable) (i k : nat) :
  tables_of_shape n p acc → tables_of_shape n p tbls →
  (i < n)%nat → (k < p)%nat →
  entry_of (zip_with sum_tables acc tbls) i k
  = Num.add (entry_of acc i k) (entry_of tbls i k).
Proof.
  intros [Hn Hp] [Hn' Hp'] Hi Hk. unfold entry_of.
  rewrite lookup_zip_with.
  destruct (lookup_lt_is_Some_2 acc i) as [a Ha]; [lia|].
  destruct (lookup_lt_is_Some_2 tbls i) as [b Hb]; [lia|].
  rewrite Ha, Hb. cbn [mbind option_bind].
  rewrite Forall_forall in Hp, Hp'.
  assert (Hla : length a = p) by (apply Hp; by eapply list_elem_of_lookup_2).
  assert (Hlb : length b = p) by (apply Hp'; by eapply list_elem_of_lookup_2).
  unfold sum_tables. rewrite lookup_zip_with.
  destruct (lookup_lt_is_Some_2 a k) as [ea Hea]; [lia|].
  destruct (lookup_lt_is_Some_2 b k) as [eb Heb]; [lia|].
  rewrite Hea, Heb. reflexivity.
Qed.

(** The running tables after the weeks [wks]: entry by entry, what they
    held before plus the weeks' values. *)
Lemma table_totals_sums (tabs : nat → list MetricTable) (n p : nat)
    (wks : list nat) (init : list MetricTable) :
  (0 < n)%nat → tables_of_shape n p init →
  (∀ wk, wk ∈ wks → tables_of_shape n p (tabs wk)) →
  tables_of_shape n p (table_totals tabs wks init)
  ∧ ∀ i k, (i < n)%nat → (k < p)%nat →
      entry_of (table_totals tabs wks init) i k
      = foldl Num.add (entry_of init i k)
              ((λ wk, entry_of (tabs wk) i k) <$> wks).
Proof.
  intros Hn. revert init.
  induction wks as [|wk wks IH]; intros init Hinit Hw.
  - split; [done|]. intros i k _ _. reflexivity.
  - assert (Hwk : tables_of_shape n p (tabs wk)) by (apply Hw; left).
    change (table_totals tabs (wk :: wks) init)
      with (table_totals tabs wks
              match init with
              | [] => tabs wk
              | _ :: _ => zip_with sum_tables init (tabs wk)
              end).
    destruct init as [|x init]; [destruct Hinit as [Hl _]; simpl in Hl; lia|].
    destruct (IH (zip_with sum_tables (x :: init) (tabs wk))) as [IHl IHs].
    + by apply sum_tables_shape.
    + intros wk' Hin. apply Hw. by right.
    + split; [done|]. intros i k Hi Hk.
      rewrite (IHs i k Hi Hk), (entry_of_sum n p) by done.
      by rewrite fmap_cons.
Qed.

Section TableLoop.

Variable transform :
  FantasyFootballLeague → list string → list string → option nat →
  result (list TeamData).
Variable get_table : TeamData → option MetricTable.
Variable weeks : nat.
Hypothesis weeks_positive : (0 < weeks)%nat.

Lemma average_tables_some (tbls : list MetricTable) :
  average_tables weeks (Some <$> tbls) = Ok (scaled weeks tbls).
Proof.
  unfold average_tables, scaled. apply forM_fmap_in. intros tbl _.
  cbn [as_list mbind result_bind]. apply forM_pure. intros e.
  by rewrite div_int_pos.
Qed.

Lemma accumulate_team_run st (i : nat) t (acc tbl : MetricTable)
    (tbls : list MetricTable) (w : World) :
  overall_teams_data st = Some <$> tbls →
  tbls !! i = Some acc → get_table t = Some tbl →
  length acc = length tbl →
  accumulate_team get_table weeks st (i, t) w
  = (Ok {| overall_teams_data := Some <$> <[i := sum_tables acc tbl]> tbls;
           average_overall_team_data :=
             Some (scaled weeks (<[i := sum_tables acc tbl]> tbls));
           last_teams_data := last_teams_data st |}, w).
Proof.
  intros Ho Hi Ht Hlen.
  unfold accumulate_team, mbind, M_bind, lift, getitem.
  rewrite Ho, list_lookup_fmap, Hi. cbn [fmap option_fmap option_map as_list].
  rewrite Ht. cbn [as_list]. rewrite Hlen, Nat.eqb_refl. cbn [negb].
  rewrite <- list_fmap_insert, average_tables_some. reflexivity.
Qed.

Lemma accumulate_tables_run (l : list TeamData) (tbls pre cur : list MetricTable)
    (avg0 : option (list MetricTable)) (td : option (list TeamData))
    (w : World) (p : nat) :
  Forall2 (λ t tbl, get_table t = Some tbl) l tbls →
  length cur = length l →
  Forall (λ tbl : MetricTable, length tbl = p) cur →
  Forall (λ tbl : MetricTable, length tbl = p) tbls →
  ∃ avg,
    foldW (accumulate_team get_table weeks)
          {| overall_teams_data := Some <$> (pre ++ cur);
             average_overall_team_data := avg0;
             last_teams_data := td |}
          (enumerate (length pre) l) w
    = (Ok {| overall_teams_data := Some <$> (pre ++ zip_with sum_tables cur tbls);
             average_overall_team_data := avg;
             last_teams_data := td |}, w)
    ∧ (l ≠ [] ∨ is_Some avg0 → is_Some avg).
Proof.
  intros HF. revert pre cur avg0.
  induction HF as [|t tbl l tbls Ht _ IH]; intros pre cur avg0 Hlen Hcur Htbls.
  - destruct cur; [|discriminate Hlen]. exists avg0. split; [done|].
    by intros [?|?].
  - destruct cur as [|c cur]; [discriminate Hlen|].
    apply Forall_cons in Hcur as [Hc Hcur].
    apply Forall_cons in Htbls as [Htbl Htbls].
    cbn [enumerate foldW]. rewrite M_bind_unfold.
    rewrite (accumulate_team_run _ (length pre) t c tbl (pre ++ c :: cur));
      [|done| |done|congruence].
    2:{ by rewrite lookup_app_r, Nat.sub_diag by lia. }
    cbn [last_teams_data].
    replace (<[length pre:=sum_tables c tbl]> (pre ++ c :: cur))
      with ((pre ++ [sum_tables c tbl]) ++ cur).
    2:{ rewrite insert_app_r_alt, Nat.sub_diag by lia. simpl.
        by rewrite <- app_assoc. }
    replace (S (length pre)) with (length (pre ++ [sum_tables c tbl]))
      by (rewrite length_app; simpl; lia).
    destruct (IH (pre ++ [sum_tables c tbl]) cur
                 (Some (scaled weeks ((pre ++ [sum_tables c tbl]) ++ cur))))
      as (avg & Hrun & Havg); [simpl in Hlen; lia|done..|].
    exists avg. split.
    + rewrite Hrun. cbn [zip_with]. by rewrite <- app_assoc.
    + intros _. apply Havg. by right.
Qed.

Lemma accumulate_table_week_run fl (pcs pom : list string) st (wk : nat)
    (acc : list MetricTable) (teams_data : list TeamData)
    (tbls : list MetricTable) (w : World) (n p : nat) :
  (0 < n)%nat →
  transform fl pcs pom (Some wk) = Ok teams_data →
  Forall2 (λ t tbl, get_table t = Some tbl) (sorted_by_column teams_data) tbls →
  tables_of_shape n p tbls →
  overall_teams_data st = Some <$> acc →
  (acc = [] ∨ tables_of_shape n p acc) →
  ∃ avg,
    accumulate_week transform get_table fl weeks pcs pom st wk w
    = (Ok {| overall_teams_data :=
               Some <$> match acc with
                        | [] => tbls
                        | _ :: _ => zip_with sum_tables acc tbls
                        end;
             average_overall_team_data := avg;
             last_teams_data := Some teams_data |}, w)
    ∧ (acc ≠ [] ∨ is_Some (average_overall_team_data st) → is_Some avg).
Proof.
  intros Hn Htr HF [Htn Htp] Ho Hacc. unfold accumulate_week.
  rewrite M_bind_unfold. unfold lift at 1. rewrite Htr.
  cbn [overall_teams_data average_overall_team_data last_teams_data].
  rewrite Ho. destruct acc as [|a acc].
  - exists (average_overall_team_data st). split.
    + cbn [fmap list_fmap]. unfold mret, M_ret.
      by rewrite (Forall2_fmap_Some _ _ _ HF).
    + by intros [?|?].
  - destruct Hacc as [Hnil|[Han Hap]]; [discriminate Hnil|].
    rewrite fmap_cons.
    destruct (accumulate_tables_run (sorted_by_column teams_data) tbls []
                (a :: acc) (average_overall_team_data st) (Some teams_data)
                w p HF) as (avg & Hrun & Havg); [|done..|].
    { rewrite Han, <- Htn. symmetry. by eapply Forall2_length. }
    exists avg. split.
    + exact Hrun.
    + intros _. apply Havg. left. intros Hnil.
      apply Forall2_length in HF. rewrite Hnil in HF. simpl in HF. lia.
Qed.

Lemma table_weeks_run fl (pcs pom : list string) (tds : nat → list TeamData)
    (tabs : nat → list MetricTable) (n p : nat) (wks : list nat) st
    (acc : list MetricTable) (w : World) :
  (0 < n)%nat →
  (∀ wk, wk ∈ wks →
     transform fl pcs pom (Some wk) = Ok (tds wk)
     ∧ Forall2 (λ t tbl, get_table t = Some tbl)
               (sorted_by_column (tds wk)) (tabs wk)
     ∧ tables_of_shape n p (tabs wk)) →
  overall_teams_data st = Some <$> acc →
  (acc = [] ∨ tables_of_shape n p acc) →
  ∃ st',
    foldW (accumulate_week transform get_table fl weeks pcs pom) st wks w
    = (Ok st', w)
    ∧ overall_teams_data st' = Some <$> table_totals tabs wks acc
    ∧ last_teams_data st' = match last wks with
                            | Some wk => Some (tds wk)
                            | None => last_teams_data st
                            end
    ∧ ((acc ≠ [] ∧ wks ≠ []) ∨ (2 ≤ length wks)%nat
       ∨ is_Some (average_overall_team_data st) →
       is_Some (average_overall_team_data st')).
Proof.
  intros Hn. revert st acc.
  induction wks as [|wk wks IH]; intros st acc Hw Ho Hacc.
  - exists st. split; [done|]. split; [done|]. split; [done|].
    intros [[_ H]|[H|H]]; [done | simpl in H; lia | done].
  - destruct (Hw wk) as (Htr & HF & Hshape); [left|].
    destruct (accumulate_table_week_run fl pcs pom st wk acc (tds wk)
                (tabs wk) w n p Hn Htr HF Hshape Ho Hacc)
      as (avg1 & Hweek & Havg1).
    set (acc1 := match acc with
                 | [] => tabs wk
                 | _ :: _ => zip_with sum_tables acc (tabs wk)
                 end) in *.
    assert (Hshape1 : tables_of_shape n p acc1).
    { subst acc1. destruct acc as [|a acc]; [done|].
      destruct Hacc as [Hnil|Hacc]; [discriminate Hnil|].
      by apply sum_tables_shape. }
    assert (Hne1 : acc1 ≠ []).
    { intros Hnil. destruct Hshape1 as [Hl _]. rewrite Hnil in Hl.
      simpl in Hl. lia. }
    destruct (IH {| overall_teams_data := Some <$> acc1;
                    average_overall_team_data := avg1;
                    last_teams_data := Some (tds wk) |} acc1)
      as (st' & Hrun & Ho' & Hlast & Havg'); [|done|by right|].
    { intros wk' Hin. apply Hw. by right. }
    exists st'. split; [|split; [|split]].
    + cbn [foldW]. by rewrite M_bind_unfold, Hweek.
    + exact Ho'.
    + rewrite Hlast. cbn [last_teams_data].
      destruct wks as [|wk' wks]; [done|].
      change (last (wk :: wk' :: wks)) with (last (wk' :: wks)).
      destruct (last (wk' :: wks)) eqn:El; [done|].
      apply last_None in El. discriminate El.
    + cbn [average_overall_team_data] in Havg'.
      intros [[Hne _]|[Hlen|Hsome]].
      * apply Havg'. right. right. apply Havg1. by left.
      * apply Havg'. left. split; [done|].
        intros Hnil. rewrite Hnil in Hlen. simpl in Hlen. lia.
      * apply Havg'. right. right. apply Havg1. by right.
Qed.

Lemma averaged_value_scaled st (tbls : list MetricTable) (i k n p : nat) :
  average_overall_team_data st = Some (scaled weeks tbls) →
  tables_of_shape n p tbls → (i < n)%nat → (k < p)%nat →
  averaged_value st i k
  = Ok (Num.quot (entry_of tbls i k) (Num.of_nat weeks)).
Proof.
  intros Havg [Hl Hp] Hi Hk. unfold averaged_value, entry_of.
  rewrite Havg. cbn [local mbind result_bind]. unfold getitem, scaled.
  destruct (lookup_lt_is_Some_2 tbls i) as [tbl Htbl]; [lia|].
  rewrite list_lookup_fmap, Htbl. cbn [fmap option_fmap option_map].
  cbn [mbind result_bind option_bind].
  rewrite Forall_forall in Hp.
  assert (Hlt : length tbl = p) by (apply Hp; by eapply list_elem_of_lookup_2).
  destruct (lookup_lt_is_Some_2 tbl k) as [e He]; [lia|].
  rewrite list_lookup_fmap, He. reflexivity.
Qed.

End TableLoop.

Section TableReport.

Variable transform :
  FantasyFootballLeague → list string → list string → option nat →
  result (list TeamData).
Variable get_table : TeamData → option MetricTable.
Variable weeks : nat.
Hypothesis two_weeks : (2 ≤ weeks)%nat.

(** After two or more weeks that all give [n] tables of [p] entries, the
    loop has assigned everything the writing loops read: the last week's
    snapshots, and for every team and position the sum of the weeks'
    values over [weeks]. *)
Lemma table_weeks_values fl (pcs pom : list string)
    (tds : nat → list TeamData) (tabs : nat → list MetricTable) (n p : nat)
    (w : World) :
  (0 < n)%nat →
  (∀ wk, wk ∈ seq 1 weeks →
     transform fl pcs pom (Some wk) = Ok (tds wk)
     ∧ Forall2 (λ t tbl, get_table t = Some tbl)
               (sorted_by_column (tds wk)) (tabs wk)
     ∧ tables_of_shape n p (tabs wk)) →
  ∃ st (val : nat → nat → double),
    accumulate_weeks transform get_table fl weeks pcs pom w = (Ok st, w)
    ∧ last_teams_data st = Some (tds weeks)
    ∧ ∀ i k, (i < n)%nat → (k < p)%nat →
        averaged_value st i k = Ok (val i k)
        ∧ val i k
          = Num.quot (sum_from_first
                        ((λ wk, entry_of (tabs wk) i k) <$> seq 1 weeks))
                     (Num.of_nat weeks).
Proof.
  intros Hn Hw.
  assert (Hweeks : (0 < weeks)%nat) by lia.
  destruct (table_weeks_run transform get_table weeks Hweeks fl pcs pom tds
              tabs n p (seq 1 weeks) initial_totals [] w Hn Hw eq_refl)
    as (st & Hrun & Ho & Hlast & Havg); [by left|].
  assert (Hl : last (seq 1 weeks) = Some weeks).
  { destruct weeks as [|k]; [lia|]. rewrite seq_S, last_snoc. f_equal. }
  rewrite Hl in Hlast.
  destruct Havg as [avg Eavg]; [right; left; rewrite length_seq; lia|].
  pose proof (accumulate_weeks_in_sync transform get_table weeks fl pcs pom
                (seq 1 weeks) initial_totals w st w Hrun I) as Hsync.
  unfold totals_in_sync in Hsync. rewrite Eavg, Ho in Hsync.
  destruct Hsync as [_ Hsync].
  rewrite (average_tables_some weeks Hweeks) in Hsync.
  injection Hsync as <-.
  set (T := table_totals tabs (seq 1 weeks) []) in *.
  assert (H1 : tables_of_shape n p (tabs 1%nat)).
  { apply Hw. apply elem_of_seq. lia. }
  destruct (table_totals_sums tabs n p (seq 2 (weeks - 1)) (tabs 1%nat) Hn H1)
    as [Hshape Hsums].
  { intros wk Hin. apply Hw. apply elem_of_seq. apply elem_of_seq in Hin. lia. }
  assert (HT : T = table_totals tabs (seq 2 (weeks - 1)) (tabs 1%nat)).
  { subst T. destruct weeks as [|k]; [lia|].
    by replace (S k - 1)%nat with k by lia. }
  rewrite <- HT in Hshape, Hsums.
  exists st, (λ i k, Num.quot (entry_of T i k) (Num.of_nat weeks)).
  split; [exact Hrun|]. split; [exact Hlast|].
  intros i k Hi Hk. split.
  - by apply (averaged_value_scaled weeks Hweeks st T i k n p).
  - cbv beta. rewrite (Hsums i k Hi Hk).
    destruct weeks as [|j]; [lia|].
    replace (S j - 1)%nat with j by lia.
    change (seq 1 (S j)) with (1%nat :: seq 2 j). rewrite fmap_cons.
    reflexivity.
Qed.

End TableReport.

Lemma seq_cells sh row (f : nat → double) (s n : nat) :
  flat_map (λ i, [cell_write sh (ord_A + (i + 1)) row (VNum (f i))]) (seq s n)
  = team_cells sh row (seq (S s) n) (f <$> seq s n).
Proof.
  revert s. induction n as [|n IH]; intros s; [done|].
  cbn [seq flat_map]. rewrite IH, fmap_cons. unfold team_cells.
  cbn [zip_with app]. by rewrite Nat.add_1_r.
Qed.

Lemma fmap_enumerate {A B} (f : nat * A → B) (g : A → B) (l : list A)
    (start : nat) :
  (∀ k x, l !! k = Some x → f ((start + k)%nat, x) = g x) →
  f <$> enumerate start l = g <$> l.
Proof.
  revert start. induction l as [|x l IH]; intros start H; [done|].
  cbn [enumerate]. rewrite !fmap_cons. f_equal.
  - rewrite <- (H 0%nat x eq_refl). by rewrite Nat.add_0_r.
  - apply IH. intros k y Hy.
    replace (S start + k)%nat with (start + S k)%nat by lia.
    by apply (H (S k)).
Qed.

Lemma write_team_average_all_weeks_stages sh st row k acc (i : nat) (v : double)
    (w : World) :
  (N.of_nat (i + 1) <= 1114046)%N →
  averaged_value st i k = Ok v →
  stages (write_team_average_all_weeks sh st row k acc i) w
         (Num.add acc (Num.round2 v))
         [cell_write sh (ord_A + (i + 1)) row (VNum (Num.round2 v))].
Proof.
  intros Hi Hv. unfold write_team_average_all_weeks.
  change [cell_write sh (ord_A + (i + 1)) row (VNum (Num.round2 v))]
    with ([] ++ [] ++ [cell_write sh (ord_A + (i + 1)) row
                         (VNum (Num.round2 v))] ++ []).
  eapply stages_bind; [by apply stages_lift, cell_at_ok|]. intros w1.
  eapply stages_bind; [by apply stages_lift|]. intros w2.
  eapply stages_bind; [apply stages_add|]. intros w3.
  apply stages_ret.
Qed.

Lemma write_team_percentage_all_weeks_stages sh st row k acc (i : nat) (v : double)
    (w : World) :
  (N.of_nat (i + 1) <= 1114046)%N →
  averaged_value st i k = Ok v →
  stages (write_team_percentage_all_weeks sh st row k acc i) w
         (Num.add acc v)
         [cell_write sh (ord_A + (i + 1)) row (VNum (Num.round2 v))].
Proof.
  intros Hi Hv. unfold write_team_percentage_all_weeks.
  change [cell_write sh (ord_A + (i + 1)) row (VNum (Num.round2 v))]
    with ([] ++ [] ++ [cell_write sh (ord_A + (i + 1)) row
                         (VNum (Num.round2 v))] ++ []).
  eapply stages_bind; [by apply stages_lift|]. intros w1.
  eapply stages_bind; [by apply stages_lift, cell_at_ok|]. intros w2.
  eapply stages_bind; [apply stages_add|]. intros w3.
  apply stages_ret.
Qed.

(** The rows of the multi-week averages: each cell rounded, the league
    average the rounded mean of the cells. *)
Lemma write_average_rows_all_weeks_run sh started st (val : nat → nat → double)
    (td : list TeamData) (n p : nat) (positions : list string) row pi
    (w : World) :
  last_teams_data st = Some td → length td = n →
  (0 < n)%nat → (N.of_nat n < 1114046)%N →
  (∀ i k, (i < n)%nat → (k < p)%nat → averaged_value st i k = Ok (val i k)) →
  (pi + length positions ≤ p)%nat →
  stages (write_average_rows_all_weeks sh started st row pi positions) w ()
         (metric_rows sh (average_label started) (seq 1 n) row
            ((λ kp : nat * string,
                (kp.2, (λ i, Num.round2 (val i kp.1)) <$> seq 0 n))
               <$> enumerate pi positions)).
Proof.
  intros Hlast Htd Hn Hbound Hval. revert row pi w.
  induction positions as [|pos rest IH]; intros row pi w Hp.
  - apply stages_ret.
  - cbn [length] in Hp.
    cbn [write_average_rows_all_weeks enumerate]. rewrite fmap_cons.
    cbn [metric_rows fst snd].
    set (vs := (λ i, Num.round2 (val i pi)) <$> seq 0 n).
    set (rows := (λ kp : nat * string,
                    (kp.2, (λ i, Num.round2 (val i kp.1)) <$> seq 0 n))
                   <$> enumerate (S pi) rest).
    assert (Hvs : length vs = n)
      by (subst vs; by rewrite length_fmap, length_seq).
    destruct (league_average_div vs n Hn) as (q & Hq & _ & Hr).
    unfold metric_row, league_mean. rewrite Hvs, <- Hr, length_seq.
    replace ((cell_write sh ord_A row (VStr (average_label started pos))
              :: team_cells sh row (seq 1 n) vs
              ++ [cell_write sh (ord_A + (n + 1)) row (VNum (Num.round2 q))])
             ++ metric_rows sh (average_label started) (seq 1 n) (S row) rows)
      with ([cell_write sh ord_A row (VStr (average_label started pos))]
            ++ [] ++ team_cells sh row (seq 1 n) vs ++ [] ++ []
            ++ [cell_write sh (ord_A + (n + 1)) row (VNum (Num.round2 q))]
            ++ metric_rows sh (average_label started) (seq 1 n) (S row) rows)
      by (cbn [app]; by rewrite <- app_assoc).
    eapply stages_bind; [apply stages_add|]. intros w1.
    eapply stages_bind; [by apply stages_lift; rewrite Hlast|]. intros w2.
    eapply stages_bind.
    { pose proof (stages_foldW (write_team_average_all_weeks sh st row pi)
                    (λ a i, Num.add a (Num.round2 (val i pi)))
                    (λ i, [cell_write sh (ord_A + (i + 1)) row
                             (VNum (Num.round2 (val i pi)))])
                    (seq 0 n) Num.zero w2) as Hrow.
      rewrite (seq_cells sh row (λ i, Num.round2 (val i pi))),
              (foldl_add_fmap (λ i, Num.round2 (val i pi))) in Hrow.
      rewrite Htd. apply Hrow. intros a i w' Hin. apply elem_of_seq in Hin.
      apply write_team_average_all_weeks_stages; [lia|]. apply Hval; lia. }
    intros w3.
    eapply stages_bind.
    { apply stages_lift. rewrite Htd. apply cell_at_ok. lia. }
    intros w4.
    eapply stages_bind; [apply stages_lift; rewrite Htd; exact Hq|].
    intros w5.
    eapply stages_bind; [apply stages_add|]. intros w6.
    apply IH. lia.
Qed.

(** The rows of the multi-week percentages: each cell rounded, the league
    average the rounded mean of the values before rounding. *)
Lemma write_percentage_rows_all_weeks_run sh started st (val : nat → nat → double)
    (td : list TeamData) (n p : nat) (positions : list string) row pi
    (w : World) :
  last_teams_data st = Some td → length td = n →
  (0 < n)%nat → (N.of_nat n < 1114046)%N →
  (∀ i k, (i < n)%nat → (k < p)%nat → averaged_value st i k = Ok (val i k)) →
  (pi + length positions ≤ p)%nat →
  stages (write_percentage_rows_all_weeks sh started st row pi positions) w ()
         (averaged_rows sh (percentage_label started) (seq 1 n) row
            ((λ kp : nat * string,
                (kp.2, ((λ i, Num.round2 (val i kp.1)) <$> seq 0 n,
                        Num.round2 (Num.quot (Num.sum ((λ i, val i kp.1) <$> seq 0 n))
                                             (Num.of_nat n)))))
               <$> enumerate pi positions)).
Proof.
  intros Hlast Htd Hn Hbound Hval. revert row pi w.
  induction positions as [|pos rest IH]; intros row pi w Hp.
  - apply stages_ret.
  - cbn [length] in Hp.
    cbn [write_percentage_rows_all_weeks enumerate]. rewrite fmap_cons.
    cbn [averaged_rows fst snd].
    set (vs := (λ i, val i pi) <$> seq 0 n).
    set (cells := (λ i, Num.round2 (val i pi)) <$> seq 0 n).
    set (rows := (λ kp : nat * string,
                    (kp.2, ((λ i, Num.round2 (val i kp.1)) <$> seq 0 n,
                            Num.round2
                              (Num.quot (Num.sum ((λ i, val i kp.1) <$> seq 0 n))
                                        (Num.of_nat n)))))
                   <$> enumerate (S pi) rest).
    destruct (league_average_div vs n Hn) as (q & Hq & _ & Hr).
    unfold metric_row. rewrite <- Hr, length_seq.
    replace ((cell_write sh ord_A row (VStr (percentage_label started pos))
              :: team_cells sh row (seq 1 n) cells
              ++ [cell_write sh (ord_A + (n + 1)) row (VNum (Num.round2 q))])
             ++ averaged_rows sh (percentage_label started) (seq 1 n) (S row)
                  rows)
      with ([cell_write sh ord_A row (VStr (percentage_label started pos))]
            ++ [] ++ team_cells sh row (seq 1 n) cells ++ [] ++ []
            ++ [cell_write sh (ord_A + (n + 1)) row (VNum (Num.round2 q))]
            ++ averaged_rows sh (percentage_label started) (seq 1 n) (S row)
                 rows)
      by (cbn [app]; by rewrite <- app_assoc).
    eapply stages_bind; [apply stages_add|]. intros w1.
    eapply stages_bind; [by apply stages_lift; rewrite Hlast|]. intros w2.
    eapply stages_bind.
    { pose proof (stages_foldW (write_team_percentage_all_weeks sh st row pi)
                    (λ a i, Num.add a (val i pi))
                    (λ i, [cell_write sh (ord_A + (i + 1)) row
                             (VNum (Num.round2 (val i pi)))])
                    (seq 0 n) Num.zero w2) as Hrow.
      rewrite (seq_cells sh row (λ i, Num.round2 (val i pi))),
              (foldl_add_fmap (λ i, val i pi)) in Hrow.
      rewrite Htd. apply Hrow. intros a i w' Hin. apply elem_of_seq in Hin.
      apply write_team_percentage_all_weeks_stages; [lia|]. apply Hval; lia. }
    intros w3.
    eapply stages_bind.
    { apply stages_lift. rewrite Htd. apply cell_at_ok. lia. }
    intros w4.
    eapply stages_bind; [apply stages_lift; rewrite Htd; exact Hq|].
    intros w5.
    eapply stages_bind; [apply stages_add|]. intros w6.
    apply IH. lia.
Qed.

Lemma with_averages_column positions sc wk t :
  index_column (with_averages positions sc wk t) = index_column t.
Proof.
  unfold with_averages.
  by destruct (add_averages_fields
                 (average_entries sc wk (lineup t) positions) t)
    as (_ & _ & -> & _).
Qed.

Lemma with_percentages_column positions sc wk t :
  index_column (with_percentages positions sc wk t) = index_column t.
Proof.
  unfold with_percentages.
  by destruct (add_percentages_fields
                 (percentage_entries sc wk (lineup t) positions) t)
    as (_ & _ & -> & _).
Qed.

(** The tables of one week in column order, when every snapshot has an
    entry for every position. *)
Lemma week_tables_of_shape {A} (g : TeamData → A) (h : A → string → double)
    (l : list A) (positions : list string) :
  tables_of_shape (length l) (length positions)
    ((λ x, (λ pos, (pos, h x pos)) <$> positions) <$> l).
Proof.
  split; [by rewrite length_fmap|].
  apply Forall_fmap, Forall_forall. intros x _. simpl.
  by rewrite length_fmap.
Qed.

Lemma entry_of_week (val : TeamData → string → double) (l : list TeamData)
    (positions : list string) (i k : nat) (pos : string) :
  positions !! k = Some pos →
  entry_of ((λ t, (λ pos, (pos, val t pos)) <$> positions) <$> l) i k
  = default Num.zero ((λ t, val t pos) <$> l !! i).
Proof.
  intros Hk. unfold entry_of. rewrite list_lookup_fmap.
  destruct (l !! i) as [t|]; [|done].
  cbn [fmap option_fmap option_map mbind option_bind].
  by rewrite list_lookup_fmap, Hk.
Qed.

(** X22.  Over two or more weeks that all have the same number of
    snapshots, each with a non-excluded lineup entry for every requested
    position, [get_and_write_average_points_per_player_all_weeks] sends one
    request with one row per position, from row [start_position] on: the
    label, in column [k] the mean over the weeks, rounded to 2 decimals, of
    the position's average of each week's [k]-th snapshot in
    [index_column] order, and after them the mean of these written cells,
    rounded to 2 decimals. *)
Theorem average_all_weeks_rows (fl : FantasyFootballLeague) (weeks n : nat)
    (sh : string) (start_position : nat) (positions sc : list string)
    (started_or_not : string) (w : World) (tds : nat → list TeamData) :
  (2 ≤ weeks)%nat → (0 < n)%nat → (N.of_nat n < 1114046)%N →
  positions ≠ [] →
  (∀ wk, (1 ≤ wk ≤ weeks)%nat →
     get_teams_data fl (Some wk) = Ok (tds wk) ∧ length (tds wk) = n) →
  (∀ wk t pos, (1 ≤ wk ≤ weeks)%nat → t ∈ tds wk → pos ∈ positions →
               (0 < length (matching pos sc (lineup t)))%nat) →
  sends (get_and_write_average_points_per_player_all_weeks fl weeks sh
           start_position positions sc started_or_not) w
        (metric_rows sh (average_label started_or_not) (seq 1 n)
           start_position
           ((λ pos,
               (pos,
                (λ i, Num.round2
                        (mean_over_weeks
                           (λ wk t, lineup_average sc wk (lineup t) pos)
                           tds weeks i)) <$> seq 0 n)) <$> positions)).
Proof.
  intros Htwo Hn Hbound Hpos Hw Hfull.
  set (tabs := λ wk,
         (λ t, (λ pos, (pos, lineup_average sc wk (lineup t) pos)) <$> positions)
           <$> sorted_by_column (tds wk)).
  assert (Hweek : ∀ wk, wk ∈ seq 1 weeks →
            average_points_per_player fl positions sc (Some wk)
            = Ok (with_averages positions sc wk <$> tds wk)
            ∧ Forall2 (λ t tbl, get_average_score_per_player t = Some tbl)
                (sorted_by_column (with_averages positions sc wk <$> tds wk))
                (tabs wk)
            ∧ tables_of_shape n (length positions) (tabs wk)).
  { intros wk Hin. apply elem_of_seq in Hin.
    destruct (Hw wk) as [Hget Hlen]; [lia|].
    split; [|split].
    - rewrite average_points_per_player_spec.
      destruct wk as [|j]; [lia|]. cbn [truthy default]. by rewrite Hget.
    - rewrite sorted_by_column_fmap by (intros u; apply with_averages_column).
      subst tabs. cbv beta. apply Forall2_fmap, Forall_Forall2_diag.
      apply Forall_forall. intros t Hin'.
      rewrite sorted_by_column_perm in Hin'.
      assert (Hent : average_entries sc wk (lineup t) positions
                     = (λ pos, (pos, lineup_average sc wk (lineup t) pos))
                         <$> positions).
      { apply average_entries_full. intros pos Hp.
        apply (Hfull wk t pos); [lia|done..]. }
      rewrite with_averages_table.
      + by rewrite Hent.
      + by eapply get_teams_data_fresh.
      + rewrite Hent. by destruct positions.
    - rewrite <- Hlen, <- (sorted_by_column_perm (tds wk)).
      apply (week_tables_of_shape id
               (λ t pos, lineup_average sc wk (lineup t) pos)). }
  destruct (table_weeks_values average_points_per_player
              get_average_score_per_player weeks Htwo fl positions sc
              (λ wk, with_averages positions sc wk <$> tds wk) tabs n
              (length positions) w Hn Hweek)
    as (st & val & Hrun & Hlast & Hval).
  unfold get_and_write_average_points_per_player_all_weeks.
  replace ((λ pos,
              (pos,
               (λ i, Num.round2
                       (mean_over_weeks
                          (λ wk t, lineup_average sc wk (lineup t) pos)
                          tds weeks i)) <$> seq 0 n)) <$> positions)
    with ((λ kp : nat * string,
             (kp.2, (λ i, Num.round2 (val i kp.1)) <$> seq 0 n))
            <$> enumerate 0 positions).
  2:{ apply fmap_enumerate. intros k pos Hk. cbn [fst snd]. f_equal.
      apply list_fmap_ext. intros j i Hi. apply lookup_seq in Hi as [-> Hj].
      assert (Hk' : (k < length positions)%nat)
        by (by eapply lookup_lt_Some).
      f_equal. change (0 + j)%nat with j. change (0 + k)%nat with k.
      rewrite (proj2 (Hval _ _ Hj Hk')). unfold mean_over_weeks.
      replace ((λ wk, entry_of (tabs wk) (0 + j) (0 + k)) <$> seq 1 weeks)
        with (weekly (λ wk t, lineup_average sc wk (lineup t) pos) tds (0 + j)
                <$> seq 1 weeks); [reflexivity|].
      apply list_fmap_ext. intros ? wk _. subst tabs. cbv beta.
      unfold weekly.
      by rewrite (entry_of_week (λ t pos, lineup_average sc wk (lineup t) pos)
                    _ positions (0 + j) (0 + k) pos Hk). }
  rewrite <- (app_nil_l (metric_rows _ _ _ _ _)),
          <- (app_nil_r (metric_rows _ _ _ _ _)).
  eapply sends_bind; [by apply stages_pure|]. intros w1.
  eapply sends_bind; [|intros w2; apply sends_write_batch].
  apply (write_average_rows_all_weeks_run sh started_or_not st val
           (with_averages positions sc weeks <$> tds weeks) n
           (length positions)); [done| |done|done| |simpl; lia].
  - rewrite length_fmap. apply Hw. lia.
  - intros i k Hi Hk. by apply Hval.
Qed.

(** Team E's kicker scores 7.51 in week 1 and 7.52 in week 2: Python
    writes 7.51 for the two weeks, next to team F's 3.0 and their mean
    5.25; the quarterbacks' and receivers' rows are those of one week. *)
Lemma average_all_weeks_rows_witness :
  ∃ ws,
    sends (get_and_write_average_points_per_player_all_weeks Examples.fl_EF 2
             "Summary" 5 ["QB"; "WR"; "K"] [] "Started") Examples.fresh_world ws
    ∧ values <$> ws
      = [VStr "Pts/QB Started"; VNum (Examples.cents 174);
         VNum (Examples.cents 2095); VNum (Examples.cents 1134);
         VStr "Pts/WR Started"; VNum (Examples.cents 146);
         VNum (Examples.cents 503); VNum (Examples.cents 325);
         VStr "Pts/K Started"; VNum (Examples.cents 751);
         VNum (Examples.cents 300); VNum (Examples.cents 525)].
Proof.
  eexists. split.
  - apply (average_all_weeks_rows Examples.fl_EF 2 2 "Summary" 5
             ["QB"; "WR"; "K"] [] "Started" Examples.fresh_world
             (λ wk, match get_teams_data Examples.fl_EF (Some wk) with
                    | Ok l => l
                    | Raise _ => []
                    end)); [lia | lia | lia | discriminate | |].
    + intros wk Hwk.
      assert (Hcase : wk = 1%nat ∨ wk = 2%nat) by lia.
      destruct Hcase as [->| ->]; split; reflexivity.
    + intros wk t pos Hwk Hin Hpos.
      apply list_elem_of_In in Hpos.
      assert (Hcase : wk = 1%nat ∨ wk = 2%nat) by lia.
      destruct Hcase as [->| ->]; apply list_elem_of_In in Hin;
        destruct Hin as [<-|[<-|[]]];
        destruct Hpos as [<-|[<-|[<-|[]]]]; vm_compute; lia.
  - vm_compute. reflexivity.
Defined.

(** X23.  Over two or more weeks that all have the same number of
    snapshots, and with at least one requested position,
    [get_and_write_percentage_of_points_per_position_all_weeks] sends one
    request with one row per position, from row [start_position] on: the
    label, in column [k] the mean over the weeks of the position's
    percentage of each week's [k]-th snapshot in [index_column] order,
    rounded to 2 decimals, and after them the mean of these means as they
    are before rounding, rounded to 2 decimals. *)
Theorem percentage_all_weeks_rows (fl : FantasyFootballLeague) (weeks n : nat)
    (sh : string) (start_position : nat) (positions sc : list string)
    (started_or_not : string) (w : World) (tds : nat → list TeamData) :
  (2 ≤ weeks)%nat → (0 < n)%nat → (N.of_nat n < 1114046)%N →
  positions ≠ [] →
  (∀ wk, (1 ≤ wk ≤ weeks)%nat →
     get_teams_data fl (Some wk) = Ok (tds wk) ∧ length (tds wk) = n) →
  sends (get_and_write_percentage_of_points_per_position_all_weeks fl weeks sh
           start_position positions sc started_or_not) w
        (averaged_rows sh (percentage_label started_or_not) (seq 1 n)
           start_position
           ((λ pos,
               (pos,
                ((λ i, Num.round2
                         (mean_over_weeks
                            (λ wk t, percentage_value sc wk (lineup t) pos)
                            tds weeks i)) <$> seq 0 n,
                 Num.round2
                   (Num.quot
                      (Num.sum
                         (mean_over_weeks
                            (λ wk t, percentage_value sc wk (lineup t) pos)
                            tds weeks <$> seq 0 n))
                      (Num.of_nat n))))) <$> positions)).
Proof.
  intros Htwo Hn Hbound Hpos Hw.
  set (tabs := λ wk,
         (λ t, (λ pos, (pos, percentage_value sc wk (lineup t) pos))
                 <$> positions)
           <$> sorted_by_column (tds wk)).
  assert (Hweek : ∀ wk, wk ∈ seq 1 weeks →
            percentage_of_points_by_position fl positions sc (Some wk)
            = Ok (with_percentages positions sc wk <$> tds wk)
            ∧ Forall2 (λ t tbl, get_percentage_per_position t = Some tbl)
                (sorted_by_column (with_percentages positions sc wk <$> tds wk))
                (tabs wk)
            ∧ tables_of_shape n (length positions) (tabs wk)).
  { intros wk Hin. apply elem_of_seq in Hin.
    destruct (Hw wk) as [Hget Hlen]; [lia|].
    split; [|split].
    - rewrite percentage_of_points_by_position_spec.
      destruct wk as [|j]; [lia|]. cbn [truthy default]. by rewrite Hget.
    - rewrite sorted_by_column_fmap
        by (intros u; apply with_percentages_column).
      subst tabs. cbv beta. apply Forall2_fmap, Forall_Forall2_diag.
      apply Forall_forall. intros t Hin'.
      rewrite sorted_by_column_perm in Hin'.
      assert (Hfresh : additional_data t = no_additional_data)
        by (by eapply get_teams_data_fresh).
      destruct (with_percentages_fresh positions sc wk t Hfresh)
        as (_ & _ & _ & _ & Hsome).
      by rewrite (Hsome Hpos).
    - rewrite <- Hlen, <- (sorted_by_column_perm (tds wk)).
      apply (week_tables_of_shape id
               (λ t pos, percentage_value sc wk (lineup t) pos)). }
  destruct (table_weeks_values percentage_of_points_by_position
              get_percentage_per_position weeks Htwo fl positions sc
              (λ wk, with_percentages positions sc wk <$> tds wk) tabs n
              (length positions) w Hn Hweek)
    as (st & val & Hrun & Hlast & Hval).
  assert (Hmean : ∀ k pos i, positions !! k = Some pos → (i < n)%nat →
            val i k
            = mean_over_weeks (λ wk t, percentage_value sc wk (lineup t) pos)
                tds weeks i).
  { intros k pos i Hk Hi.
    assert (Hk' : (k < length positions)%nat) by (by eapply lookup_lt_Some).
    rewrite (proj2 (Hval _ _ Hi Hk')). unfold mean_over_weeks.
    replace ((λ wk, entry_of (tabs wk) i k) <$> seq 1 weeks)
      with (weekly (λ wk t, percentage_value sc wk (lineup t) pos) tds i
              <$> seq 1 weeks); [reflexivity|].
    apply list_fmap_ext. intros ? wk _. subst tabs. cbv beta. unfold weekly.
    by rewrite (entry_of_week (λ t pos, percentage_value sc wk (lineup t) pos)
                  _ positions i k pos Hk). }
  unfold get_and_write_percentage_of_points_per_position_all_weeks.
  replace ((λ pos,
              (pos,
               ((λ i, Num.round2
                        (mean_over_weeks
                           (λ wk t, percentage_value sc wk (lineup t) pos)
                           tds weeks i)) <$> seq 0 n,
                Num.round2
                  (Num.quot
                     (Num.sum
                        (mean_over_weeks
                           (λ wk t, percentage_value sc wk (lineup t) pos)
                           tds weeks <$> seq 0 n))
                     (Num.of_nat n))))) <$> positions)
    with ((λ kp : nat * string,
             (kp.2, ((λ i, Num.round2 (val i kp.1)) <$> seq 0 n,
                     Num.round2
                       (Num.quot (Num.sum ((λ i, val i kp.1) <$> seq 0 n))
                                 (Num.of_nat n)))))
            <$> enumerate 0 positions).
  2:{ apply fmap_enumerate. intros k pos Hk. cbn [fst snd]. do 2 f_equal.
      - apply list_fmap_ext. intros j i Hi. apply lookup_seq in Hi as [-> Hj].
        f_equal. by apply Hmean.
      - do 3 f_equal. apply list_fmap_ext. intros j i Hi.
        apply lookup_seq in Hi as [-> Hj]. by apply Hmean. }
  rewrite <- (app_nil_l (averaged_rows _ _ _ _ _)),
          <- (app_nil_r (averaged_rows _ _ _ _ _)).
  eapply sends_bind; [by apply stages_pure|]. intros w1.
  eapply sends_bind; [|intros w2; apply sends_write_batch].
  apply (write_percentage_rows_all_weeks_run sh started_or_not st val
           (with_percentages positions sc weeks <$> tds weeks) n
           (length positions)); [done| |done|done| |simpl; lia].
  - rewrite length_fmap. apply Hw. lia.
  - intros i k Hi Hk. by apply Hval.
Qed.

(** Team A's receiver has 28.57 percent of its points in week 1 and none
    in week 2: Python writes 14.29 for the two weeks. *)
Lemma percentage_all_weeks_rows_witness :
  ∃ ws,
    sends (get_and_write_percentage_of_points_per_position_all_weeks
             Examples.fl_AB 2 "Summary" 5 ["QB"; "WR"] ["BE"] "Started")
          Examples.fresh_world ws
    ∧ values <$> ws
      = [VStr "% points/QB Started"; VNum (Examples.cents 8572);
         VNum (Examples.cents 6250); VNum (Examples.cents 7411);
         VStr "% points/WR Started"; VNum (Examples.cents 1429);
         VNum (Examples.cents 3750); VNum (Examples.cents 2589)].
Proof.
  eexists. split.
  - apply (percentage_all_weeks_rows Examples.fl_AB 2 2 "Summary" 5
             ["QB"; "WR"] ["BE"] "Started" Examples.fresh_world
             (λ wk, match get_teams_data Examples.fl_AB (Some wk) with
                    | Ok l => l
                    | Raise _ => []
                    end)); [lia | lia | lia | discriminate |].
    intros wk Hwk.
    assert (Hcase : wk = 1%nat ∨ wk = 2%nat) by lia.
    destruct Hcase as [->| ->]; split; reflexivity.
  - vm_compute. reflexivity.
Defined.

(** ** Sheet housekeeping *)

Lemma BookM_bind_unfold {A C} (m : BookM A) (f : A → BookM C) (b : Book) :
  (m ≫= f) b = match m b with
               | (Done a, b') => f a b'
               | (Failed e, b') => (Failed e, b')
               end.
Proof. reflexivity. Qed.

(** [open_spreadsheet] makes one metadata request; it turns an [HttpError]
    into a message and [None], and lets anything else through. *)
Lemma open_spreadsheet_run (b : Book) :
  open_spreadsheet b
  = match on_get b (api_calls b) with
    | ApiOk spreadsheet => (Done (Some spreadsheet), called GetSpreadsheet b)
    | ApiHttpError =>
        (Done None,
         with_manager (print "Error opening spreadsheet: HttpError"
                             (manager b)).2
                      (called GetSpreadsheet b))
    | ApiRaises e => (Failed (Propagated e), called GetSpreadsheet b)
    end.
Proof.
  unfold open_spreadsheet, try_http, spreadsheets_get.
  rewrite BookM_bind_unfold. by destruct (on_get b (api_calls b)).
Qed.

Lemma any_title_spec (sheet_name : string) (sheets : list Sheet) :
  any_title sheet_name sheets
  = bool_decide (Some sheet_name ∈ sheet_title <$> sheets).
Proof.
  induction sheets as [|sheet rest IH]; [done|].
  cbn [any_title]. rewrite fmap_cons.
  destruct (decide (sheet_title sheet = Some sheet_name)) as [Heq|Hne].
  - symmetry. apply bool_decide_eq_true. rewrite Heq. left.
  - rewrite IH. apply bool_decide_ext. rewrite elem_of_cons.
    split; [by right|]. intros [Heq|Hin]; [congruence | done].
Qed.

(** X24.  [check_sheet_exists] makes exactly one metadata request and
    touches neither the sheets nor the pending writes.  It returns [True]
    exactly when the metadata could be read and lists a sheet with that
    title.  After an [HttpError] it returns [False] with the message of
    [open_spreadsheet]: its own handler never runs.  Any other exception
    of the client propagates. *)
Theorem check_sheet_exists_answer (sheet_name : string) (b : Book) :
  let r := check_sheet_exists sheet_name b in
  api_calls r.2 = api_calls b ++ [GetSpreadsheet]
  ∧ batch_data (manager r.2) = batch_data (manager b)
  ∧ requests (manager r.2) = requests (manager b)
  ∧ match on_get b (api_calls b) with
    | ApiOk spreadsheet =>
        r.1 = Done (bool_decide
                      (Some sheet_name ∈ sheet_title <$> get_sheets spreadsheet))
        ∧ stdout (manager r.2) = stdout (manager b)
    | ApiHttpError =>
        r.1 = Done false
        ∧ stdout (manager r.2)
          = stdout (manager b) ++ ["Error opening spreadsheet: HttpError"]
    | ApiRaises e =>
        r.1 = Failed (Propagated e)
        ∧ stdout (manager r.2) = stdout (manager b)
    end.
Proof.
  cbv zeta. unfold check_sheet_exists, try_http.
  rewrite BookM_bind_unfold, open_spreadsheet_run.
  destruct (on_get b (api_calls b)) as [spreadsheet| |e]; cbn.
  - destruct spreadsheet as [|entry]; cbn.
    + done.
    + by rewrite any_title_spec.
  - done.
  - done.
Qed.

Lemma delete_unless_kept_run (keep : string) (sheet : Sheet) (b : Book) :
  delete_unless_kept keep sheet b
  = if decide (sheet_title sheet ≠ Some keep)
    then
      let b' := called (BatchUpdate (DeleteSheet (sheet_id sheet))) b in
      match on_update b (api_calls b) (DeleteSheet (sheet_id sheet)) with
      | ApiOk _ => (Done (), b')
      | ApiHttpError => (Failed HttpError, b')
      | ApiRaises e => (Failed (Propagated e), b')
      end
    else
      (Done (),
       with_manager (print ("Keeping sheet '" +:+ keep +:+ "'.") (manager b)).2
                    b).
Proof.
  unfold delete_unless_kept.
  by destruct (decide (sheet_title sheet ≠ Some keep)).
Qed.

(** The loop of [delete_other_sheets] asks, in order, for the deletion of
    the listed sheets with another title, until the client refuses. *)
Lemma delete_loop (keep : string) (sheets : list Sheet) (b : Book) :
  let wanted := (λ sheet, BatchUpdate (DeleteSheet (sheet_id sheet)))
                  <$> filter (λ sheet, sheet_title sheet ≠ Some keep) sheets in
  let r := forB (delete_unless_kept keep) sheets b in
  ∃ k, (k ≤ length wanted)%nat
       ∧ api_calls r.2 = api_calls b ++ take k wanted
       ∧ (r.1 = Done () → k = length wanted)
       ∧ ((∀ h q, on_update b h q = ApiOk ()) → r.1 = Done ())
       ∧ batch_data (manager r.2) = batch_data (manager b)
       ∧ requests (manager r.2) = requests (manager b).
Proof.
  cbv zeta. revert b. induction sheets as [|sheet rest IH]; intros b.
  - exists 0%nat. cbn. rewrite app_nil_r. done.
  - cbn [forB]. rewrite BookM_bind_unfold, delete_unless_kept_run.
    destruct (decide (sheet_title sheet ≠ Some keep)) as [Hne|Heq].
    + rewrite filter_cons_True by done. rewrite fmap_cons. cbv zeta.
      destruct (on_update b (api_calls b) (DeleteSheet (sheet_id sheet)))
        as [[]| |e] eqn:E.
      * destruct (IH (called (BatchUpdate (DeleteSheet (sheet_id sheet))) b))
          as (k & Hk & Hcalls & Hdone & Hall & Hbd & Hreq).
        exists (S k). cbn [length take]. split; [lia|]. split.
        { rewrite Hcalls. cbn [called api_calls]. by rewrite <- app_assoc. }
        split; [intros H; f_equal; by apply Hdone|].
        split; [exact Hall|]. done.
      * exists 1%nat. cbn [length take]. split; [lia|]. split; [done|].
        split; [discriminate|]. split; [|done].
        intros Hok. rewrite Hok in E. discriminate E.
      * exists 1%nat. cbn [length take]. split; [lia|]. split; [done|].
        split; [discriminate|]. split; [|done].
        intros Hok. rewrite Hok in E. discriminate E.
    + rewrite filter_cons_False by done.
      destruct (IH (with_manager
                      (print ("Keeping sheet '" +:+ keep +:+ "'.")
                             (manager b)).2 b))
        as (k & Hk & Hcalls & Hdone & Hall & Hbd & Hreq).
      exists k. split; [exact Hk|]. split; [exact Hcalls|].
      split; [exact Hdone|]. split; [exact Hall|]. done.
Qed.

(** X25.  [delete_other_sheets] never asks for the deletion of a sheet
    whose title is the one to keep: after its one metadata request, the
    calls it makes are, in order, deletions of the listed sheets with
    another title (or none), up to the first one the client refuses; all
    of them when it returns.  It does not touch the pending writes.  When
    the metadata request ends in an [HttpError], [open_spreadsheet] has
    returned [None] and the method raises [AttributeError] without
    deleting anything. *)
Theorem delete_other_sheets_spares_kept (sheet_to_keep_name : string)
    (b : Book) :
  let r := delete_other_sheets sheet_to_keep_name b in
  batch_data (manager r.2) = batch_data (manager b)
  ∧ requests (manager r.2) = requests (manager b)
  ∧ match on_get b (api_calls b) with
    | ApiOk spreadsheet =>
        let wanted :=
          (λ sheet, BatchUpdate (DeleteSheet (sheet_id sheet)))
            <$> filter (λ sheet, sheet_title sheet ≠ Some sheet_to_keep_name)
                       (get_sheets spreadsheet) in
        ∃ k, (k ≤ length wanted)%nat
             ∧ api_calls r.2
               = api_calls b ++ GetSpreadsheet :: take k wanted
             ∧ (r.1 = Done () → k = length wanted)
             ∧ ((∀ h q, on_update b h q = ApiOk ()) → r.1 = Done ())
    | ApiHttpError =>
        r.1 = Failed AttributeError
        ∧ api_calls r.2 = api_calls b ++ [GetSpreadsheet]
    | ApiRaises e =>
        r.1 = Failed (Propagated e)
        ∧ api_calls r.2 = api_calls b ++ [GetSpreadsheet]
    end.
Proof.
  cbv zeta. unfold delete_other_sheets.
  rewrite BookM_bind_unfold, open_spreadsheet_run.
  destruct (on_get b (api_calls b)) as [spreadsheet| |e]; [|done..].
  rewrite BookM_bind_unfold. cbn [mret BookM_ret].
  destruct (delete_loop sheet_to_keep_name (get_sheets spreadsheet)
              (called GetSpreadsheet b))
    as (k & Hk & Hcalls & Hdone & Hall & Hbd & Hreq).
  split; [exact Hbd|]. split; [exact Hreq|].
  exists k. split; [exact Hk|]. split.
  - rewrite Hcalls. cbn [called api_calls]. by rewrite <- app_assoc.
  - split; [exact Hdone | exact Hall].
Qed.

Lemma add_sheet_stage (sheet_name : string) (b : Book) :
  try_http
    (_ ← spreadsheets_batchUpdate (AddSheet sheet_name);
     in_manager (print ("Created a new sheet '" +:+ sheet_name +:+ "'.")))
    (in_manager (print "Error creating a new sheet: HttpError")) b
  = let b' := called (BatchUpdate (AddSheet sheet_name)) b in
    match on_update b (api_calls b) (AddSheet sheet_name) with
    | ApiOk _ =>
        (Done (),
         with_manager
           (print ("Created a new sheet '" +:+ sheet_name +:+ "'.")
                  (manager b)).2 b')
    | ApiHttpError =>
        (Done (),
         with_manager
           (print "Error creating a new sheet: HttpError" (manager b)).2 b')
    | ApiRaises e => (Failed (Propagated e), b')
    end.
Proof.
  unfold try_http. rewrite BookM_bind_unfold. unfold spreadsheets_batchUpdate.
  by destruct (on_update b (api_calls b) (AddSheet sheet_name)).
Qed.

Lemma flush_then_say (s : string) (b : Book) :
  let r := (in_manager write_batch ≫= λ _ : (), in_manager (print s)) b in
  let pending := batch_values_of (batch_data (manager b)) in
  api_calls r.2 = api_calls b
  ∧ requests (manager r.2) = requests (manager b) ++ [pending]
  ∧ batch_data (manager r.2) = []
  ∧ match service (manager b) (requests (manager b)) pending with
    | SinkOk | SinkHttpError => r.1 = Done ()
    | SinkRaises e => r.1 = Failed (Propagated e)
    end.
Proof.
  cbv zeta. rewrite BookM_bind_unfold. unfold in_manager, write_batch.
  cbv zeta.
  by destruct (service (manager b) (requests (manager b))
                 (batch_values_of (batch_data (manager b)))).
Qed.

(** X26.  [create_new_sheet] flushes the manager whether or not the sheet
    could be created: after the [addSheet] request, answered or refused
    with an [HttpError], it sends the pending writes in one bulk request
    and leaves the manager empty; what it returns or raises is what
    [write_batch] does.  Only an exception of the [addSheet] request other
    than [HttpError] keeps it from flushing. *)
Theorem create_new_sheet_flushes (sheet_name : string) (b : Book) :
  let r := create_new_sheet sheet_name b in
  let pending := batch_values_of (batch_data (manager b)) in
  api_calls r.2 = api_calls b ++ [BatchUpdate (AddSheet sheet_name)]
  ∧ match on_update b (api_calls b) (AddSheet sheet_name) with
    | ApiOk _ | ApiHttpError =>
        requests (manager r.2) = requests (manager b) ++ [pending]
        ∧ batch_data (manager r.2) = []
        ∧ match service (manager b) (requests (manager b)) pending with
          | SinkOk | SinkHttpError => r.1 = Done ()
          | SinkRaises e => r.1 = Failed (Propagated e)
          end
    | ApiRaises e =>
        r.1 = Failed (Propagated e)
        ∧ manager r.2 = manager b
    end.
Proof.
  cbv zeta. unfold create_new_sheet.
  rewrite BookM_bind_unfold, add_sheet_stage. cbv zeta.
  destruct (on_update b (api_calls b) (AddSheet sheet_name)) as [[]| |e];
    [| |done].
  - destruct (flush_then_say
                ("Added team names to sheet '" +:+ sheet_name +:+ "'.")
                (with_manager
                   (print ("Created a new sheet '" +:+ sheet_name +:+ "'.")
                          (manager b)).2
                   (called (BatchUpdate (AddSheet sheet_name)) b)))
      as (Hcalls & Hreq & Hbd & Hres).
    split; [exact Hcalls|]. split; [exact Hreq|]. split; [exact Hbd|].
    exact Hres.
  - destruct (flush_then_say
                ("Added team names to sheet '" +:+ sheet_name +:+ "'.")
                (with_manager
                   (print "Error creating a new sheet: HttpError"
                          (manager b)).2
                   (called (BatchUpdate (AddSheet sheet_name)) b)))
      as (Hcalls & Hreq & Hbd & Hres).
    split; [exact Hcalls|]. split; [exact Hreq|]. split; [exact Hbd|].
    exact Hres.
Qed.

(** ** A run over fewer than two weeks *)

Lemma calls_only_ret {A} (P : ApiCall → Prop) (a : A) : calls_only P (mret a).
Proof. intros b c Hc. by left. Qed.

Lemma calls_only_in_manager {A} (P : ApiCall → Prop) (m : M A) :
  calls_only P (in_manager m).
Proof.
  intros b c. unfold in_manager.
  destruct (m (manager b)) as [[a|e] w]; cbn; by left.
Qed.

Lemma calls_only_bind {A C} (P : ApiCall → Prop) (m : BookM A)
    (f : A → BookM C) :
  calls_only P m → (∀ a, calls_only P (f a)) → calls_only P (m ≫= f).
Proof.
  intros Hm Hf b c. rewrite BookM_bind_unfold.
  specialize (Hm b c). destruct (m b) as [[a|e] b1]; cbn in *; [|exact Hm].
  intros Hc. destruct (Hf a b1 c Hc) as [Hin|HP]; [by apply Hm | by right].
Qed.

(** What comes after a step that never returns does not run. *)
Lemma calls_only_stop {A C} (P : ApiCall → Prop) (m : BookM A)
    (f : A → BookM C) :
  never_done m → calls_only P m → calls_only P (m ≫= f).
Proof.
  intros Hnever Hm b c. rewrite BookM_bind_unfold.
  specialize (Hm b c). destruct (Hnever b) as [e He].
  destruct (m b) as [[a|e'] b1]; cbn in *; [discriminate He | exact Hm].
Qed.

Lemma never_done_bind_l {A C} (m : BookM A) (f : A → BookM C) :
  never_done m → never_done (m ≫= f).
Proof.
  intros Hnever b. rewrite BookM_bind_unfold. destruct (Hnever b) as [e He].
  destruct (m b) as [[a|e'] b1]; cbn in *; [discriminate He | eauto].
Qed.

Lemma never_done_bind_r {A C} (m : BookM A) (f : A → BookM C) :
  (∀ a, never_done (f a)) → never_done (m ≫= f).
Proof.
  intros Hf b. rewrite BookM_bind_unfold.
  destruct (m b) as [[a|e] b1]; cbn; [apply Hf | eauto].
Qed.

Lemma never_done_in_manager {A} (m : M A) :
  (∀ w, ∃ e, (m w).1 = Raise e) → never_done (in_manager m).
Proof.
  intros Hm b. unfold in_manager. destruct (Hm (manager b)) as [e He].
  destruct (m (manager b)) as [[a|e'] w]; cbn in *; [discriminate He | eauto].
Qed.

Lemma calls_only_check_sheet_exists (sheet_name : string) :
  calls_only summary_call (check_sheet_exists sheet_name).
Proof.
  intros b c. unfold check_sheet_exists, try_http.
  rewrite BookM_bind_unfold, open_spreadsheet_run.
  destruct (on_get b (api_calls b)) as [spreadsheet| |e]; cbn;
    try (destruct spreadsheet as [|entry]; cbn);
    rewrite elem_of_app, list_elem_of_singleton;
    (intros [Hc| ->]; [by left | right; by left]).
Qed.

Lemma calls_only_create_summary :
  calls_only summary_call (create_new_sheet "Summary").
Proof.
  intros b c. unfold create_new_sheet.
  rewrite BookM_bind_unfold, add_sheet_stage. cbv zeta.
  assert (Hadd : c ∈ api_calls b ++ [BatchUpdate (AddSheet "Summary")] →
                 c ∈ api_calls b ∨ summary_call c).
  { rewrite elem_of_app, list_elem_of_singleton.
    intros [Hc| ->]; [by left | right; right; by left]. }
  destruct (on_update b (api_calls b) (AddSheet "Summary")) as [[]| |e];
    [| |exact Hadd].
  - destruct (flush_then_say "Added team names to sheet 'Summary'."
                (with_manager
                   (print "Created a new sheet 'Summary'." (manager b)).2
                   (called (BatchUpdate (AddSheet "Summary")) b)))
      as (Hcalls & _).
    intros Hc. apply Hadd. cbn [with_manager called api_calls] in Hcalls.
    rewrite <- Hcalls. exact Hc.
  - destruct (flush_then_say "Added team names to sheet 'Summary'."
                (with_manager
                   (print "Error creating a new sheet: HttpError"
                          (manager b)).2
                   (called (BatchUpdate (AddSheet "Summary")) b)))
      as (Hcalls & _).
    intros Hc. apply Hadd. cbn [with_manager called api_calls] in Hcalls.
    rewrite <- Hcalls. exact Hc.
Qed.

Lemma calls_only_delete_other_sheets (keep : string) :
  calls_only summary_call (delete_other_sheets keep).
Proof.
  intros b c. unfold delete_other_sheets.
  rewrite BookM_bind_unfold, open_spreadsheet_run.
  assert (Hget : c ∈ api_calls b ++ [GetSpreadsheet] →
                 c ∈ api_calls b ∨ summary_call c).
  { rewrite elem_of_app, list_elem_of_singleton.
    intros [Hc| ->]; [by left | right; by left]. }
  destruct (on_get b (api_calls b)) as [spreadsheet| |e];
    [|exact Hget..].
  rewrite BookM_bind_unfold. cbn [mret BookM_ret].
  destruct (delete_loop keep (get_sheets spreadsheet)
              (called GetSpreadsheet b)) as (k & _ & Hcalls & _).
  rewrite Hcalls. rewrite elem_of_app. intros [Hc|Hc]; [by apply Hget|].
  right. right. right.
  set (wanted := (λ sheet, BatchUpdate (DeleteSheet (sheet_id sheet)))
                   <$> filter (λ sheet, sheet_title sheet ≠ Some keep)
                              (get_sheets spreadsheet)) in *.
  assert (Hin : c ∈ wanted).
  { rewrite <- (take_drop k wanted). apply elem_of_app. by left. }
  apply list_elem_of_fmap in Hin as (sheet & -> & _). eauto.
Qed.

(** Over a range of fewer than two weeks the multi-week averages always
    raise. *)
Lemma average_all_weeks_short_range (fl : FantasyFootballLeague) (weeks : nat)
    (sh : string) (start_position : nat) (pos : string)
    (rest positions_to_omit : list string) (started_or_not : string)
    (w : World) :
  (weeks ≤ 1)%nat →
  ∃ e, (get_and_write_average_points_per_player_all_weeks fl weeks sh
          start_position (pos :: rest) positions_to_omit started_or_not w).1
       = Raise e.
Proof.
  intros Hweeks.
  assert (Hcase : weeks = 0%nat ∨ weeks = 1%nat) by lia.
  unfold get_and_write_average_points_per_player_all_weeks.
  destruct Hcase as [->| ->].
  - by eexists.
  - unfold mbind, M_bind. rewrite accumulate_one_week.
    destruct (average_points_per_player fl (pos :: rest) positions_to_omit
                (Some 1%nat)) as [[|t teams_data]|e]; by eexists.
Qed.

(** X27.  A run over fewer than two weeks ([week] 0 or 1) never
    completes: whatever the league and the spreadsheet, it ends in an
    exception at the first multi-week report at the latest, so it never
    gets to the weekly sheets.  The only structural calls it makes are
    metadata requests, the creation of ["Summary"], and deletions. *)
Theorem run_analysis_needs_two_weeks (lg : League) (week : nat) (b : Book) :
  (week ≤ 1)%nat →
  let r := run_analysis lg week b in
  (∃ e, r.1 = Failed e)
  ∧ ∀ c, c ∈ api_calls r.2 → c ∈ api_calls b ∨ summary_call c.
Proof.
  intros Hweek. cbv zeta. unfold run_analysis.
  assert (Havg : never_done
            (in_manager
               (get_and_write_average_points_per_player_all_weeks
                  {| league := lg; week := week |} week "Summary" 2
                  checked_positions ["BE"] "started"))).
  { apply never_done_in_manager. intros w.
    by apply average_all_weeks_short_range. }
  split.
  - apply never_done_bind_r. intros _.
    apply never_done_bind_r. intros sheet_exists.
    apply never_done_bind_r. intros _.
    apply never_done_bind_r. intros _.
    by apply never_done_bind_l.
  - intros c.
    apply (calls_only_bind summary_call); [apply calls_only_in_manager|].
    intros _.
    apply (calls_only_bind summary_call);
      [apply calls_only_check_sheet_exists|].
    intros sheet_exists.
    apply (calls_only_bind summary_call).
    { destruct sheet_exists; cbn [negb]; [apply calls_only_ret|].
      apply (calls_only_bind summary_call); [apply calls_only_in_manager|].
      intros _.
      apply (calls_only_bind summary_call); [apply calls_only_create_summary|].
      intros _. apply calls_only_delete_other_sheets. }
    intros _.
    apply (calls_only_bind summary_call); [apply calls_only_in_manager|].
    intros _.
    apply calls_only_stop; [exact Havg | apply calls_only_in_manager].
Qed.

Lemma run_analysis_needs_two_weeks_witness :
  ∃ e, (run_analysis Examples.league_AB 1
          {| manager := Examples.fresh_world;
             on_get := λ _, ApiOk (Dict (Some []));
             on_update := λ _ _, ApiOk ();
             api_calls := [] |}).1 = Failed e.
Proof.
  apply (run_analysis_needs_two_weeks Examples.league_AB 1). lia.
Defined.
